(** * mcp_client: the automation orchestration layer

    A shallow embedding of the parts of the repository that route tool
    calls and drive task sessions:

    - [gemini-agent.js]            : class [GeminiAgent] (planning loop,
                                     tool execution, target resolution);
    - [mcp-bridge-server.js]       : endpoint detection, the tool dispatcher
                                     handed to the agent, the session store
                                     and the HTTP handlers around them;
    - [playwright-cdp-handler.js]  : class [PlaywrightCDPHandler].

    JavaScript values are an inductive type, [async] functions are
    computations in a state-and-exception monad over the outside world, and
    every call that leaves the process (network, Playwright, the MCP
    subprocess, the logger) is recorded in an event log. *)

From Stdlib Require Import String Ascii List ZArith Lia Bool.
From Stdlib Require Import Floats.PrimFloat Floats.SpecFloat Floats.FloatOps.
From stdpp Require Import base option strings pretty gmap.

Local Open Scope string_scope.
Set Warnings "-register-all".

(** ** JavaScript values *)

(** The values the program handles: what [JSON.parse] produces, plus
    [undefined]. Objects keep their properties in insertion order (the
    order [JSON.stringify] prints them in). An array carries, besides its
    items, the named properties assigned to it. *)
Inductive JsVal : Type :=
| JUndefined
| JNull
| JBool (b : bool)
| JNum (f : float)
| JStr (s : string)
| JArr (items : list JsVal) (named : list (string * JsVal))
| JObj (props : list (string * JsVal)).

Definition JsObject : Type := list (string * JsVal).

(** ToBoolean. *)
Definition truthy (v : JsVal) : bool :=
  match v with
  | JUndefined | JNull => false
  | JBool b => b
  | JNum f => negb (PrimFloat.eqb f 0%float) && PrimFloat.eqb f f
  | JStr s => negb (String.eqb s "")
  | JArr _ _ | JObj _ => true
  end.

(** [a || b]. *)
Definition js_or (a b : JsVal) : JsVal := if truthy a then a else b.

Fixpoint lookup_prop (k : string) (o : JsObject) : JsVal :=
  match o with
  | [] => JUndefined
  | (k', v) :: o' => if String.eqb k k' then v else lookup_prop k o'
  end.

Fixpoint assign_prop (k : string) (v : JsVal) (o : JsObject) : JsObject :=
  match o with
  | [] => [(k, v)]
  | (k', v') :: o' =>
      if String.eqb k k' then (k', v) :: o' else (k', v') :: assign_prop k v o'
  end.

(** [v.k] for a value [v] that is neither [null] nor [undefined], and a
    property name [k] that is no array index, not [length] and no
    prototype member: every name the program reads ([action], [tool],
    [args], [message], [ref], [text], [url], ...) is of that kind. *)
Definition get_prop (v : JsVal) (k : string) : JsVal :=
  match v with
  | JObj o => lookup_prop k o
  | JArr _ named => lookup_prop k named
  | _ => JUndefined
  end.

(** [v.k = x] in strict mode (the sources are ES modules): it adds or
    replaces the property of an object or array, and throws a TypeError on
    a primitive ([None]). *)
Definition set_prop (v : JsVal) (k : string) (x : JsVal) : option JsVal :=
  match v with
  | JObj o => Some (JObj (assign_prop k x o))
  | JArr items named => Some (JArr items (assign_prop k x named))
  | _ => None
  end.

(** [v === "s"]. *)
Definition is_str (v : JsVal) (s : string) : bool :=
  match v with
  | JStr s' => String.eqb s' s
  | _ => false
  end.

Definition typeof_string (v : JsVal) : bool :=
  match v with JStr _ => true | _ => false end.

(** ** Strings *)

(** The double quote and the line feed, which a string literal here
    cannot hold. *)
Definition dq : string := String (ascii_of_nat 34) EmptyString.
Definition nl : string := String (ascii_of_nat 10) EmptyString.

(** [s.includes(sub)]. *)
Fixpoint includes (s sub : string) : bool :=
  String.prefix sub s ||
  match s with
  | EmptyString => false
  | String _ s' => includes s' sub
  end.

(** [re.test(s)] for a regular expression that is an alternation of plain
    words. *)
Definition test_any (words : list string) (s : string) : bool :=
  existsb (includes s) words.

Definition lower_ascii (c : ascii) : ascii :=
  let n := nat_of_ascii c in
  if (65 <=? n)%nat && (n <=? 90)%nat then ascii_of_nat (n + 32) else c.

(** [s.toLowerCase()] on the ASCII letters. The words the lowered names
    are searched for hold none of the letters a non-ASCII character
    lowers to, so the searches below see what JavaScript sees. *)
Fixpoint toLowerCase (s : string) : string :=
  match s with
  | EmptyString => EmptyString
  | String c s' => String (lower_ascii c) (toLowerCase s')
  end.

Fixpoint index_of (c : ascii) (s : string) : option nat :=
  match s with
  | EmptyString => None
  | String c' s' =>
      if Ascii.eqb c c' then Some 0%nat else S <$> index_of c s'
  end.

Fixpoint last_index_of (c : ascii) (s : string) : option nat :=
  match s with
  | EmptyString => None
  | String c' s' =>
      match last_index_of c s' with
      | Some i => Some (S i)
      | None => if Ascii.eqb c c' then Some 0%nat else None
      end
  end.

(** [response.match(/\{[\s\S]*\}/)]: the leftmost match starts at the
    first opening brace that has a closing brace after it, and, the star
    being greedy, runs to the last closing brace of the text. *)
Definition match_braces (response : string) : option string :=
  match index_of "{"%char response with
  | None => None
  | Some i =>
      match last_index_of "}"%char response with
      | None => None
      | Some j =>
          if (i <? j)%nat then Some (String.substring i (j - i + 1) response)
          else None
      end
  end.

(** The character class [[a-zA-Z0-9_\-:\[\]\.=]]. *)
Definition ref_char (c : ascii) : bool :=
  let n := nat_of_ascii c in
  ((97 <=? n)%nat && (n <=? 122)%nat) ||
  ((65 <=? n)%nat && (n <=? 90)%nat) ||
  ((48 <=? n)%nat && (n <=? 57)%nat) ||
  existsb (Ascii.eqb c) ["_"; "-"; ":"; "["; "]"; "."; "="]%char.

Fixpoint take_ref_chars (s : string) : string :=
  match s with
  | EmptyString => EmptyString
  | String c s' => if ref_char c then String c (take_ref_chars s') else EmptyString
  end.

(** [serialized.match(/#?[a-zA-Z0-9_\-:\[\]\.=]+/)]: the leftmost run of
    class characters, with the hash sign before it when there is one. *)
Fixpoint match_ref_token (s : string) : option string :=
  match s with
  | EmptyString => None
  | String c s' =>
      if ref_char c then Some (take_ref_chars s)
      else if Ascii.eqb c "#"%char then
        match s' with
        | String c' _ =>
            if ref_char c' then Some (String c (take_ref_chars s'))
            else match_ref_token s'
        | EmptyString => None
        end
      else match_ref_token s'
  end.

(** ** Errors and computations *)

(** A thrown value: an [Error] object with its name and message. *)
Record JsError : Type := mkJsError { err_name : string; err_message : string }.

(** [new Error(msg)]. *)
Definition Error (msg : string) : JsError := mkJsError "Error" msg.

(** [String(error)]. *)
Definition String_of_error (e : JsError) : string :=
  if String.eqb (err_message e) "" then err_name e
  else if String.eqb (err_name e) "" then err_message e
  else err_name e +:+ ": " +:+ err_message e.

Inductive Outcome (A : Type) : Type :=
| Ok (a : A)
| Throw (e : JsError).
Arguments Ok {A} a.
Arguments Throw {A} e.

(** An [async] function over a state [S]: it returns or throws, and leaves
    a state behind either way. *)
Definition M (S A : Type) : Type := S -> Outcome A * S.

Definition ret {S A : Type} (a : A) : M S A := fun s => (Ok a, s).

Definition bind {S A B : Type} (m : M S A) (k : A -> M S B) : M S B :=
  fun s =>
    match m s with
    | (Ok a, s') => k a s'
    | (Throw e, s') => (Throw e, s')
    end.

Definition throw {S A : Type} (e : JsError) : M S A := fun s => (Throw e, s).

(** [try { m } catch (e) { h e }]. *)
Definition try_catch {S A : Type} (m : M S A) (h : JsError -> M S A) : M S A :=
  fun s =>
    match m s with
    | (Ok a, s') => (Ok a, s')
    | (Throw e, s') => h e s'
    end.

Definition gets {S A : Type} (f : S -> A) : M S A := fun s => (Ok (f s), s).
Definition modify {S : Type} (f : S -> S) : M S unit := fun s => (Ok tt, f s).

(** A computation on the second component, run on a pair. *)
Definition lift_snd {T S A : Type} (m : M S A) : M (T * S) A :=
  fun ts => let '(r, s') := m (snd ts) in (r, (fst ts, s')).

Declare Scope js_scope.
Delimit Scope js_scope with js.
Notation "x <- m ;; k" := (bind m (fun x => k))
  (at level 100, m at next level, right associativity) : js_scope.
Notation "m ;; k" := (bind m (fun _ => k))
  (at level 100, right associativity) : js_scope.
Local Open Scope js_scope.

(** ** Data of the agent and of a session *)

(** One entry of the tool catalogue ([mcpClient.listTools()]): its name and
    the keys of [inputSchema.properties] (none when the tool has no
    schema). The description is read only to build the system prompt. *)
Record Tool : Type := mkTool { t_name : string; t_schema_keys : list string }.

Record ChatMsg : Type := mkChatMsg { role : string; content : JsVal }.

(** The fields of a [GeminiAgent], but [mcpClient], whose two methods are
    the interface [McpClient] below. *)
Record Agent : Type := mkAgent {
  apiKey : string;
  model : string;
  baseUrl : string;
  conversationHistory : list ChatMsg;
  availableTools : option (list Tool)
}.

(** One entry of a session's trace. *)
Record Step : Type := mkStep {
  step_iteration : nat;
  step_tool : JsVal;
  step_args : JsVal;
  step_result : JsVal
}.

(** What [runTaskSession] returns. *)
Record SessionResult : Type := mkResult {
  success : bool;
  message : JsVal;
  trace : list Step
}.

(** The argument of the [onUpdate] callback. *)
Record Update : Type := mkUpdate {
  u_status : string;
  u_iteration : nat;
  u_action : JsObject;
  u_toolResult : JsVal;
  u_trace : list Step
}.

(** ** The logger and the event log *)

Inductive LogLevel : Type := LvError | LvWarn | LvInfo | LvDebug.

(** One constructor for each logger call of the embedded functions, with
    the values the call prints. *)
Inductive LogEntry : Type :=
(* gemini-agent.js *)
| LogRawResponse (text : string)
| LogRepeatedAction (sig : string)
| LogSessionAutoRef (tool ref : JsVal)
| LogSessionRefFailed (e : JsError)
| LogExecutingTool (tool : JsVal) (iteration : nat)
| LogSessionFinished (msg : JsVal)
| LogUnknownAction (parsed : JsObject)
| LogSessionError (e : JsError)
| LogGeminiAPIError (e : JsError)
| LogExecuteToolError (e : JsError)
| LogComputeRefFailed (e : JsError)
| LogInitializeFailed (e : JsError)
| LogAgentAutoRef (tool ref : JsVal)
| LogAgentRefFailed (e : JsError)
| LogProcessMessageError (e : JsError)
| LogSetModelIgnored (name : JsVal)
(* mcp-bridge-server.js and playwright-cdp-handler.js: the text of the
   message, up to its first interpolation, and the values printed *)
| LogMsg (text : string) (data : list JsVal)
| LogErr (text : string) (e : JsError).

(** Handles of the Playwright objects the bridge holds, and of the
    functions made from script text. *)
Definition BrowserRef : Type := nat.
Definition ContextRef : Type := nat.
Definition PageRef : Type := nat.
Definition FuncRef : Type := nat.

(** What [page.evaluate] is given: a function, or another value. *)
Inductive EvalArg : Type :=
| AFun (f : FuncRef)
| AVal (v : JsVal).

(** What the process asks of the outside, in the order asked. *)
Inductive Event : Type :=
| EvLog (level : LogLevel) (entry : LogEntry)
| EvConsole (text : string)
(* the planning service *)
| EvGemini (url : string) (prompt : string) (history : list ChatMsg)
(* fetch(url, { signal: AbortSignal.timeout(ms) }), response.json() *)
| EvFetch (url : string) (timeout_ms : Z)
| EvResponseJson (url : string)
(* Playwright *)
| EvConnectOverCDP (endpoint : string)
| EvContexts (b : BrowserRef)
| EvNewContext (b : BrowserRef)
| EvPages (c : ContextRef)
| EvNewPage (c : ContextRef)
| EvGoto (p : PageRef) (url : JsVal)
| EvUrl (p : PageRef)
| EvTitle (p : PageRef)
| EvContent (p : PageRef)
| EvScreenshot (p : PageRef) (options : JsVal)
| EvClick (p : PageRef) (selector options : JsVal)
| EvFill (p : PageRef) (selector text options : JsVal)
| EvType (p : PageRef) (selector text options : JsVal)
| EvEvaluate (p : PageRef) (f : EvalArg)
| EvWaitForSelector (p : PageRef) (selector options : JsVal)
| EvAccessibilitySnapshot (p : PageRef)
| EvPageClose (p : PageRef)
| EvBrowserClose (b : BrowserRef)
(* eval(src), new Function(src), f() *)
| EvEval (src : string)
| EvNewFunction (src : string)
| EvCallFunction (f : FuncRef)
(* the MCP client of the subprocess *)
| EvMcpConnect
| EvMcpListTools
| EvMcpCallTool (name args : JsVal)
| EvMcpClose
(* crypto.randomUUID(), new Date().toISOString() *)
| EvRandomUUID
| EvDate.

(** The state every computation runs on: the outside world and the log. *)
Record St (W : Type) : Type := mkSt { world : W; events : list Event }.
Arguments mkSt {W} world events.
Arguments world {W} s.
Arguments events {W} s.

Definition emit {W : Type} (e : Event) : M (St W) unit :=
  modify (fun s => mkSt (world s) (events s ++ [e])).

Definition logger {W : Type} (lv : LogLevel) (entry : LogEntry) : M (St W) unit :=
  emit (EvLog lv entry).

(** A call to the outside: it changes the world and answers or throws,
    and [ev] is logged before it. *)
Definition perform {W A : Type} (ev : Event) (io : W -> Outcome A * W) : M (St W) A :=
  fun s =>
    let '(r, w') := io (world s) in
    (r, mkSt w' (events s ++ [ev])).

(** ** Built-ins and interfaces *)

(** The built-ins of the JavaScript engine that the program applies to
    data. [JSON_parse_object] is [JSON.parse] on a text that starts with an
    opening brace, the only texts it is given here: such a text parses to
    an object or not at all ([None]: a SyntaxError). [JSON_stringify v] is
    the text [JSON.stringify(v)] contributes to a template literal,
    [ToString v] the text of [v] in one, and [TypeError_for f] the
    TypeError the engine throws at the fault [f]. *)
Inductive Fault : Type :=
| AssignProp (v : JsVal) (k : string)   (* v.k = x, v a primitive *)
| ReadProp (v : JsVal) (k : string)     (* v.k, v null or undefined *)
| CallMethod (v : JsVal) (k : string)   (* v.k(...), v.k not a function *)
| NotIterable (v : JsVal).              (* for (const x of v) *)

Class Builtins : Type := {
  JSON_parse_object : string -> option JsObject;
  JSON_stringify : JsVal -> string;
  ToString : JsVal -> string;
  TypeError_for : Fault -> JsError
}.

(** What a [GeminiAgent] is given: the exchange with the planning service
    (the request [callGeminiAPI] posts, answered with the trimmed text of
    the first candidate, or failing), and the [mcpClient] object. *)
Class AgentEnv (W : Type) : Type := {
  gemini_request : Agent -> string -> list ChatMsg -> W -> Outcome string * W;
  mcpClient_listTools : M (St W) (list Tool);
  mcpClient_callTool : JsVal -> JsVal -> M (St W) JsVal
}.

(** The [options] of [runTaskSession]: [maxIterations], an integer when
    present, and the [onUpdate] callback. *)
Record Options (W : Type) : Type := mkOptions {
  maxIterations : option Z;
  onUpdate : option (Update -> M (St W) unit)
}.
Arguments mkOptions {W} maxIterations onUpdate.
Arguments maxIterations {W} o.
Arguments onUpdate {W} o.

(** ** gemini-agent.js *)

Module GeminiAgent.
Section Agent.
Context {W : Type} {B : Builtins} {E : AgentEnv W}.

(** [constructor(apiKey, mcpClient)]. *)
Definition constructor (key : string) : Agent :=
  {| apiKey := key;
     model := "gemini-2.5-flash";
     baseUrl := "https://generativelanguage.googleapis.com/v1beta";
     conversationHistory := [];
     availableTools := None |}.

(** [initialize()]. *)
Definition initialize (this : Agent) : M (St W) (bool * Agent) :=
  try_catch
    (tools <- mcpClient_listTools ;;
     ret (true, {| apiKey := apiKey this; model := model this;
                   baseUrl := baseUrl this;
                   conversationHistory := conversationHistory this;
                   availableTools := Some tools |}))
    (fun error => logger LvError (LogInitializeFailed error) ;; ret (false, this)).

(** The address [callGeminiAPI] posts to. *)
Definition request_url (this : Agent) : string :=
  baseUrl this +:+ "/models/" +:+ model this +:+ ":generateContent?key=" +:+ apiKey this.

(** [callGeminiAPI(prompt, conversationContext)]: one request to the
    planning service; a failure is logged and thrown again. *)
Definition callGeminiAPI (this : Agent) (prompt : string) (ctx : list ChatMsg)
  : M (St W) string :=
  try_catch
    (perform (EvGemini (request_url this) prompt ctx) (gemini_request this prompt ctx))
    (fun error => logger LvError (LogGeminiAPIError error) ;; throw error).

(** The object built when the text holds no JSON. *)
Definition respond_with (response : string) : JsObject :=
  [("action", JStr "respond"); ("message", JStr response)].

(** [parseGeminiResponse(response)]. *)
Definition parseGeminiResponse (response : string) : JsObject :=
  match match_braces response with
  | Some jsonMatch =>
      match JSON_parse_object jsonMatch with
      | Some parsed => parsed
      | None => respond_with response
      end
  | None => respond_with response
  end.

Definition js_bool (b : bool) : string := if b then "true" else "false".

(** The page functions [executeTool] builds for the tools it runs through
    the evaluate tool: the template literals of lines 759-794 and
    797-811, with the spaces that begin their lines. *)
Definition fnBody_type (elementHint text : JsVal) (slowly submit : bool) : string :=
  "() => {" +:+ nl +:+
  "              try {" +:+ nl +:+
  "                const hint = " +:+ JSON_stringify (js_or elementHint (JStr "")) +:+ ".toLowerCase();" +:+ nl +:+
  "                const visible = el => { const r = el.getBoundingClientRect(); return r.width>0 && r.height>0 && getComputedStyle(el).visibility !== 'hidden'; };" +:+ nl +:+
  "                const candidates = Array.from(document.querySelectorAll('input,textarea,[contenteditable]')).filter(visible);" +:+ nl +:+
  "                let el = null;" +:+ nl +:+
  "                if (hint) {" +:+ nl +:+
  "                  el = candidates.find(e => ((e.placeholder||'').toLowerCase().includes(hint) || (e.getAttribute('aria-label')||'').toLowerCase().includes(hint)));" +:+ nl +:+
  "                  if (!el) {" +:+ nl +:+
  "                    for (const e of candidates) {" +:+ nl +:+
  "                      if (e.id) {" +:+ nl +:+
  "                        const label = document.querySelector('label[for=" +:+ dq +:+ "'+e.id+'" +:+ dq +:+ "]');" +:+ nl +:+
  "                        if (label && label.textContent.toLowerCase().includes(hint)) { el = e; break; }" +:+ nl +:+
  "                      }" +:+ nl +:+
  "                    }" +:+ nl +:+
  "                  }" +:+ nl +:+
  "                }" +:+ nl +:+
  "                if (!el) el = candidates[0] || document.querySelector('input,textarea,[contenteditable]');" +:+ nl +:+
  "                if (!el) return { error: 'element-not-found' };" +:+ nl +:+
  "                el.focus();" +:+ nl +:+
  "                const txt = " +:+ JSON_stringify text +:+ ";" +:+ nl +:+
  "                if (" +:+ js_bool slowly +:+ ") {" +:+ nl +:+
  "                  for (let i = 0; i < txt.length; i++) { el.value = el.value + txt[i]; el.dispatchEvent(new Event('input', {bubbles:true})); }" +:+ nl +:+
  "                } else {" +:+ nl +:+
  "                  el.value = txt;" +:+ nl +:+
  "                  el.dispatchEvent(new Event('input', {bubbles:true}));" +:+ nl +:+
  "                  el.dispatchEvent(new Event('change', {bubbles:true}));" +:+ nl +:+
  "                }" +:+ nl +:+
  "                if (" +:+ js_bool submit +:+ ") {" +:+ nl +:+
  "                  // try to submit via form or press Enter" +:+ nl +:+
  "                  if (el.form) { el.form.submit(); }" +:+ nl +:+
  "                  else { el.dispatchEvent(new KeyboardEvent('keydown', {key: 'Enter'})); }" +:+ nl +:+
  "                }" +:+ nl +:+
  "                return { status: 'typed' };" +:+ nl +:+
  "              } catch (e) { return { error: String(e) }; }" +:+ nl +:+
  "            }".

Definition fnBody_click (elementHint : JsVal) : string :=
  "() => {" +:+ nl +:+
  "              try {" +:+ nl +:+
  "                const hint = " +:+ JSON_stringify (js_or elementHint (JStr "")) +:+ ".toLowerCase();" +:+ nl +:+
  "                const visible = el => { const r = el.getBoundingClientRect(); return r.width>0 && r.height>0 && getComputedStyle(el).visibility !== 'hidden'; };" +:+ nl +:+
  "                const candidates = Array.from(document.querySelectorAll('button,a,input[type=button],[role=button]')).filter(visible);" +:+ nl +:+
  "                let el = null;" +:+ nl +:+
  "                if (hint) {" +:+ nl +:+
  "                  el = candidates.find(e => ((e.textContent||'').toLowerCase().includes(hint) || (e.getAttribute('aria-label')||'').toLowerCase().includes(hint)));" +:+ nl +:+
  "                }" +:+ nl +:+
  "                if (!el) el = candidates[0] || document.querySelector('button,a,input[type=button],[role=button]');" +:+ nl +:+
  "                if (!el) return { error: 'element-not-found' };" +:+ nl +:+
  "                el.click();" +:+ nl +:+
  "                return { status: 'clicked' };" +:+ nl +:+
  "              } catch (e) { return { error: String(e) }; }" +:+ nl +:+
  "            }".

Definition fnBody_press_key (key : JsVal) : string :=
  "() => { try { document.activeElement && document.activeElement.dispatchEvent(new KeyboardEvent('keydown',{key:" +:+
  JSON_stringify key +:+ "})); return { status: 'key-pressed' }; } catch(e){return { error: String(e) } } }".

Definition fnBody_fill_form (fields : JsVal) : string :=
  "() => { try { for (const f of " +:+ JSON_stringify fields +:+
  ") { try { const el = document.querySelector(f.ref) || document.querySelector('[name=" +:+ dq +:+
  "'+f.name+'" +:+ dq +:+
  "]'); if (!el) continue; el.focus(); el.value = f.value; el.dispatchEvent(new Event('input',{bubbles:true})); el.dispatchEvent(new Event('change',{bubbles:true})); } catch(e){} } return { status: 'filled' }; } catch(e){ return { error: String(e) }; } }".

(** [args && args.k ? args.k : ''] *)
Definition arg_or_empty (args : JsVal) (k : string) : JsVal :=
  if truthy args && truthy (get_prop args k) then get_prop args k else JStr "".

(** [!!(args && args.k)] *)
Definition arg_flag (args : JsVal) (k : string) : bool :=
  truthy args && truthy (get_prop args k).

Definition evaluateOnly : list string :=
  ["browser_type"; "browser_click"; "browser_fill_form"; "browser_press_key"].

(** [/evaluate|exec|run-js|page_execute|dom_eval|js_eval/] *)
Definition eval_name_words : list string :=
  ["evaluate"; "exec"; "run-js"; "page_execute"; "dom_eval"; "js_eval"].

(** The evaluate tool [executeTool] looks for in the catalogue. *)
Definition find_evalTool (this : Agent) : option Tool :=
  let tools := default [] (availableTools this) in
  match find (fun t => String.eqb (t_name t) "browser_evaluate") tools with
  | Some t => Some t
  | None => find (fun t => test_any eval_name_words (t_name t)) tools
  end.

Definition fnBody_for (toolName : JsVal) (args : JsVal) : string :=
  if is_str toolName "browser_type" then
    fnBody_type (arg_or_empty args "element") (arg_or_empty args "text")
                (arg_flag args "slowly") (arg_flag args "submit")
  else if is_str toolName "browser_click" then
    fnBody_click (arg_or_empty args "element")
  else if is_str toolName "browser_press_key" then
    fnBody_press_key (arg_or_empty args "key")
  else if is_str toolName "browser_fill_form" then
    fnBody_fill_form
      (js_or (if truthy args then get_prop args "fields" else args) (JArr [] []))
  else "".

(** The two shapes of a tool result. *)
Definition tool_success (result : JsVal) : JsVal :=
  JObj [("success", JBool true); ("result", result)].
Definition tool_failure (e : JsError) : JsVal :=
  JObj [("success", JBool false); ("error", JStr (err_message e))].

(** [executeTool(toolName, args)]. *)
Definition executeTool (this : Agent) (toolName args : JsVal) : M (St W) JsVal :=
  try_catch
    (let direct :=
       result <- mcpClient_callTool toolName args ;;
       ret (tool_success result) in
     if existsb (is_str toolName) evaluateOnly then
       match find_evalTool this with
       | Some evalTool =>
           let evalArgs := JObj [("function", JStr (fnBody_for toolName args))] in
           result <- mcpClient_callTool (JStr (t_name evalTool)) evalArgs ;;
           ret (tool_success result)
       | None => direct
       end
     else direct)
    (fun error => logger LvError (LogExecuteToolError error) ;; ret (tool_failure error)).

(** [/evaluate|exec|run-js|page_execute|browser_eval|browser_evaluate|dom_eval|js_eval/] *)
Definition eval_tool_words : list string :=
  ["evaluate"; "exec"; "run-js"; "page_execute"; "browser_eval";
   "browser_evaluate"; "dom_eval"; "js_eval"].

(** [/script|expression|source|code|js/] *)
Definition script_arg_words : list string :=
  ["script"; "expression"; "source"; "code"; "js"].

(** The page script of [computeRefIfMissing]: the template literal of
    lines 867-904, with the spaces that begin its lines. *)
Definition pageScript (userHint : JsVal) : string :=
  "(function(userHint){" +:+ nl +:+
  "        try {" +:+ nl +:+
  "          const hint = (userHint||'').toLowerCase();" +:+ nl +:+
  "          function visible(el){" +:+ nl +:+
  "            const rect = el.getBoundingClientRect();" +:+ nl +:+
  "            return rect.width>0 && rect.height>0 && window.getComputedStyle(el).visibility !== 'hidden';" +:+ nl +:+
  "          }" +:+ nl +:+
  "          const candidates = Array.from(document.querySelectorAll('input,textarea,[contenteditable]')).filter(visible);" +:+ nl +:+
  "          if (hint) {" +:+ nl +:+
  "            // match placeholder" +:+ nl +:+
  "            const byPlaceholder = candidates.find(el=> (el.placeholder||'').toLowerCase().includes(hint));" +:+ nl +:+
  "            if(byPlaceholder){" +:+ nl +:+
  "              if(byPlaceholder.id) return '#'+byPlaceholder.id;" +:+ nl +:+
  "              if(byPlaceholder.name) return byPlaceholder.tagName.toLowerCase()+" +:+ dq +:+ "[name='" +:+ dq +:+ "+byPlaceholder.name+" +:+ dq +:+ "']" +:+ dq +:+ ";" +:+ nl +:+
  "              return byPlaceholder.tagName.toLowerCase()+" +:+ dq +:+ "[placeholder='" +:+ dq +:+ "+byPlaceholder.placeholder+" +:+ dq +:+ "']" +:+ dq +:+ ";" +:+ nl +:+
  "            }" +:+ nl +:+
  "            // match associated label text" +:+ nl +:+
  "            for(const el of candidates){" +:+ nl +:+
  "              if(el.id){" +:+ nl +:+
  "                const label = document.querySelector('label[for=" +:+ dq +:+ "'+el.id+'" +:+ dq +:+ "]');" +:+ nl +:+
  "                if(label && label.textContent.toLowerCase().includes(hint)){" +:+ nl +:+
  "                  return '#'+el.id;" +:+ nl +:+
  "                }" +:+ nl +:+
  "              }" +:+ nl +:+
  "            }" +:+ nl +:+
  "          }" +:+ nl +:+
  "          if(candidates.length){" +:+ nl +:+
  "            const el = candidates[0];" +:+ nl +:+
  "            if(el.id) return '#'+el.id;" +:+ nl +:+
  "            if(el.name) return el.tagName.toLowerCase()+" +:+ dq +:+ "[name='" +:+ dq +:+ "+el.name+" +:+ dq +:+ "']" +:+ dq +:+ ";" +:+ nl +:+
  "            // fallback to nth-of-type" +:+ nl +:+
  "            const tag = el.tagName.toLowerCase();" +:+ nl +:+
  "            const index = Array.prototype.indexOf.call(document.querySelectorAll(tag), el) + 1;" +:+ nl +:+
  "            return tag+" +:+ dq +:+ ":nth-of-type(" +:+ dq +:+ "+index+" +:+ dq +:+ ")" +:+ dq +:+ ";" +:+ nl +:+
  "          }" +:+ nl +:+
  "          return null;" +:+ nl +:+
  "        } catch(e) { return null; }" +:+ nl +:+
  "      })(" +:+ JSON_stringify userHint +:+ ");".

(** The evaluate-like tool [computeRefIfMissing] looks for. *)
Definition find_scriptTool (tools : list Tool) : option Tool :=
  find (fun t =>
          test_any eval_tool_words (toLowerCase (t_name t)) ||
          existsb (test_any script_arg_words) (t_schema_keys t))
       tools.

(** The selector read off the answer of the evaluate tool. *)
Definition ref_of_response (evalResponse : JsVal) : JsVal :=
  if negb (truthy evalResponse) then JNull
  else if typeof_string evalResponse then evalResponse
  else if truthy (get_prop evalResponse "result") && typeof_string (get_prop evalResponse "result")
  then get_prop evalResponse "result"
  else if truthy (get_prop evalResponse "output") && typeof_string (get_prop evalResponse "output")
  then get_prop evalResponse "output"
  else if truthy (get_prop evalResponse "value") && typeof_string (get_prop evalResponse "value")
  then get_prop evalResponse "value"
  else match match_ref_token (JSON_stringify evalResponse) with
       | Some m => JStr m
       | None => JNull
       end.

(** [computeRefIfMissing(toolName, args, userHint)]. *)
Definition computeRefIfMissing (this : Agent) (toolName args userHint : JsVal)
  : M (St W) JsVal :=
  try_catch
    (if truthy args && truthy (get_prop args "ref") then ret (get_prop args "ref")
     else
       match availableTools this with
       | None | Some [] => ret JNull
       | Some tools =>
           match find_scriptTool tools with
           | None => ret JNull
           | Some evalTool =>
               let scriptArgName :=
                 default "script" (find (test_any script_arg_words) (t_schema_keys evalTool)) in
               let callArgs := JObj [(scriptArgName, JStr (pageScript userHint))] in
               evalResponse <- mcpClient_callTool (JStr (t_name evalTool)) callArgs ;;
               ret (ref_of_response evalResponse)
           end
       end)
    (fun error => logger LvWarn (LogComputeRefFailed error) ;; ret JNull).

(** [array.slice(-n)]. *)
Definition slice_last {A : Type} (n : nat) (l : list A) : list A :=
  skipn (length l - n) l.

(** *** runTaskSession *)

(** The variables of the loop. [finished] is left out: it is set only on
    the line before a [return], so it is [false] at every test of it. *)
Record Loop : Type := mkLoop {
  iteration : nat;
  loop_trace : list Step;
  lastToolResult : JsVal;
  previousActionSignature : option string;
  repeatCount : nat
}.

Definition starter_prompt (taskDescription : JsVal) : string :=
  "You are executing a task on behalf of the user. The task: " +:+ ToString taskDescription +:+ "." +:+ nl +:+ nl +:+
  "Respond with a JSON object describing the next action in the exact format:" +:+ nl +:+
  "{ " +:+ dq +:+ "action" +:+ dq +:+ ":" +:+ dq +:+ "call_tool" +:+ dq +:+ ", " +:+ dq +:+ "tool" +:+ dq +:+ ":" +:+ dq +:+ "tool_name" +:+ dq +:+ ", " +:+ dq +:+ "args" +:+ dq +:+ ":{...} }" +:+ nl +:+
  "or when finished respond with:" +:+ nl +:+
  "{ " +:+ dq +:+ "action" +:+ dq +:+ ":" +:+ dq +:+ "done" +:+ dq +:+ ", " +:+ dq +:+ "message" +:+ dq +:+ ":" +:+ dq +:+ "final human friendly message" +:+ dq +:+ " }." +:+ nl +:+ nl +:+
  "Only request one tool invocation at a time. After you receive the result of a tool call, you will be given that result and should continue by returning the next JSON action or {" +:+ dq +:+ "action" +:+ dq +:+ ":" +:+ dq +:+ "done" +:+ dq +:+ "}.".

(** The text added to the prompt from the second iteration on. *)
Definition contextSuffix (lastToolResult : JsVal) : string :=
  if truthy lastToolResult
  then nl +:+ nl +:+ "Previous tool result: " +:+ JSON_stringify lastToolResult
  else "".

(** The signature the loop guard compares. *)
Definition action_signature (parsed : JsObject) : string :=
  ToString (lookup_prop "tool" parsed) +:+ "|" +:+
  JSON_stringify (js_or (lookup_prop "args" parsed) (JObj [])).

Definition same_signature (previous : option string) (sig : string) : bool :=
  match previous with
  | Some p => String.eqb p sig
  | None => false
  end.

Definition stopped_message : string := "Stopped: repeated action detected (no progress).".

(** Lines 486-496: the computed ref is put into [parsed.args] where that
    has none. *)
Definition resolve_ref (this : Agent) (taskDescription : JsVal) (parsed : JsObject)
  : M (St W) JsObject :=
  computedRef <- computeRefIfMissing this (lookup_prop "tool" parsed)
                   (js_or (lookup_prop "args" parsed) (JObj [])) taskDescription ;;
  if truthy computedRef then
    let args1 := js_or (lookup_prop "args" parsed) (JObj []) in
    match set_prop args1 "ref" (js_or (get_prop args1 "ref") computedRef) with
    | Some args2 =>
        logger LvInfo (LogSessionAutoRef (lookup_prop "tool" parsed) computedRef) ;;
        ret (assign_prop "args" args2 parsed)
    | None =>
        logger LvWarn (LogSessionRefFailed (TypeError_for (AssignProp args1 "ref"))) ;;
        ret (assign_prop "args" args1 parsed)
    end
  else ret parsed.

(** [toolResult && toolResult.result ? toolResult.result : toolResult] *)
Definition result_summary (toolResult : JsVal) : JsVal :=
  if truthy toolResult && truthy (get_prop toolResult "result")
  then get_prop toolResult "result" else toolResult.

(** Lines 460-464: the planning service is asked, and its text parsed. *)
Definition plan_action (this : Agent) (taskDescription : JsVal) (st : Loop)
  : M (St W) (string * JsObject) :=
  geminiResponse <- callGeminiAPI this
                      (starter_prompt taskDescription +:+ contextSuffix (lastToolResult st))
                      (slice_last 5 (conversationHistory this)) ;;
  logger LvDebug (LogRawResponse (String.substring 0 4000 geminiResponse)) ;;
  ret (geminiResponse, parseGeminiResponse geminiResponse).

(** Lines 469-475: the signature kept and the count of repeats, after the
    action [parsed]. *)
Definition guard_signature (st : Loop) (parsed : JsObject) : option string :=
  if same_signature (previousActionSignature st) (action_signature parsed)
  then previousActionSignature st else Some (action_signature parsed).

Definition guard_count (st : Loop) (parsed : JsObject) : nat :=
  if same_signature (previousActionSignature st) (action_signature parsed)
  then S (repeatCount st) else 0%nat.

(** [repeatCount >= 2] *)
Definition guard_trips (st : Loop) (parsed : JsObject) : bool :=
  (2 <=? guard_count st parsed)%nat.

(** Lines 504-510. *)
Definition notify (options : Options W) (update : Update) : M (St W) unit :=
  match onUpdate options with
  | Some callback => try_catch (callback update) (fun _ => ret tt)
  | None => ret tt
  end.

(** Lines 486-516: the action is executed and recorded. *)
Definition execute_action (this : Agent) (taskDescription : JsVal)
  (options : Options W) (st : Loop) (parsed : JsObject) : M (St W) Loop :=
  resolved <- resolve_ref this taskDescription parsed ;;
  logger LvInfo (LogExecutingTool (lookup_prop "tool" resolved) (iteration st + 1)) ;;
  let args := js_or (lookup_prop "args" resolved) (JObj []) in
  toolResult <- executeTool this (lookup_prop "tool" resolved) args ;;
  let trace' :=
    (loop_trace st ++
     [mkStep (iteration st + 1) (lookup_prop "tool" resolved) args toolResult])%list in
  notify options (mkUpdate "running" (iteration st + 1) resolved toolResult trace') ;;
  ret (mkLoop (iteration st + 1) trace' (result_summary toolResult)
              (guard_signature st parsed) (guard_count st parsed)).

(** Lines 519-530: an action that is no tool call ends the session. *)
Definition finish_action (geminiResponse : string) (st : Loop) (parsed : JsObject)
  : M (St W) SessionResult :=
  if is_str (lookup_prop "action" parsed) "done"
     || is_str (lookup_prop "action" parsed) "respond"
     || negb (truthy (lookup_prop "action" parsed)) then
    let msg := js_or (lookup_prop "message" parsed)
                     (js_or (JStr geminiResponse) (JStr "Done")) in
    logger LvInfo (LogSessionFinished msg) ;;
    ret (mkResult true msg (loop_trace st))
  else
    logger LvWarn (LogUnknownAction parsed) ;;
    ret (mkResult false
           (JStr ("Unknown action from Gemini: " +:+ JSON_stringify (JObj parsed)))
           (loop_trace st)).

(** [error && (error.message || String(error))] *)
Definition error_text (e : JsError) : string :=
  if String.eqb (err_message e) "" then String_of_error e else err_message e.

(** One pass through the body of the [while] loop: the next variables of
    the loop, or what the function returns. *)
Definition session_iteration (this : Agent) (taskDescription : JsVal)
  (options : Options W) (st : Loop) : M (St W) (Loop + SessionResult) :=
  try_catch
    (planned <- plan_action this taskDescription st ;;
     let parsed := snd planned in
     if is_str (lookup_prop "action" parsed) "call_tool" then
       if guard_trips st parsed then
         logger LvWarn (LogRepeatedAction (action_signature parsed)) ;;
         ret (inr (mkResult true (JStr stopped_message) (loop_trace st)))
       else
         st' <- execute_action this taskDescription options st parsed ;;
         ret (inl st')
     else
       result <- finish_action (fst planned) st parsed ;;
       ret (inr result))
    (fun error =>
       logger LvError (LogSessionError error) ;;
       ret (inr (mkResult false (JStr (error_text error)) (loop_trace st)))).

(** [(options && options.maxIterations) || 10] *)
Definition maxIterations_of (options : Options W) : Z :=
  match maxIterations options with
  | Some n => if (n =? 0)%Z then 10%Z else n
  | None => 10%Z
  end.

(** The number of type double that an integer is, or is nearest to. *)
Definition number_of_Z (n : Z) : float :=
  SF2Prim (binary_normalize prec emax n 0 false).

(** [`${maxIterations}`], for [maxIterations] an integer. JavaScript
    prints a number with the fewest digits that tell it from the other
    numbers of type double: all the digits of an integer up to 2^53 in
    absolute value, and what [Number.prototype.toString] gives for a
    larger one (zeros after the 17th digit, an exponent from 10^21 on). *)
Definition number_text (n : Z) : string :=
  if (Z.abs n <=? 2 ^ 53)%Z then pretty n else ToString (JNum (number_of_Z n)).

(** [`Max iterations (${maxIterations}) reached`] *)
Definition max_iterations_message (maxIt : Z) : string :=
  "Max iterations (" +:+ number_text maxIt +:+ ") reached".

(** The [while] loop and the lines after it. [fuel] bounds the passes;
    [None] is a loop cut short by it. *)
Fixpoint session_loop (fuel : nat) (this : Agent) (taskDescription : JsVal)
  (options : Options W) (st : Loop) : M (St W) (option SessionResult) :=
  if (Z.of_nat (iteration st) <? maxIterations_of options)%Z then
    match fuel with
    | O => ret None
    | S fuel' =>
        r <- session_iteration this taskDescription options st ;;
        match r with
        | inl st' => session_loop fuel' this taskDescription options st'
        | inr result => ret (Some result)
        end
    end
  else
    ret (Some (mkResult false (JStr (max_iterations_message (maxIterations_of options)))
                        (loop_trace st))).

Definition initial_loop : Loop := mkLoop 0 [] JNull None 0.

(** [runTaskSession(taskDescription, context, options)]. The loop makes
    at most [maxIterations] passes, which is the fuel it is given. *)
Definition runTaskSession (this : Agent) (taskDescription context : JsVal)
  (options : Options W) : M (St W) (option SessionResult) :=
  session_loop (Z.to_nat (maxIterations_of options)) this taskDescription options
               initial_loop.

(** *** processMessage and the setters *)

(** The methods below assign fields of [this]: they run on the agent and
    the state together. *)
Definition with_this {A : Type} (f : Agent -> M (St W) A) : M (Agent * St W) A :=
  fun ts => lift_snd (f (fst ts)) ts.

Definition set_history (h : list ChatMsg) : M (Agent * St W) unit :=
  modify (fun ts =>
    ({| apiKey := apiKey (fst ts); model := model (fst ts); baseUrl := baseUrl (fst ts);
        conversationHistory := h; availableTools := availableTools (fst ts) |}, snd ts)).

Definition push_history (m : ChatMsg) : M (Agent * St W) unit :=
  this <- gets fst ;;
  set_history (conversationHistory this ++ [m])%list.

(** The ref resolution of [processMessage] (lines 969-978). *)
Definition resolve_ref_message (this : Agent) (userMessage : JsVal) (parsed : JsObject)
  : M (St W) JsObject :=
  computedRef <- computeRefIfMissing this (lookup_prop "tool" parsed)
                   (js_or (lookup_prop "args" parsed) (JObj [])) userMessage ;;
  if truthy computedRef then
    let args1 := js_or (lookup_prop "args" parsed) (JObj []) in
    match set_prop args1 "ref" (js_or (get_prop args1 "ref") computedRef) with
    | Some args2 =>
        logger LvInfo (LogAgentAutoRef (lookup_prop "tool" parsed) computedRef) ;;
        ret (assign_prop "args" args2 parsed)
    | None =>
        logger LvWarn (LogAgentRefFailed (TypeError_for (AssignProp args1 "ref"))) ;;
        ret (assign_prop "args" args1 parsed)
    end
  else ret parsed.

(** The first bytes of the characters of a text: the values a [for...of]
    over a string gives are as many. *)
Definition code_points (s : string) : nat :=
  length (filter (fun c => negb ((128 <=? nat_of_ascii c)%nat && (nat_of_ascii c <? 192)%nat))
                 (list_ascii_of_string s)).

(** The values [for (const toolCall of tools)] goes through, where [tools]
    is iterable: the items of an array; for a string its characters, of
    which only [toolCall.tool] and [toolCall.args], both undefined, are
    read. *)
Definition iterate (tools : JsVal) : option (list JsVal) :=
  match tools with
  | JArr items _ => Some items
  | JStr s => Some (repeat (JStr "") (code_points s))
  | _ => None
  end.

(** The [chain_tools] loop: the entries pushed to [results]. *)
Fixpoint chain_tools (this : Agent) (calls : list JsVal) : M (St W) (list JsObject) :=
  match calls with
  | [] => ret []
  | toolCall :: rest =>
      match toolCall with
      | JUndefined | JNull => throw (TypeError_for (ReadProp toolCall "tool"))
      | _ =>
          toolResult <- executeTool this (get_prop toolCall "tool")
                          (js_or (get_prop toolCall "args") (JObj [])) ;;
          results <- chain_tools this rest ;;
          ret ([("tool", get_prop toolCall "tool");
                ("success", get_prop toolResult "success");
                ("result", get_prop toolResult "result");
                ("error", get_prop toolResult "error")] :: results)
      end
  end.

Definition result_line (r : JsObject) : string :=
  ToString (lookup_prop "tool" r) +:+ ": " +:+
  (if truthy (lookup_prop "success" r) then "Success"
   else "Failed - " +:+ ToString (lookup_prop "error" r)).

Definition join_lines (ls : list string) : string :=
  match ls with
  | [] => ""
  | l :: rest => fold_left (fun acc x => acc +:+ nl +:+ x) rest l
  end.

(** [processMessage(userMessage, context)], [context] an object. *)
Definition processMessage (userMessage context : JsVal) : M (Agent * St W) JsVal :=
  try_catch
    (push_history (mkChatMsg "user" userMessage) ;;
     let contextInfo :=
       if truthy (get_prop context "currentUrl")
       then nl +:+ nl +:+ "Current page context: The user is on " +:+
            ToString (get_prop context "currentUrl")
       else "" in
     geminiResponse <- with_this (fun this =>
       callGeminiAPI this (ToString userMessage +:+ contextInfo)
                     (slice_last 5 (conversationHistory this))) ;;
     let parsed := parseGeminiResponse geminiResponse in
     finalResponse <-
       (if is_str (lookup_prop "action" parsed) "call_tool" then
          parsed <- with_this (fun this => resolve_ref_message this userMessage parsed) ;;
          toolResult <- with_this (fun this =>
            executeTool this (lookup_prop "tool" parsed)
                        (js_or (lookup_prop "args" parsed) (JObj []))) ;;
          if truthy (get_prop toolResult "success") then
            let resultPrompt :=
              "The tool " +:+ dq +:+ ToString (lookup_prop "tool" parsed) +:+ dq +:+
              " was executed successfully. Result: " +:+
              JSON_stringify (get_prop toolResult "result") +:+
              ". Provide a helpful, user-friendly explanation of what was done." in
            formattedResponse <- with_this (fun this => callGeminiAPI this resultPrompt []) ;;
            ret (JStr formattedResponse)
          else
            ret (JStr ("Failed to execute " +:+ ToString (lookup_prop "tool" parsed) +:+ ": " +:+
                       ToString (get_prop toolResult "error") +:+ ". " +:+
                       ToString (js_or (lookup_prop "reasoning" parsed) (JStr ""))))
        else if is_str (lookup_prop "action" parsed) "chain_tools" then
          match iterate (lookup_prop "tools" parsed) with
          | None => throw (TypeError_for (NotIterable (lookup_prop "tools" parsed)))
          | Some calls =>
              results <- with_this (fun this => chain_tools this calls) ;;
              ret (JStr ("Executed " +:+ pretty (length results) +:+ " tool(s):" +:+ nl +:+
                         join_lines (map result_line results) +:+ nl +:+ nl +:+
                         ToString (js_or (lookup_prop "reasoning" parsed) (JStr ""))))
          end
        else
          ret (js_or (lookup_prop "message" parsed) (JStr geminiResponse))) ;;
     push_history (mkChatMsg "assistant" finalResponse) ;;
     this <- gets fst ;;
     (if (10 <? length (conversationHistory this))%nat
      then set_history (slice_last 10 (conversationHistory this))
      else ret tt) ;;
     ret finalResponse)
    (fun error => lift_snd (logger LvError (LogProcessMessageError error)) ;; throw error).

(** [clearHistory()]. *)
Definition clearHistory (this : Agent) : Agent :=
  {| apiKey := apiKey this; model := model this; baseUrl := baseUrl this;
     conversationHistory := []; availableTools := availableTools this |}.

(** [updateApiKey(apiKey)]. *)
Definition updateApiKey (key : string) (this : Agent) : Agent :=
  {| apiKey := key; model := model this; baseUrl := baseUrl this;
     conversationHistory := conversationHistory this;
     availableTools := availableTools this |}.

(** [setModel(modelName)]. *)
Definition setModel (modelName : JsVal) : M (Agent * St W) unit :=
  let allowed := "gemini-2.5-flash" in
  match modelName with
  | JStr name =>
      if String.eqb name allowed then
        modify (fun ts : Agent * St W =>
          ({| apiKey := apiKey (fst ts); model := name; baseUrl := baseUrl (fst ts);
              conversationHistory := conversationHistory (fst ts);
              availableTools := availableTools (fst ts) |}, snd ts)) ;;
        lift_snd (emit (EvConsole ("[Gemini Agent] Model updated to: " +:+ name)))
      else lift_snd (logger LvWarn (LogSetModelIgnored modelName))
  | _ => lift_snd (logger LvWarn (LogSetModelIgnored modelName))
  end.

End Agent.
End GeminiAgent.

(** ** playwright-cdp-handler.js *)

(** The Playwright library and the engine's [eval] and [Function], as the
    handler calls them. [pw_page ev] is the answer of a page to the call
    [ev] ([goto], [url], [title], [content], [screenshot] (the buffer in
    base64), [click], [fill], [type], [waitForSelector],
    [accessibility.snapshot], [close]), [pw_evaluate] the answer of
    [page.evaluate]. *)
Class PlaywrightEnv (W : Type) : Type := {
  pw_connectOverCDP : string -> W -> Outcome BrowserRef * W;
  pw_contexts : BrowserRef -> W -> Outcome (list ContextRef) * W;
  pw_newContext : BrowserRef -> W -> Outcome ContextRef * W;
  pw_pages : ContextRef -> W -> Outcome (list PageRef) * W;
  pw_newPage : ContextRef -> W -> Outcome PageRef * W;
  pw_page : Event -> W -> Outcome JsVal * W;
  pw_evaluate : PageRef -> EvalArg -> W -> Outcome JsVal * W;
  js_eval : string -> W -> Outcome EvalArg * W;
  js_new_Function : string -> W -> Outcome FuncRef * W;
  js_call : FuncRef -> W -> Outcome EvalArg * W
}.

(** SameValueZero, the equality of the keys of a [Map], on two values
    that are not the same object: objects and arrays are equal only to
    themselves. *)
Definition same_value_zero (a b : JsVal) : bool :=
  match a, b with
  | JUndefined, JUndefined | JNull, JNull => true
  | JBool x, JBool y => Bool.eqb x y
  | JNum x, JNum y =>
      PrimFloat.eqb x y || (negb (PrimFloat.eqb x x) && negb (PrimFloat.eqb y y))
  | JStr x, JStr y => String.eqb x y
  | _, _ => false
  end.

Module PlaywrightCDPHandler.

(** The fields of the handler; [pages] is the [Map], in insertion order. *)
Record t : Type := mk {
  cdpEndpoint : string;
  browser : option BrowserRef;
  context : option ContextRef;
  pages : list (JsVal * PageRef);
  isConnected : bool
}.

(** [constructor(cdpEndpoint = 'http://localhost:9222')]. *)
Definition constructor (endpoint : string) : t :=
  mk endpoint None None [] false.

Definition set_browser (b : option BrowserRef) (h : t) : t :=
  mk (cdpEndpoint h) b (context h) (pages h) (isConnected h).
Definition set_context (c : option ContextRef) (h : t) : t :=
  mk (cdpEndpoint h) (browser h) c (pages h) (isConnected h).
Definition set_pages (ps : list (JsVal * PageRef)) (h : t) : t :=
  mk (cdpEndpoint h) (browser h) (context h) ps (isConnected h).
Definition set_isConnected (b : bool) (h : t) : t :=
  mk (cdpEndpoint h) (browser h) (context h) (pages h) b.

(** [pages.get(key)] *)
Fixpoint pages_get (key : JsVal) (ps : list (JsVal * PageRef)) : option PageRef :=
  match ps with
  | [] => None
  | (k, p) :: ps' => if same_value_zero k key then Some p else pages_get key ps'
  end.

(** [pages.set(key, page)] *)
Fixpoint pages_set (key : JsVal) (page : PageRef) (ps : list (JsVal * PageRef))
  : list (JsVal * PageRef) :=
  match ps with
  | [] => [(key, page)]
  | (k, p) :: ps' =>
      if same_value_zero k key then (k, page) :: ps'
      else (k, p) :: pages_set key page ps'
  end.

(** [pages.delete(key)] *)
Definition pages_delete (key : JsVal) (ps : list (JsVal * PageRef))
  : list (JsVal * PageRef) :=
  filter (fun kp => negb (same_value_zero (fst kp) key)) ps.

Section Handler.
Context {W : Type} {P : PlaywrightEnv W}.

(** The methods run on the handler and the state together. *)
Definition H (A : Type) : Type := M (t * St W) A.

Definition this : H t := gets fst.
Definition update (f : t -> t) : H unit := modify (fun hs => (f (fst hs), snd hs)).
Definition io {A : Type} (ev : Event) (f : W -> Outcome A * W) : H A :=
  lift_snd (perform ev f).
Definition log (lv : LogLevel) (e : LogEntry) : H unit := lift_snd (logger lv e).

(** [existingPages.forEach((page, index) => pages.set(`page-${index}`, page))] *)
Fixpoint index_pages (index : nat) (existing : list PageRef)
  (ps : list (JsVal * PageRef)) : list (JsVal * PageRef) :=
  match existing with
  | [] => ps
  | page :: rest =>
      index_pages (S index) rest (pages_set (JStr ("page-" +:+ pretty index)) page ps)
  end.

(** [connect()]. *)
Definition connect : H bool :=
  try_catch
    (h <- this ;;
     log LvInfo (LogMsg "Connecting to Chrome via CDP: " [JStr (cdpEndpoint h)]) ;;
     b <- io (EvConnectOverCDP (cdpEndpoint h)) (pw_connectOverCDP (cdpEndpoint h)) ;;
     update (set_browser (Some b)) ;;
     contexts <- io (EvContexts b) (pw_contexts b) ;;
     c <- match contexts with
          | c :: _ =>
              update (set_context (Some c)) ;;
              log LvInfo (LogMsg "Connected to existing Chrome context with "
                                 [JStr (pretty (length contexts))]) ;;
              ret c
          | [] =>
              c <- io (EvNewContext b) (pw_newContext b) ;;
              update (set_context (Some c)) ;;
              log LvInfo (LogMsg "Created new browser context" []) ;;
              ret c
          end ;;
     existingPages <- io (EvPages c) (pw_pages c) ;;
     match existingPages with
     | _ :: _ =>
         log LvInfo (LogMsg "Found " [JStr (pretty (length existingPages))]) ;;
         update (fun h => set_pages (index_pages 0 existingPages (pages h)) h)
     | [] =>
         page <- io (EvNewPage c) (pw_newPage c) ;;
         update (fun h => set_pages (pages_set (JStr "page-0") page (pages h)) h) ;;
         log LvInfo (LogMsg "Created new page" [])
     end ;;
     update (set_isConnected true) ;;
     ret true)
    (fun error =>
       log LvError (LogErr "Failed to connect to Chrome via CDP:" error) ;;
       update (set_isConnected false) ;;
       throw error).

(** A parameter [pageId = 'page-0']. *)
Definition page_key (pageId : JsVal) : JsVal :=
  match pageId with
  | JUndefined => JStr "page-0"
  | _ => pageId
  end.

(** [getPage(pageId = 'page-0')]. *)
Definition getPage (pageId : JsVal) : H PageRef :=
  h <- this ;;
  match isConnected h, context h with
  | true, Some c =>
      match pages_get (page_key pageId) (pages h) with
      | Some page => ret page
      | None =>
          page <- io (EvNewPage c) (pw_newPage c) ;;
          update (fun h => set_pages (pages_set (page_key pageId) page (pages h)) h) ;;
          ret page
      end
  | _, _ => throw (Error "Not connected to Chrome. Call connect() first.")
  end.

Definition page_call (ev : Event) : H JsVal := io ev (pw_page ev).

Definition ok_result : JsVal := JObj [("success", JBool true)].

(** A parameter [options = {}]. *)
Definition options_or_empty (options : JsVal) : JsVal :=
  match options with
  | JUndefined => JObj []
  | _ => options
  end.

(** [navigate(url, pageId = 'page-0')]. *)
Definition navigate (url pageId : JsVal) : H JsVal :=
  page <- getPage pageId ;;
  page_call (EvGoto page url) ;;
  u <- page_call (EvUrl page) ;;
  title <- page_call (EvTitle page) ;;
  ret (JObj [("url", u); ("title", title)]).

(** [screenshot(options = {}, pageId = 'page-0')]. *)
Definition screenshot (options pageId : JsVal) : H JsVal :=
  page <- getPage pageId ;;
  page_call (EvScreenshot page (options_or_empty options)).

(** [click(selector, options = {}, pageId = 'page-0')]. *)
Definition click (selector options pageId : JsVal) : H JsVal :=
  page <- getPage pageId ;;
  page_call (EvClick page selector (options_or_empty options)) ;;
  ret ok_result.

(** [fill(selector, text, options = {}, pageId = 'page-0')]. *)
Definition fill (selector text options pageId : JsVal) : H JsVal :=
  page <- getPage pageId ;;
  page_call (EvFill page selector text (options_or_empty options)) ;;
  ret ok_result.

(** [type(selector, text, options = {}, pageId = 'page-0')]. *)
Definition type (selector text options pageId : JsVal) : H JsVal :=
  page <- getPage pageId ;;
  page_call (EvType page selector text (options_or_empty options)) ;;
  ret ok_result.

Definition page_evaluate (page : PageRef) (f : EvalArg) : H JsVal :=
  io (EvEvaluate page f) (pw_evaluate page f).

(** [evaluate(script, pageId = 'page-0')], for a script that came as
    data: a text, or a value that is neither text nor function. *)
Definition evaluate (script pageId : JsVal) : H JsVal :=
  page <- getPage pageId ;;
  match script with
  | JStr src =>
      try_catch
        (func <- io (EvEval ("(" +:+ src +:+ ")")) (js_eval ("(" +:+ src +:+ ")")) ;;
         match func with
         | AFun _ => page_evaluate page func
         | AVal _ =>
             f <- io (EvNewFunction src) (js_new_Function src) ;;
             page_evaluate page (AFun f)
         end)
        (fun e =>
           try_catch
             (f <- io (EvNewFunction ("return " +:+ src)) (js_new_Function ("return " +:+ src)) ;;
              func <- io (EvCallFunction f) (js_call f) ;;
              page_evaluate page func)
             (fun e2 =>
                f <- io (EvNewFunction src) (js_new_Function src) ;;
                page_evaluate page (AFun f)))
  | _ => throw (Error "Invalid script type: expected string or function")
  end.

(** [getContent(pageId = 'page-0')]. *)
Definition getContent (pageId : JsVal) : H JsVal :=
  page <- getPage pageId ;;
  u <- page_call (EvUrl page) ;;
  title <- page_call (EvTitle page) ;;
  content <- page_call (EvContent page) ;;
  ret (JObj [("url", u); ("title", title); ("content", content)]).

(** [waitForSelector(selector, options = {}, pageId = 'page-0')]. *)
Definition waitForSelector (selector options pageId : JsVal) : H JsVal :=
  page <- getPage pageId ;;
  page_call (EvWaitForSelector page selector (options_or_empty options)) ;;
  ret ok_result.

(** [getAccessibilitySnapshot(pageId = 'page-0')]. *)
Definition getAccessibilitySnapshot (pageId : JsVal) : H JsVal :=
  page <- getPage pageId ;;
  page_call (EvAccessibilitySnapshot page).

(** [closePage(pageId)]. *)
Definition closePage (pageId : JsVal) : H JsVal :=
  h <- this ;;
  match pages_get pageId (pages h) with
  | Some page =>
      page_call (EvPageClose page) ;;
      update (fun h => set_pages (pages_delete pageId (pages h)) h) ;;
      ret ok_result
  | None => ret (JObj [("success", JBool false); ("error", JStr "Page not found")])
  end.

(** [disconnect()]. *)
Definition disconnect : H unit :=
  update (set_pages []) ;;
  update (set_context None) ;;
  h <- this ;;
  match browser h with
  | Some _ => update (set_browser None)
  | None => ret tt
  end ;;
  update (set_isConnected false) ;;
  log LvInfo (LogMsg "Disconnected from Chrome (browser remains open)" []).

(** [isConnectedToBrowser()]. *)
Definition isConnectedToBrowser (h : t) : bool :=
  isConnected h && match browser h with Some _ => true | None => false end.

End Handler.
End PlaywrightCDPHandler.

(** ** mcp-bridge-server.js *)

(** The variables of [process.env] the bridge reads. *)
Record ProcessEnv : Type := mkProcessEnv {
  CHROME_CDP_ENDPOINT : option string;
  USE_EXISTING_BROWSER : option string;
  GEMINI_API_KEY : option string
}.

(** A record of the session store. A field a record does not have yet is
    [None]. *)
Record Session : Type := mkSession {
  id : string;
  status : string;
  session_message : option JsVal;
  session_trace : list Step;
  lastAction : option JsObject;
  session_lastToolResult : option JsVal;
  result : option SessionResult;
  error : option string;
  lastUpdate : string
}.

(** The [patch] of [updateSession]: the fields it names. *)
Record Patch : Type := mkPatch {
  p_status : option string;
  p_message : option JsVal;
  p_trace : option (list Step);
  p_lastAction : option JsObject;
  p_lastToolResult : option JsVal;
  p_result : option SessionResult;
  p_error : option string
}.

Definition no_patch : Patch := mkPatch None None None None None None None.

(** The module-level variables of the server, with the outside [X] and
    the environment it was started in. *)
Record Bridge (X : Type) : Type := mkBridge {
  ext : X;
  env : ProcessEnv;
  mcpClient : bool;       (* mcpClient !== null *)
  mcpTransport : bool;
  isConnected : bool;
  geminiAgent : option Agent;
  playwrightCDP : option PlaywrightCDPHandler.t;
  sessions : gmap string Session
}.
Arguments mkBridge {X}.
Arguments ext {X} b.
Arguments env {X} b.
Arguments mcpClient {X} b.
Arguments mcpTransport {X} b.
Arguments isConnected {X} b.
Arguments geminiAgent {X} b.
Arguments playwrightCDP {X} b.
Arguments sessions {X} b.

(** The outside of the server: [fetch] (the [ok] flag of the response)
    and [response.json()], the MCP client of the subprocess, the planning
    service, and the sources of identifiers and dates. *)
Class ServerEnv (X : Type) : Type := {
  fetch_ok : string -> Z -> X -> Outcome bool * X;
  response_json : string -> X -> Outcome JsVal * X;
  mcp_connect : X -> Outcome unit * X;
  mcp_listTools : X -> Outcome (option (list Tool)) * X;
  mcp_callTool : JsVal -> JsVal -> X -> Outcome JsVal * X;
  mcp_close : X -> Outcome unit * X;
  gemini : Agent -> string -> list ChatMsg -> X -> Outcome string * X;
  randomUUID : X -> Outcome string * X;
  date_toISOString : X -> Outcome string * X
}.

(** The body of a request to [/gemini/chat] and [/gemini/run-session]:
    [options] with its [maxIterations], an integer when present, and
    whether its [runSession] is truthy. *)
Record RequestOptions : Type := mkRequestOptions {
  req_maxIterations : option Z;
  req_runSession : bool
}.

Record ChatRequest : Type := mkChatRequest {
  req_message : JsVal;
  req_context : JsVal;
  req_options : option RequestOptions;
  req_autoSession : JsVal
}.

(** What a handler sends back. *)
Inductive Body : Type :=
| BodySuccess (ok : bool)
| BodyError (msg : string)
| BodyResult (result : JsVal)
| BodyMessage (msg : string)
| BodySessionId (sessionId : string)
| BodySession (session : option SessionResult)
| BodySessionRecord (session : Session)
| BodyResponse (response : JsVal).

Record Reply : Type := mkReply { http_status : nat; body : Body }.

Module Server.
Section Server.
Context {X : Type} {B : Builtins} {SE : ServerEnv X} {PE : PlaywrightEnv X}.

Definition S : Type := St (Bridge X).

(** A call to the outside changes [ext] alone. *)
Definition on_ext {A : Type} (f : X -> Outcome A * X) (b : Bridge X)
  : Outcome A * Bridge X :=
  let '(r, x') := f (ext b) in
  (r, mkBridge x' (env b) (mcpClient b) (mcpTransport b) (isConnected b)
               (geminiAgent b) (playwrightCDP b) (sessions b)).

Definition set_mcpClient (v : bool) (b : Bridge X) : Bridge X :=
  mkBridge (ext b) (env b) v (mcpTransport b) (isConnected b)
           (geminiAgent b) (playwrightCDP b) (sessions b).
Definition set_mcpTransport (v : bool) (b : Bridge X) : Bridge X :=
  mkBridge (ext b) (env b) (mcpClient b) v (isConnected b)
           (geminiAgent b) (playwrightCDP b) (sessions b).
Definition set_isConnected (v : bool) (b : Bridge X) : Bridge X :=
  mkBridge (ext b) (env b) (mcpClient b) (mcpTransport b) v
           (geminiAgent b) (playwrightCDP b) (sessions b).
Definition set_geminiAgent (v : option Agent) (b : Bridge X) : Bridge X :=
  mkBridge (ext b) (env b) (mcpClient b) (mcpTransport b) (isConnected b)
           v (playwrightCDP b) (sessions b).
Definition set_playwrightCDP (v : option PlaywrightCDPHandler.t) (b : Bridge X) : Bridge X :=
  mkBridge (ext b) (env b) (mcpClient b) (mcpTransport b) (isConnected b)
           (geminiAgent b) v (sessions b).
Definition set_sessions (v : gmap string Session) (b : Bridge X) : Bridge X :=
  mkBridge (ext b) (env b) (mcpClient b) (mcpTransport b) (isConnected b)
           (geminiAgent b) (playwrightCDP b) v.

Definition global {A : Type} (f : Bridge X -> A) : M S A := gets (fun s => f (world s)).
Definition assign (f : Bridge X -> Bridge X) : M S unit :=
  modify (fun s => mkSt (f (world s)) (events s)).
Definition call {A : Type} (ev : Event) (f : X -> Outcome A * X) : M S A :=
  perform ev (on_ext f).

#[local] Instance playwright_of_bridge : PlaywrightEnv (Bridge X) := {|
  pw_connectOverCDP e := on_ext (pw_connectOverCDP e);
  pw_contexts b := on_ext (pw_contexts b);
  pw_newContext b := on_ext (pw_newContext b);
  pw_pages c := on_ext (pw_pages c);
  pw_newPage c := on_ext (pw_newPage c);
  pw_page ev := on_ext (pw_page ev);
  pw_evaluate p f := on_ext (pw_evaluate p f);
  js_eval src := on_ext (js_eval src);
  js_new_Function src := on_ext (js_new_Function src);
  js_call f := on_ext (js_call f)
|}.

(** A method of the handler [h], the object [playwrightCDP] refers to:
    what the method leaves of [h] is what the variable then refers to. *)
Definition on_handler {A : Type} (h : PlaywrightCDPHandler.t)
  (m : M (PlaywrightCDPHandler.t * S) A) : M S A :=
  fun s =>
    let '(r, (h', s')) := m (h, s) in
    (r, mkSt (set_playwrightCDP (Some h') (world s')) (events s')).

(** *** findChromeCDPEndpoint *)

Definition possiblePorts : list Z := [9222; 9223; 9224; 9225]%Z.

Definition version_url (port : Z) : string :=
  "http://localhost:" +:+ pretty port +:+ "/json/version".

(** The [for] loop of [findChromeCDPEndpoint] over the ports left. *)
Fixpoint probe_ports (ports : list Z) : M S (option string) :=
  match ports with
  | [] => ret None
  | port :: rest =>
      found <- try_catch
        (ok <- call (EvFetch (version_url port) 500) (fetch_ok (version_url port) 500) ;;
         if ok then
           call (EvResponseJson (version_url port)) (response_json (version_url port)) ;;
           logger LvInfo (LogMsg "Found Chrome CDP endpoint on port " [JStr (pretty port)]) ;;
           ret (Some ("http://localhost:" +:+ pretty port))
         else ret None)
        (fun e => ret None) ;;
      match found with
      | Some endpoint => ret (Some endpoint)
      | None => probe_ports rest
      end
  end.

(** [findChromeCDPEndpoint()]. *)
Definition findChromeCDPEndpoint : M S (option string) := probe_ports possiblePorts.

(** *** createMCPClientWrapper *)

Definition browserTools : list string :=
  ["browser_navigate"; "browser_goto"; "playwright_navigate"; "playwright_goto";
   "browser_screenshot"; "playwright_screenshot";
   "browser_click"; "playwright_click";
   "browser_fill"; "browser_type"; "playwright_fill"; "playwright_type";
   "browser_evaluate"; "playwright_evaluate";
   "browser_accessibility_snapshot"; "playwright_accessibility_snapshot";
   "browser_wait_for"; "playwright_wait_for"].

(** [toolName.includes(word)]: the search of a text, the membership of
    an array; other values have no such method. *)
Definition has_includes (toolName : JsVal) : bool :=
  match toolName with
  | JStr _ | JArr _ _ => true
  | _ => false
  end.

Definition name_includes (toolName : JsVal) (word : string) : bool :=
  match toolName with
  | JStr n => includes n word
  | JArr items _ => existsb (fun v => is_str v word) items
  | _ => false
  end.

(** [word.includes(toolName)]: the name is searched for as a text. *)
Definition word_includes (word : string) (toolName : JsVal) : bool :=
  match toolName with
  | JStr n => includes word n
  | _ => includes word (ToString toolName)
  end.

(** [browserTools.some(tool => toolName.includes(tool) || tool.includes(toolName))] *)
Definition is_browser_tool (toolName : JsVal) : bool :=
  existsb (fun tool => name_includes toolName tool || word_includes tool toolName)
          browserTools.

(** The chain of lines 122-141, and of lines 359-379, which is the same
    but for the text of the last error. *)
Definition cdp_route (h : PlaywrightCDPHandler.t) (toolName args : JsVal)
  (unhandled : string) : M S JsVal :=
  let target := js_or (get_prop args "selector") (get_prop args "ref") in
  let pageId := get_prop args "pageId" in
  if name_includes toolName "navigate" || name_includes toolName "goto" then
    on_handler h (PlaywrightCDPHandler.navigate
                    (js_or (get_prop args "url") (get_prop args "href")) pageId)
  else if name_includes toolName "screenshot" then
    screenshot <- on_handler h (PlaywrightCDPHandler.screenshot args pageId) ;;
    ret (JObj [("screenshot", screenshot); ("format", JStr "base64")])
  else if name_includes toolName "click" then
    on_handler h (PlaywrightCDPHandler.click target args pageId)
  else if name_includes toolName "fill" then
    on_handler h (PlaywrightCDPHandler.fill target
                    (js_or (get_prop args "text") (get_prop args "value")) args pageId)
  else if name_includes toolName "type" then
    on_handler h (PlaywrightCDPHandler.type target (get_prop args "text") args pageId)
  else if name_includes toolName "evaluate" then
    on_handler h (PlaywrightCDPHandler.evaluate
                    (js_or (get_prop args "function") (get_prop args "script")) pageId)
  else if name_includes toolName "accessibility" || name_includes toolName "snapshot" then
    on_handler h (PlaywrightCDPHandler.getAccessibilitySnapshot pageId)
  else if name_includes toolName "wait" then
    on_handler h (PlaywrightCDPHandler.waitForSelector target args pageId)
  else throw (Error unhandled).

(** The handler [playwrightCDP] refers to, when it is connected. *)
Definition connected_handler : M S (option PlaywrightCDPHandler.t) :=
  cdp <- global playwrightCDP ;;
  match cdp with
  | Some h => if PlaywrightCDPHandler.isConnectedToBrowser h then ret (Some h) else ret None
  | None => ret None
  end.

Definition request_of (name arguments : JsVal) : JsVal :=
  JObj [("name", name); ("arguments", arguments)].

(** The [listTools] of the wrapper. *)
Definition wrapper_listTools : M S (list Tool) :=
  client <- global mcpClient ;;
  if negb client then throw (Error "MCP client not connected")
  else
    tools <- call EvMcpListTools mcp_listTools ;;
    ret (default [] tools).

(** The MCP branch of the wrapper's [callTool] (lines 151-157). *)
Definition wrapper_mcp (name arguments : JsVal) : M S JsVal :=
  client <- global mcpClient ;;
  if negb client then throw (Error "MCP client not connected")
  else
    resp <- call (EvMcpCallTool name arguments) (mcp_callTool name arguments) ;;
    logger LvDebug (LogMsg "Gemini->MCP callTool result" [resp]) ;;
    ret resp.

(** The [callTool] of the wrapper, on the request
    [{ name, arguments }]. *)
Definition wrapper_callTool (name arguments : JsVal) : M S JsVal :=
  logger LvInfo (LogMsg "Gemini->MCP callTool" [request_of name arguments]) ;;
  cdp <- connected_handler ;;
  match cdp with
  | Some h =>
      let toolName := name in
      let args := js_or arguments (JObj []) in
      if negb (has_includes toolName) then
        throw (TypeError_for (CallMethod toolName "includes"))
      else if is_browser_tool toolName then
        handled <- try_catch
          (logger LvInfo (LogMsg "Gemini->CDP callTool: " [toolName]) ;;
           result <- cdp_route h toolName args "Tool not handled by CDP" ;;
           logger LvDebug (LogMsg "Gemini->CDP callTool result" [result]) ;;
           ret (Some result))
          (fun cdpError =>
             logger LvWarn (LogErr "CDP handler failed for " cdpError) ;;
             ret None) ;;
        match handled with
        | Some result => ret result
        | None => wrapper_mcp name arguments
        end
      else wrapper_mcp name arguments
  | None => wrapper_mcp name arguments
  end.

(** The agent is given the wrapper as its [mcpClient]. *)
#[local] Instance agent_env : AgentEnv (Bridge X) := {|
  gemini_request a prompt ctx := on_ext (gemini a prompt ctx);
  mcpClient_listTools := wrapper_listTools;
  mcpClient_callTool := wrapper_callTool
|}.

(** *** The session store *)

(** [makeSession()]. *)
Definition makeSession : M S string :=
  sid <- call EvRandomUUID randomUUID ;;
  now <- call EvDate date_toISOString ;;
  assign (fun b => set_sessions
            (<[sid := mkSession sid "created" None [] None None None None now]> (sessions b)) b) ;;
  ret sid.

(** [Object.assign(session, patch, { lastUpdate: now })]. *)
Definition apply_patch (s : Session) (patch : Patch) (now : string) : Session :=
  {| id := id s;
     status := default (status s) (p_status patch);
     session_message := match p_message patch with Some v => Some v | None => session_message s end;
     session_trace := default (session_trace s) (p_trace patch);
     lastAction := match p_lastAction patch with Some v => Some v | None => lastAction s end;
     session_lastToolResult :=
       match p_lastToolResult patch with Some v => Some v | None => session_lastToolResult s end;
     result := match p_result patch with Some v => Some v | None => result s end;
     error := match p_error patch with Some v => Some v | None => error s end;
     lastUpdate := now |}.

(** [updateSession(id, patch)]. *)
Definition updateSession (sid : string) (patch : Patch) : M S unit :=
  store <- global sessions ;;
  match store !! sid with
  | None => ret tt
  | Some s =>
      now <- call EvDate date_toISOString ;;
      assign (fun b => set_sessions (<[sid := apply_patch s patch now]> (sessions b)) b)
  end.

(** *** connectToMCP *)

(** [new GeminiAgent(envKey, wrapper)] and [initialize()], when
    [GEMINI_API_KEY] is set and there is no agent yet (lines 260-272). *)
Definition auto_initialize : M S unit :=
  try_catch
    (envKey <- global (fun b => GEMINI_API_KEY (env b)) ;;
     agent <- global geminiAgent ;;
     match envKey, agent with
     | Some key, None =>
         if String.eqb key "" then ret tt
         else
           logger LvInfo (LogMsg "Auto-initializing Gemini agent from GEMINI_API_KEY environment variable" []) ;;
           assign (set_geminiAgent (Some (GeminiAgent.constructor key))) ;;
           r <- GeminiAgent.initialize (GeminiAgent.constructor key) ;;
           assign (set_geminiAgent (Some (snd r))) ;;
           if fst r
           then logger LvInfo (LogMsg "Gemini agent initialized from environment variable" [])
           else logger LvWarn (LogMsg "Gemini agent failed to initialize from GEMINI_API_KEY" [])
     | _, _ => ret tt
     end)
    (fun e => logger LvWarn (LogErr "Failed to auto-initialize Gemini agent from env:" e)).

(** The search for a running Chrome (lines 184-213): the endpoint kept. *)
Definition attach_existing_browser : M S (option string) :=
  logger LvInfo (LogMsg "Searching for Chrome CDP endpoint..." []) ;;
  cdpEndpoint <- findChromeCDPEndpoint ;;
  match cdpEndpoint with
  | Some endpoint =>
      try_catch
        (assign (set_playwrightCDP (Some (PlaywrightCDPHandler.constructor endpoint))) ;;
         on_handler (PlaywrightCDPHandler.constructor endpoint) PlaywrightCDPHandler.connect ;;
         logger LvInfo (LogMsg "Connected to existing Chrome via CDP" []) ;;
         logger LvInfo (LogMsg "Will use existing Chrome profile for browser operations" []) ;;
         logger LvInfo (LogMsg "Connecting to Playwright MCP server for tool definitions..." []) ;;
         ret (Some endpoint))
        (fun cdpError =>
           logger LvWarn (LogErr "Failed to connect via CDP:" cdpError) ;;
           logger LvWarn (LogMsg "   Falling back to MCP server (will launch new browser)..." []) ;;
           assign (set_playwrightCDP None) ;;
           ret None)
  | None =>
      logger LvWarn (LogMsg "Chrome remote debugging not found. Make sure Chrome is running with:" []) ;;
      logger LvWarn (LogMsg "   macOS: /Applications/Google\ Chrome.app/Contents/MacOS/Google\ Chrome --remote-debugging-port=9222" []) ;;
      logger LvWarn (LogMsg "   Linux: google-chrome --remote-debugging-port=9222" []) ;;
      logger LvWarn (LogMsg "   Windows: chrome.exe --remote-debugging-port=9222" []) ;;
      logger LvWarn (LogMsg "   Or set CHROME_CDP_ENDPOINT environment variable" []) ;;
      logger LvWarn (LogMsg "   Falling back to MCP server (will launch new browser)..." []) ;;
      assign (set_playwrightCDP None) ;;
      ret None
  end.

(** [connectToMCP()] (the pictographs of the messages left out). *)
Definition connectToMCP : M S bool :=
  connected <- global isConnected ;;
  client <- global mcpClient ;;
  if connected && client then ret true
  else
    try_catch
      (useExisting <- global (fun b =>
         negb (match USE_EXISTING_BROWSER (env b) with
               | Some v => String.eqb v "false"
               | None => false
               end)) ;;
       fromEnv <- global (fun b => CHROME_CDP_ENDPOINT (env b)) ;;
       cdpEndpoint <- (if useExisting then attach_existing_browser else ret fromEnv) ;;
       cdp <- global playwrightCDP ;;
       match cdp with
       | None => logger LvInfo (LogMsg "Playwright MCP will launch a new browser instance" [])
       | Some _ => ret tt
       end ;;
       assign (set_mcpTransport true) ;;
       assign (set_mcpClient true) ;;
       call EvMcpConnect mcp_connect ;;
       assign (set_isConnected true) ;;
       logger LvInfo (LogMsg "Connected to Playwright MCP server" []) ;;
       (if useExisting && match cdpEndpoint with
                          | Some e => negb (String.eqb e "")
                          | None => false
                          end
        then
          logger LvInfo (LogMsg "Tip: If Playwright still launches a new browser, the MCP server may need" []) ;;
          logger LvInfo (LogMsg "   additional configuration. See CHROME_CDP_SETUP.md for details." [])
        else ret tt) ;;
       auto_initialize ;;
       ret true)
      (fun error =>
         logger LvError (LogErr "Failed to connect to Playwright MCP server:" error) ;;
         assign (set_isConnected false) ;;
         assign (set_mcpClient false) ;;
         assign (set_mcpTransport false) ;;
         ret false).

(** *** The handlers *)

(** [app.post('/mcp/connect')]. *)
Definition post_mcp_connect : M S Reply :=
  try_catch
    (connected <- connectToMCP ;;
     ret (mkReply 200 (BodySuccess connected)))
    (fun error => ret (mkReply 500 (BodyError (err_message error)))).

(** [app.post('/mcp/tools/:toolName')], on a request whose body has
    [args] as its [args]. *)
Definition post_mcp_tools (toolName : string) (body_args : JsVal) : M S Reply :=
  try_catch
    (let args := js_or body_args (JObj []) in
     logger LvInfo (LogMsg "MCP call requested: " [JStr toolName; args]) ;;
     cdp <- connected_handler ;;
     handled <-
       match cdp with
       | Some h =>
           if is_browser_tool (JStr toolName) then
             try_catch
               (logger LvInfo (LogMsg "Using CDP handler for: " [JStr toolName]) ;;
                result <- cdp_route h (JStr toolName) args
                            "Tool not handled by CDP, using MCP server" ;;
                logger LvDebug (LogMsg "CDP call result: " [JStr toolName; result]) ;;
                ret (Some result))
               (fun cdpError =>
                  logger LvWarn (LogErr "CDP handler failed for " cdpError) ;;
                  ret None)
           else ret None
       | None => ret None
       end ;;
     match handled with
     | Some result => ret (mkReply 200 (BodyResult result))
     | None =>
         connected <- global isConnected ;;
         (if negb connected then connectToMCP ;; ret tt else ret tt) ;;
         connected <- global isConnected ;;
         client <- global mcpClient ;;
         if negb connected || negb client
         then ret (mkReply 500 (BodyError "Not connected to MCP server"))
         else
           response <- call (EvMcpCallTool (JStr toolName) args)
                            (mcp_callTool (JStr toolName) args) ;;
           logger LvDebug (LogMsg "MCP call result: " [JStr toolName; response]) ;;
           ret (mkReply 200 (BodyResult response))
     end)
    (fun error =>
       logger LvError (LogErr "Error calling tool:" error) ;;
       ret (mkReply 500 (BodyError (err_message error)))).

(** [app.post('/mcp/disconnect')]. *)
Definition post_mcp_disconnect : M S Reply :=
  try_catch
    (cdp <- connected_handler ;;
     match cdp with
     | Some h => on_handler h PlaywrightCDPHandler.disconnect
     | None => ret tt
     end ;;
     assign (set_playwrightCDP None) ;;
     client <- global mcpClient ;;
     (if client then call EvMcpClose mcp_close else ret tt) ;;
     assign (set_mcpClient false) ;;
     assign (set_mcpTransport false) ;;
     assign (set_isConnected false) ;;
     assign (set_geminiAgent None) ;;
     ret (mkReply 200 (BodySuccess true)))
    (fun error => ret (mkReply 500 (BodyError (err_message error)))).

(** The task [/gemini/chat] starts and does not wait for (lines
    493-508), on the agent [geminiAgent] refers to. [None] of
    [runTaskSession] is a loop cut short by its fuel. *)
Definition background_session (agent : Agent) (sessionId : string)
  (message context : JsVal) (options : option RequestOptions) : M S unit :=
  try_catch
    (updateSession sessionId
       (mkPatch (Some "running") (Some message) None None None None None) ;;
     let runOptions :=
       mkOptions
         (match options with Some o => req_maxIterations o | None => None end)
         (Some (fun update : Update =>
            updateSession sessionId
              (mkPatch (Some (u_status update)) None (Some (u_trace update))
                       (Some (u_action update)) (Some (u_toolResult update)) None None))) in
     r <- GeminiAgent.runTaskSession agent message (js_or context (JObj [])) runOptions ;;
     match r with
     | Some sessionResult =>
         updateSession sessionId
           (mkPatch (Some "finished") None (Some (trace sessionResult)) None None
                    (Some sessionResult) None)
     | None => ret tt
     end)
    (fun e =>
       updateSession sessionId
         (mkPatch (Some "error") None None None None None
                  (Some (GeminiAgent.error_text e)))).

(** The white space [trim] removes, as the first bytes of a text: how
    many bytes it takes, or nothing. *)
Definition white_space (s : string) : option nat :=
  match map nat_of_ascii (list_ascii_of_string s) with
  | c :: rest =>
      if ((9 <=? c) && (c <=? 13) || (c =? 32))%nat then Some 1%nat
      else match c, rest with
           | 194, 160 :: _ => Some 2%nat
           | 225, 154 :: 128 :: _ => Some 3%nat
           | 226, 128 :: d :: _ =>
               if ((128 <=? d) && (d <=? 138) || (d =? 168) || (d =? 169) || (d =? 175))%nat
               then Some 3%nat else None
           | 226, 129 :: 159 :: _ => Some 3%nat
           | 227, 128 :: 128 :: _ => Some 3%nat
           | 239, 187 :: 191 :: _ => Some 3%nat
           | _, _ => None
           end
  | [] => None
  end.

(** [s.trim() === ''] *)
Fixpoint is_blank_fuel (fuel : nat) (s : string) : bool :=
  match s with
  | EmptyString => true
  | _ =>
      match fuel, white_space s with
      | Datatypes.S fuel', Some n =>
          is_blank_fuel fuel' (String.substring n (String.length s - n) s)
      | _, _ => false
      end
  end.

Definition is_blank (s : string) : bool := is_blank_fuel (String.length s) s.

Definition empty_response_text : string :=
  "I received your message, but the response was empty. Please try again or check if the Gemini API is configured correctly.".

(** A method that assigns fields of the agent [geminiAgent] refers to. *)
Definition on_agent {A : Type} (agent : Agent) (m : M (Agent * S) A) : M S A :=
  fun s =>
    let '(r, (agent', s')) := m (agent, s) in
    (r, mkSt (set_geminiAgent (Some agent') (world s')) (events s')).

(** [app.post('/gemini/chat')]: the reply, and the task started in the
    background, if any. *)
Definition post_gemini_chat (req : ChatRequest) : M S (Reply * option (M S unit)) :=
  try_catch
    (agent <- global geminiAgent ;;
     if negb (truthy (req_message req)) then
       ret (mkReply 400 (BodyError "Message is required"), None)
     else
       match agent with
       | None =>
           ret (mkReply 400 (BodyError "Gemini agent not initialized. Please initialize with API key first."), None)
       | Some agent =>
           let wantsSession :=
             truthy (req_autoSession req) ||
             match req_options req with Some o => req_runSession o | None => false end in
           if wantsSession then
             logger LvInfo (LogMsg "Received chat request with autoSession/runSession, starting background session"
                                   [JObj [("message", req_message req)]]) ;;
             sessionId <- makeSession ;;
             ret (mkReply 200 (BodySessionId sessionId),
                  Some (background_session agent sessionId (req_message req)
                          (req_context req) (req_options req)))
           else
             response <- on_agent agent
               (GeminiAgent.processMessage (req_message req) (js_or (req_context req) (JObj []))) ;;
             if negb (truthy response) || match response with JStr t => is_blank t | _ => false end
             then
               logger LvWarn (LogMsg "[Bridge Server] Empty response from Gemini agent, using fallback" []) ;;
               ret (mkReply 200 (BodyResponse (JStr empty_response_text)), None)
             else ret (mkReply 200 (BodyResponse response), None)
       end)
    (fun error =>
       logger LvError (LogErr "Error in Gemini chat:" error) ;;
       ret (mkReply 500 (BodyError (err_message error)), None)).

(** [app.get('/gemini/session/:id')], for an [id] that is no member of
    [Object.prototype]. *)
Definition get_gemini_session (sid : string) : M S Reply :=
  store <- global sessions ;;
  match store !! sid with
  | None => ret (mkReply 404 (BodyError "session not found"))
  | Some s => ret (mkReply 200 (BodySessionRecord s))
  end.

(** [app.post('/gemini/run-session')]. *)
Definition post_gemini_run_session (task context : JsVal) (options : option RequestOptions)
  : M S Reply :=
  try_catch
    (agent <- global geminiAgent ;;
     if negb (truthy task) then ret (mkReply 400 (BodyError "task is required"))
     else
       match agent with
       | None => ret (mkReply 400 (BodyError "Gemini agent not initialized"))
       | Some agent =>
           logger LvInfo (LogMsg "Starting run-session for task" [JObj [("task", task)]]) ;;
           r <- GeminiAgent.runTaskSession agent task (js_or context (JObj []))
                  (mkOptions (match options with Some o => req_maxIterations o | None => None end)
                             None) ;;
           ret (mkReply 200 (BodySession r))
       end)
    (fun error =>
       logger LvError (LogErr "Error running session:" error) ;;
       ret (mkReply 500 (BodyError (err_message error)))).

(** *** The other handlers *)

(** The lines that make the connection when there is none, and tell
    whether there is one then (lines 318-323, 448-454, 580-585). *)
Definition ensure_connected : M S bool :=
  connected <- global isConnected ;;
  (if negb connected then connectToMCP ;; ret tt else ret tt) ;;
  connected <- global isConnected ;;
  client <- global mcpClient ;;
  ret (connected && client).

(** [app.get('/mcp/tools')]: the tools of the reply that has some, or
    the reply. *)
Definition get_mcp_tools : M S (Reply + list Tool) :=
  try_catch
    (ok <- ensure_connected ;;
     if negb ok then ret (inl (mkReply 500 (BodyError "Not connected to MCP server")))
     else
       tools <- call EvMcpListTools mcp_listTools ;;
       ret (inr (default [] tools)))
    (fun error =>
       logger LvError (LogErr "Error listing tools:" error) ;;
       ret (inl (mkReply 500 (BodyError (err_message error))))).

(** [new GeminiAgent(apiKey, wrapper)] and [initialize()] (lines 457-461
    and 587-589): whether the agent was initialized. The agent keeps the
    key as the text it puts into the address of its requests. *)
Definition install_agent (apiKey : JsVal) : M S bool :=
  let agent := GeminiAgent.constructor (ToString apiKey) in
  assign (set_geminiAgent (Some agent)) ;;
  r <- GeminiAgent.initialize agent ;;
  assign (set_geminiAgent (Some (snd r))) ;;
  ret (fst r).

(** [app.post('/gemini/initialize')], on a request whose body has
    [apiKey] as its [apiKey]. *)
Definition post_gemini_initialize (apiKey : JsVal) : M S Reply :=
  try_catch
    (if negb (truthy apiKey) then ret (mkReply 400 (BodyError "API key is required"))
     else
       ok <- ensure_connected ;;
       if negb ok then ret (mkReply 500 (BodyError "MCP server not connected"))
       else
         initialized <- install_agent apiKey ;;
         if initialized then ret (mkReply 200 (BodyMessage "Gemini agent initialized"))
         else ret (mkReply 500 (BodyError "Failed to initialize Gemini agent")))
    (fun error => ret (mkReply 500 (BodyError (err_message error)))).

(** [app.post('/gemini/clear')]. Without an agent the reply has
    [success: false] and the status 200. *)
Definition post_gemini_clear : M S Reply :=
  try_catch
    (agent <- global geminiAgent ;;
     match agent with
     | Some agent =>
         assign (set_geminiAgent (Some (GeminiAgent.clearHistory agent))) ;;
         ret (mkReply 200 (BodyMessage "Conversation history cleared"))
     | None => ret (mkReply 200 (BodyError "Gemini agent not initialized"))
     end)
    (fun error => ret (mkReply 500 (BodyError (err_message error)))).

(** [app.post('/gemini/update-api-key')], on a request whose body has
    [apiKey] as its [apiKey]. *)
Definition post_gemini_update_api_key (apiKey : JsVal) : M S Reply :=
  try_catch
    (if negb (truthy apiKey) then ret (mkReply 400 (BodyError "API key is required"))
     else
       agent <- global geminiAgent ;;
       match agent with
       | None =>
           ok <- ensure_connected ;;
           if negb ok then ret (mkReply 500 (BodyError "MCP server not connected"))
           else
             install_agent apiKey ;;
             ret (mkReply 200 (BodyMessage "API key updated"))
       | Some agent =>
           assign (set_geminiAgent
                     (Some (GeminiAgent.updateApiKey (ToString apiKey) agent))) ;;
           ret (mkReply 200 (BodyMessage "API key updated"))
       end)
    (fun error => ret (mkReply 500 (BodyError (err_message error)))).

End Server.
End Server.

(** * An environment to run the program in *)

(** Stand-ins for the built-ins and for the outside, on which the
    examples below run the definitions above. The built-ins cover the
    JSON texts that hold no numbers and no escapes. *)
Module Script.

Definition is_ws (c : ascii) : bool :=
  existsb (Nat.eqb (nat_of_ascii c)) [32; 9; 10; 13]%nat.

Fixpoint skip_ws (cs : list ascii) : list ascii :=
  match cs with
  | c :: r => if is_ws c then skip_ws r else cs
  | [] => []
  end.

(** The characters up to the closing quote. *)
Fixpoint take_string (cs : list ascii) : option (string * list ascii) :=
  match cs with
  | [] => None
  | c :: r =>
      if Ascii.eqb c (ascii_of_nat 34) then Some ("", r)
      else if Ascii.eqb c (ascii_of_nat 92) then None
      else match take_string r with
           | Some (s, r') => Some (String c s, r')
           | None => None
           end
  end.

Definition expect (word : string) (v : JsVal) (cs : list ascii)
  : option (JsVal * list ascii) :=
  let w := list_ascii_of_string word in
  if String.eqb (string_of_list_ascii (firstn (length w) cs)) word
  then Some (v, skipn (length w) cs) else None.

Fixpoint parse_value (fuel : nat) (cs : list ascii) {struct fuel}
  : option (JsVal * list ascii) :=
  match fuel with
  | O => None
  | Datatypes.S f =>
      match skip_ws cs with
      | [] => None
      | c :: r =>
          if Ascii.eqb c "{" then
            match skip_ws r with
            | c' :: r' => if Ascii.eqb c' "}" then Some (JObj [], r')
                          else parse_members f r []
            | [] => None
            end
          else if Ascii.eqb c "[" then
            match skip_ws r with
            | c' :: r' => if Ascii.eqb c' "]" then Some (JArr [] [], r')
                          else parse_items f r []
            | [] => None
            end
          else if Ascii.eqb c (ascii_of_nat 34) then
            match take_string r with
            | Some (s, r') => Some (JStr s, r')
            | None => None
            end
          else if Ascii.eqb c "t" then expect "true" (JBool true) (c :: r)
          else if Ascii.eqb c "f" then expect "false" (JBool false) (c :: r)
          else if Ascii.eqb c "n" then expect "null" JNull (c :: r)
          else None
      end
  end
with parse_members (fuel : nat) (cs : list ascii) (acc : JsObject) {struct fuel}
  : option (JsVal * list ascii) :=
  match fuel with
  | O => None
  | Datatypes.S f =>
      match skip_ws cs with
      | c :: r =>
          if Ascii.eqb c (ascii_of_nat 34) then
            match take_string r with
            | Some (k, r1) =>
                match skip_ws r1 with
                | c1 :: r2 =>
                    if Ascii.eqb c1 ":" then
                      match parse_value f r2 with
                      | Some (v, r3) =>
                          match skip_ws r3 with
                          | c3 :: r4 =>
                              if Ascii.eqb c3 "," then parse_members f r4 (assign_prop k v acc)
                              else if Ascii.eqb c3 "}" then Some (JObj (assign_prop k v acc), r4)
                              else None
                          | [] => None
                          end
                      | None => None
                      end
                    else None
                | [] => None
                end
            | None => None
            end
          else None
      | [] => None
      end
  end
with parse_items (fuel : nat) (cs : list ascii) (acc : list JsVal) {struct fuel}
  : option (JsVal * list ascii) :=
  match fuel with
  | O => None
  | Datatypes.S f =>
      match parse_value f cs with
      | Some (v, r) =>
          match skip_ws r with
          | c :: r' =>
              if Ascii.eqb c "," then parse_items f r' (acc ++ [v])%list
              else if Ascii.eqb c "]" then Some (JArr (acc ++ [v])%list [], r')
              else None
          | [] => None
          end
      | None => None
      end
  end.

Definition parse_object (s : string) : option JsObject :=
  match parse_value (Datatypes.S (String.length s)) (list_ascii_of_string s) with
  | Some (JObj o, rest) =>
      match skip_ws rest with
      | [] => Some o
      | _ => None
      end
  | _ => None
  end.

Definition join (sep : string) (parts : list string) : string :=
  match parts with
  | [] => ""
  | x :: rest => fold_left (fun acc y => acc +:+ sep +:+ y) rest x
  end.

Definition quoted (s : string) : string := dq +:+ s +:+ dq.

Definition defined (v : JsVal) : bool :=
  match v with JUndefined => false | _ => true end.

Fixpoint stringify (v : JsVal) : string :=
  match v with
  | JUndefined => "undefined"
  | JNull => "null"
  | JBool b => if b then "true" else "false"
  | JNum _ => "0"
  | JStr s => quoted s
  | JArr items _ =>
      "[" +:+ join "," (map (fun x => if defined x then stringify x else "null") items) +:+ "]"
  | JObj props =>
      "{" +:+ join "," (flat_map (fun kv => match kv with
                                           | (k, x) =>
                                               if defined x
                                               then [quoted k +:+ ":" +:+ stringify x]
                                               else []
                                           end) props) +:+ "}"
  end.

Definition to_string (v : JsVal) : string :=
  match v with
  | JUndefined => "undefined"
  | JNull => "null"
  | JBool b => if b then "true" else "false"
  | JNum _ => "0"
  | JStr s => s
  | JArr items _ => join "," (map (fun x => match x with JStr t => t | _ => "" end) items)
  | JObj _ => "[object Object]"
  end.

#[export] Instance builtins : Builtins := {|
  JSON_parse_object := parse_object;
  JSON_stringify := stringify;
  ToString := to_string;
  TypeError_for f := mkJsError "TypeError" ""
|}.

(** The outside of an agent: the answers the planning service and the
    tools will give, in order. *)
Record World : Type := mkWorld {
  planner_answers : list (Outcome string);
  tool_answers : list (Outcome JsVal)
}.

Definition next_plan (w : World) : Outcome string * World :=
  match planner_answers w with
  | a :: rest => (a, mkWorld rest (tool_answers w))
  | [] => (Throw (Error "no answer"), w)
  end.

Definition next_tool (w : World) : Outcome JsVal * World :=
  match tool_answers w with
  | a :: rest => (a, mkWorld (planner_answers w) rest)
  | [] => (Ok JNull, w)
  end.

#[export] Instance env : AgentEnv World := {|
  gemini_request _ _ _ := next_plan;
  mcpClient_listTools := ret [];
  mcpClient_callTool name args := perform (EvMcpCallTool name args) next_tool
|}.

Definition start (plans : list (Outcome string)) (tools : list (Outcome JsVal)) : St World :=
  mkSt (mkWorld plans tools) [].

Definition agent : Agent := GeminiAgent.constructor "key".

(** Three planned actions. *)
Definition navigate_text : string :=
  "{" +:+ quoted "action" +:+ ":" +:+ quoted "call_tool" +:+ "," +:+
  quoted "tool" +:+ ":" +:+ quoted "browser_navigate" +:+ "," +:+
  quoted "args" +:+ ":{" +:+ quoted "url" +:+ ":" +:+ quoted "https://example.com" +:+ "}}".

Definition snapshot_text : string :=
  "{" +:+ quoted "action" +:+ ":" +:+ quoted "call_tool" +:+ "," +:+
  quoted "tool" +:+ ":" +:+ quoted "browser_snapshot" +:+ "}".

Definition done_text : string :=
  "{" +:+ quoted "action" +:+ ":" +:+ quoted "done" +:+ "," +:+
  quoted "message" +:+ ":" +:+ quoted "Navigated" +:+ "}".

Definition navigate_signature : string :=
  "browser_navigate|{" +:+ quoted "url" +:+ ":" +:+ quoted "https://example.com" +:+ "}".

Definition task : JsVal := JStr "open the page".

Definition default_options : Options World := mkOptions None None.

(** A tool call with an explicit target. *)
Definition click_action : JsObject :=
  [("action", JStr "call_tool"); ("tool", JStr "browser_click");
   ("args", JObj [("ref", JStr "#submit")])].

(** The outside of the server: what each address answers to [fetch] and
    to [response.json()], whether the pages of the browser throw, and the
    answers the MCP subprocess and the planning service will give. *)
Record Outside : Type := mkOutside {
  fetch_answer : string -> Outcome bool;
  json_answer : string -> Outcome JsVal;
  pages_throw : bool;
  mcp_answers : list (Outcome JsVal);
  plan_answers : list (Outcome string);
  ticks : nat
}.

Definition page_answer (x : Outside) : Outcome JsVal * Outside :=
  if pages_throw x then (Throw (Error "Target closed"), x) else (Ok JNull, x).

Definition next_mcp (x : Outside) : Outcome JsVal * Outside :=
  match mcp_answers x with
  | a :: rest =>
      (a, mkOutside (fetch_answer x) (json_answer x) (pages_throw x) rest
                    (plan_answers x) (ticks x))
  | [] => (Ok JNull, x)
  end.

Definition next_plan_outside (x : Outside) : Outcome string * Outside :=
  match plan_answers x with
  | a :: rest =>
      (a, mkOutside (fetch_answer x) (json_answer x) (pages_throw x) (mcp_answers x)
                    rest (ticks x))
  | [] => (Throw (Error "no answer"), x)
  end.

Definition tick (label : string) (x : Outside) : Outcome string * Outside :=
  (Ok (label +:+ pretty (ticks x)),
   mkOutside (fetch_answer x) (json_answer x) (pages_throw x) (mcp_answers x)
             (plan_answers x) (S (ticks x))).

#[export] Instance server_env : ServerEnv Outside := {|
  fetch_ok url _ x := (fetch_answer x url, x);
  response_json url x := (json_answer x url, x);
  mcp_connect x := (Ok tt, x);
  mcp_listTools x := (Ok (Some []), x);
  mcp_callTool _ _ := next_mcp;
  mcp_close x := (Ok tt, x);
  gemini _ _ _ := next_plan_outside;
  randomUUID := tick "session-";
  date_toISOString := tick "t"
|}.

#[export] Instance playwright_env : PlaywrightEnv Outside := {|
  pw_connectOverCDP _ x := (Ok 0%nat, x);
  pw_contexts _ x := (Ok [0%nat], x);
  pw_newContext _ x := (Ok 0%nat, x);
  pw_pages _ x := (Ok [0%nat], x);
  pw_newPage _ x := (Ok 1%nat, x);
  pw_page _ := page_answer;
  pw_evaluate _ _ := page_answer;
  js_eval _ x := (Ok (AFun 0%nat), x);
  js_new_Function _ x := (Ok 0%nat, x);
  js_call _ x := (Ok (AFun 0%nat), x)
|}.

Definition no_env : ProcessEnv := mkProcessEnv None None None.

(** A handler attached to a browser with one page. *)
Definition attached : PlaywrightCDPHandler.t :=
  PlaywrightCDPHandler.mk "http://localhost:9222" (Some 0%nat) (Some 0%nat)
                          [(JStr "page-0", 0%nat)] true.

(** The server, connected to the MCP subprocess, with [cdp] as its
    handler and [agent] as its agent. *)
Definition server (x : Outside) (cdp : option PlaywrightCDPHandler.t) : St (Bridge Outside) :=
  mkSt (mkBridge x no_env true true true (Some agent) cdp ∅) [].

Definition silent_outside (plans : list (Outcome string)) : Outside :=
  mkOutside (fun _ => Throw (Error "fetch failed")) (fun _ => Throw (Error "no body"))
            false [] plans 0.

(** An outside where port 9222 answers 200 with a body that is no JSON,
    port 9223 answers 200 with JSON, and the other two ports answer
    404. *)
Definition two_ports : Outside :=
  mkOutside
    (fun url =>
       if String.eqb url "http://localhost:9222/json/version" then Ok true
       else if String.eqb url "http://localhost:9223/json/version" then Ok true
       else Ok false)
    (fun url =>
       if String.eqb url "http://localhost:9223/json/version" then Ok (JObj [])
       else Throw (mkJsError "SyntaxError" "Unexpected token < in JSON at position 0"))
    false [] [] 0.


(** Twelve tool calls, no two in a row the same. *)
Definition alternating : list (Outcome string) :=
  [Ok navigate_text; Ok snapshot_text; Ok navigate_text; Ok snapshot_text;
   Ok navigate_text; Ok snapshot_text; Ok navigate_text; Ok snapshot_text;
   Ok navigate_text; Ok snapshot_text; Ok navigate_text; Ok snapshot_text].

(** One tool call, and a tool that throws. *)
Definition crashing : St World :=
  start [Ok navigate_text] [Throw (Error "browser has crashed")].

(** The state of the server when a session has been made, with a
    planning service that will give the answers [plans]. *)
Definition session_start (plans : list (Outcome string)) : St (Bridge Outside) :=
  snd (Server.makeSession (server (silent_outside plans) None)).

(** The state of the server after the background task of that
    session. *)
Definition background_run (plans : list (Outcome string)) (options : option RequestOptions)
  : St (Bridge Outside) :=
  snd (Server.background_session agent "session-0" task JUndefined options
                                 (session_start plans)).

(** An agent whose catalogue has a tool to evaluate a script with. *)
Definition tooled : Agent :=
  mkAgent "key" "gemini-2.5-flash" "https://generativelanguage.googleapis.com/v1beta" []
          (Some [mkTool "browser_snapshot" []; mkTool "browser_evaluate" ["function"]]).


(** A planned action in a fence of code, after a sentence. *)
Definition fenced_text : string :=
  "Here is the next action:" +:+ nl +:+ "```json" +:+ nl +:+ done_text +:+ nl +:+ "```".

(** An outside as [server_env], but with an MCP subprocess that cannot
    list its tools. *)
Definition deaf_env : ServerEnv Outside := {|
  fetch_ok url _ x := (fetch_answer x url, x);
  response_json url x := (json_answer x url, x);
  mcp_connect x := (Ok tt, x);
  mcp_listTools x := (Throw (Error "Connection closed"), x);
  mcp_callTool _ _ := next_mcp;
  mcp_close x := (Ok tt, x);
  gemini _ _ _ := next_plan_outside;
  randomUUID := tick "session-";
  date_toISOString := tick "t"
|}.

(** The server before it connects, started with
    [USE_EXISTING_BROWSER=false]. *)
Definition cold_server : St (Bridge Outside) :=
  mkSt (mkBridge (silent_outside []) (mkProcessEnv None (Some "false") None)
                 false false false None None ∅) [].

(** The attached handler with a second page. *)
Definition two_pages : PlaywrightCDPHandler.t :=
  PlaywrightCDPHandler.set_pages [(JStr "page-0", 0%nat); (JStr "page-1", 1%nat)] attached.

End Script.

(** * Vocabulary of the statements *)

(** A computation that never throws. *)
Definition returns {S A : Type} (m : M S A) : Prop :=
  forall s, exists a s', m s = (Ok a, s').

(** The events that mark the progress of a session: a request to the
    planning service, the execution of a planned tool call
    (line 499), and the end of a session on an action that is no tool
    call (lines 523 and 528). *)
Definition is_planner_call (e : Event) : bool :=
  match e with EvGemini _ _ _ => true | _ => false end.

Definition is_execution (e : Event) : bool :=
  match e with EvLog _ (LogExecutingTool _ _) => true | _ => false end.

Definition is_non_tool_end (e : Event) : bool :=
  match e with
  | EvLog _ (LogSessionFinished _) | EvLog _ (LogUnknownAction _) => true
  | _ => false
  end.

Definition is_marker (e : Event) : bool :=
  is_planner_call e || is_execution e || is_non_tool_end e.

Definition markers (l : list Event) : list Event := List.filter is_marker l.

Definition planner_calls (l : list Event) : nat := length (List.filter is_planner_call l).
Definition executions (l : list Event) : nat := length (List.filter is_execution l).
Definition non_tool_ends (l : list Event) : nat := length (List.filter is_non_tool_end l).

(** A computation that adds no marker to the log: what is asked of the
    [mcpClient] and of the [onUpdate] callback, which are not the
    session's own code. *)
Definition quiet {W A : Type} (m : M (St W) A) : Prop :=
  forall s, markers (events (snd (m s))) = markers (events s).

(** The same of a computation that runs on an object and the state. *)
Definition quiet_snd {T W A : Type} (m : M (T * St W) A) : Prop :=
  forall ts, markers (events (snd (snd (m ts)))) = markers (events (snd ts)).

Definition quiet_env {W : Type} (E : AgentEnv W) : Prop :=
  quiet mcpClient_listTools /\ forall name args, quiet (mcpClient_callTool name args).

Definition quiet_options {W : Type} (options : Options W) : Prop :=
  match onUpdate options with
  | Some callback => forall u, quiet (callback u)
  | None => True
  end.

(** The calls that reach the MCP client, as the client logs them. *)
Definition is_tool_request (e : Event) : bool :=
  match e with EvMcpCallTool _ _ => true | _ => false end.

Definition tool_requests (l : list Event) : list Event := List.filter is_tool_request l.

(** A computation that sends the calls [sent] to the MCP client. *)
Definition sends {W A : Type} (sent : list Event) (m : M (St W) A) : Prop :=
  forall s, tool_requests (events (snd (m s))) = (tool_requests (events s) ++ sent)%list.

(** An [mcpClient] whose [callTool] makes one call of the MCP client,
    with the name and the arguments it is given. *)
Definition forwarding_env {W : Type} (E : AgentEnv W) : Prop :=
  forall name args, sends [EvMcpCallTool name args] (mcpClient_callTool name args).

(** An [onUpdate] callback that calls no tool. *)
Definition idle_options {W : Type} (options : Options W) : Prop :=
  match onUpdate options with
  | Some callback => forall u, sends [] (callback u)
  | None => True
  end.

(** The call a step of the trace records. *)
Definition request_of_step (step : Step) : Event :=
  EvMcpCallTool (step_tool step) (step_args step).

(** The steps of the trace are numbered from 1 in the order executed. *)
Definition numbered (tr : list Step) : Prop :=
  map step_iteration tr = seq 1 (length tr).

Section SessionVocabulary.
Context {W : Type} {B : Builtins} {E : AgentEnv W}.
Import GeminiAgent.

(** The prompt of the pass that starts with the loop variables [st]. *)
Definition prompt_of (task : JsVal) (st : Loop) : string :=
  starter_prompt task +:+ contextSuffix (lastToolResult st).

(** The planning service, asked in the state [s] by the pass that starts
    with [st], answers [text] and leaves the world [w']. *)
Definition planner_answers_with (this : Agent) (task : JsVal) (st : Loop) (s : St W)
  (text : string) (w' : W) : Prop :=
  gemini_request this (prompt_of task st) (slice_last 5 (conversationHistory this))
                 (world s) = (Ok text, w').

(** The state [plan_action] leaves after that answer. *)
Definition planned_state (this : Agent) (task : JsVal) (st : Loop) (s : St W)
  (text : string) (w' : W) : St W :=
  mkSt w' (events s ++
           [EvGemini (request_url this) (prompt_of task st)
                     (slice_last 5 (conversationHistory this));
            EvLog LvDebug (LogRawResponse (String.substring 0 4000 text))]).

(** The text holds no JSON the parser can use: its span of braces, if
    it has one, does not parse. A text no part of which parses as a JSON
    object is of that kind. *)
Definition no_json (text : string) : Prop :=
  match match_braces text with
  | Some jsonMatch => JSON_parse_object jsonMatch = None
  | None => True
  end.

(** The action is a tool call. *)
Definition is_call_tool (parsed : JsObject) : bool :=
  is_str (lookup_prop "action" parsed) "call_tool".

(** Asked by the pass that starts with [st] in the state [s], the
    planning service answers with a tool call of signature [sig]. *)
Definition plans_call (this : Agent) (task : JsVal) (st : Loop) (s : St W)
  (sig : string) : Prop :=
  exists text w',
    planner_answers_with this task st s text w'
    /\ is_call_tool (parseGeminiResponse text) = true
    /\ action_signature (parseGeminiResponse text) = sig.

(** Asked by the pass that starts with [st] in the state [s], the
    planning service answers with a tool call that the loop guard lets
    through. *)
Definition plans_fresh_call (this : Agent) (task : JsVal) (st : Loop) (s : St W) : Prop :=
  exists text w',
    planner_answers_with this task st s text w'
    /\ is_call_tool (parseGeminiResponse text) = true
    /\ guard_trips st (parseGeminiResponse text) = false.

(** The loop variables and the state after [n] passes that all went on
    to a next pass. *)
Fixpoint after_passes (n : nat) (this : Agent) (task : JsVal) (options : Options W)
  (st : Loop) (s : St W) : option (Loop * St W) :=
  match n with
  | O => Some (st, s)
  | Datatypes.S k =>
      match after_passes k this task options st s with
      | Some (st', s') =>
          match session_iteration this task options st' s' with
          | (Ok (inl st''), s'') => Some (st'', s'')
          | _ => None
          end
      | None => None
      end
  end.

(** At each of the first [n] passes of a session the planning service
    answers with a tool call that the loop guard lets through. *)
Definition keeps_calling_tools (n : nat) (this : Agent) (task : JsVal)
  (options : Options W) (s0 : St W) : Prop :=
  forall k st s,
    (k < n)%nat ->
    after_passes k this task options initial_loop s0 = Some (st, s) ->
    plans_fresh_call this task st s.

(** The state in which [execute_action] calls [executeTool], after a
    resolution that left [s1]: the line 499 is logged. *)
Definition executing_state (st : Loop) (resolved : JsObject) (s1 : St W) : St W :=
  mkSt (world s1)
       (events s1 ++ [EvLog LvInfo (LogExecutingTool (lookup_prop "tool" resolved)
                                      (iteration st + 1))]).

(** The step [execute_action] records. *)
Definition step_of (st : Loop) (resolved : JsObject) (toolResult : JsVal) : Step :=
  mkStep (iteration st + 1) (lookup_prop "tool" resolved)
         (js_or (lookup_prop "args" resolved) (JObj [])) toolResult.

(** The variables of the loop after that step. *)
Definition next_loop (st : Loop) (parsed resolved : JsObject) (toolResult : JsVal) : Loop :=
  mkLoop (iteration st + 1) (loop_trace st ++ [step_of st resolved toolResult])
         (result_summary toolResult) (guard_signature st parsed) (guard_count st parsed).

(** The step records the execution of the action [parsed], planned in the
    pass that started with [st]. *)
Definition records (step : Step) (st : Loop) (parsed : JsObject) : Prop :=
  step_iteration step = (iteration st + 1)%nat
  /\ step_tool step = lookup_prop "tool" parsed.

(** The call of the [mcpClient] that [executeTool] makes. *)
Definition dispatched_call (this : Agent) (toolName args : JsVal) : M (St W) JsVal :=
  if existsb (is_str toolName) evaluateOnly then
    match find_evalTool this with
    | Some evalTool =>
        mcpClient_callTool (JStr (t_name evalTool))
                           (JObj [("function", JStr (fnBody_for toolName args))])
    | None => mcpClient_callTool toolName args
    end
  else mcpClient_callTool toolName args.

(** A call of a method of the agent from outside. *)
Inductive AgentCall : Type :=
| CallInitialize
| CallRunTaskSession (task context : JsVal) (options : Options W)
| CallProcessMessage (userMessage context : JsVal)
| CallClearHistory
| CallUpdateApiKey (key : string)
| CallSetModel (modelName : JsVal)
| CallExecuteTool (toolName args : JsVal)
| CallComputeRefIfMissing (toolName args userHint : JsVal)
| CallGeminiAPI (prompt : string) (conversationContext : list ChatMsg)
| CallParseGeminiResponse (response : string).

(** The agent and the state a call leaves, whether it returns or
    throws. *)
Definition after_call (c : AgentCall) (ts : Agent * St W) : Agent * St W :=
  match c with
  | CallInitialize =>
      match initialize (fst ts) (snd ts) with
      | (Ok (_, this), s) => (this, s)
      | (Throw _, s) => (fst ts, s)
      end
  | CallRunTaskSession task context options =>
      (fst ts, snd (runTaskSession (fst ts) task context options (snd ts)))
  | CallProcessMessage userMessage context => snd (processMessage userMessage context ts)
  | CallClearHistory => (clearHistory (fst ts), snd ts)
  | CallUpdateApiKey key => (updateApiKey key (fst ts), snd ts)
  | CallSetModel modelName => snd (setModel modelName ts)
  | CallExecuteTool toolName args =>
      (fst ts, snd (executeTool (fst ts) toolName args (snd ts)))
  | CallComputeRefIfMissing toolName args userHint =>
      (fst ts, snd (computeRefIfMissing (fst ts) toolName args userHint (snd ts)))
  | CallGeminiAPI prompt ctx => (fst ts, snd (callGeminiAPI (fst ts) prompt ctx (snd ts)))
  | CallParseGeminiResponse _ => ts
  end.

Definition after_calls (cs : list AgentCall) (ts : Agent * St W) : Agent * St W :=
  fold_left (fun ts c => after_call c ts) cs ts.

(** A computation that leaves the [model] of the agent as it was. *)
Definition keeps_model {A : Type} (m : M (Agent * St W) A) : Prop :=
  forall ts, model (fst (snd (m ts))) = model (fst ts).

(** A computation that leaves the agent as it was. *)
Definition same_agent {A : Type} (m : M (Agent * St W) A) : Prop :=
  forall ts, fst (snd (m ts)) = fst ts.

(** The agent with [h] as its history. *)
Definition with_history (h : list ChatMsg) (this : Agent) : Agent :=
  mkAgent (apiKey this) (model this) (baseUrl this) h (availableTools this).

(** The prompt [processMessage] sends first. *)
Definition chat_prompt (userMessage context : JsVal) : string :=
  ToString userMessage +:+
  (if truthy (get_prop context "currentUrl")
   then nl +:+ nl +:+ "Current page context: The user is on " +:+
        ToString (get_prop context "currentUrl")
   else "").

(** The catalogue of the agent has no tool that evaluates a script:
    [executeTool] calls every tool by its name and [computeRefIfMissing]
    calls none. *)
Definition no_script_tool (this : Agent) : Prop :=
  find_evalTool this = None
  /\ find_scriptTool (default [] (availableTools this)) = None.

End SessionVocabulary.

Section ServerVocabulary.
Context {X : Type} {B : Builtins} {SE : ServerEnv X} {PE : PlaywrightEnv X}.
Import Server.

(** The outside answers the probes of the detector without changing. *)
Definition steady (x : X) : Prop :=
  forall url t, snd (fetch_ok url t x) = x /\ snd (response_json url x) = x.

(** The port answers the request with a 2xx response. *)
Definition port_ok (x : X) (port : Z) : bool :=
  match fst (fetch_ok (version_url port) 500 x) with
  | Ok true => true
  | _ => false
  end.

(** The port answers with a 2xx response whose body is JSON. *)
Definition port_answers (x : X) (port : Z) : bool :=
  port_ok x port &&
  match fst (response_json (version_url port) x) with
  | Ok _ => true
  | Throw _ => false
  end.

Definition endpoint_of (port : Z) : string := "http://localhost:" +:+ pretty port.

(** The ports up to the first that answers, it included. *)
Fixpoint probed (x : X) (ports : list Z) : list Z :=
  match ports with
  | [] => []
  | port :: rest => if port_answers x port then [port] else port :: probed x rest
  end.

Definition is_fetch (e : Event) : bool :=
  match e with EvFetch _ _ => true | _ => false end.

(** The event is a call to the browser the handler is attached to, or
    to one of its contexts and pages. *)
Definition to_browser (e : Event) : bool :=
  match e with
  | EvConnectOverCDP _ | EvContexts _ | EvNewContext _ | EvPages _ | EvNewPage _
  | EvGoto _ _ | EvUrl _ | EvTitle _ | EvContent _ | EvScreenshot _ _
  | EvClick _ _ _ | EvFill _ _ _ _ | EvType _ _ _ _ | EvEvaluate _ _
  | EvWaitForSelector _ _ _ | EvAccessibilitySnapshot _
  | EvPageClose _ | EvBrowserClose _ => true
  | _ => false
  end.

(** The variables of the server with [x] as the outside. *)
Definition with_ext (x : X) (b : Bridge X) : Bridge X :=
  mkBridge x (env b) (mcpClient b) (mcpTransport b) (isConnected b)
           (geminiAgent b) (playwrightCDP b) (sessions b).


(** The patches of the background task. *)
Definition running_patch (message : JsVal) : Patch :=
  mkPatch (Some "running") (Some message) None None None None None.

Definition finished_patch (r : SessionResult) : Patch :=
  mkPatch (Some "finished") None (Some (trace r)) None None (Some r) None.

(** The options the background task runs the session with. *)
Definition background_options (sessionId : string) (options : option RequestOptions)
  : Options (Bridge X) :=
  mkOptions
    (match options with Some o => req_maxIterations o | None => None end)
    (Some (fun update : Update =>
       updateSession sessionId
         (mkPatch (Some (u_status update)) None (Some (u_trace update))
                  (Some (u_action update)) (Some (u_toolResult update)) None None))).

(** The name has a branch in the chain of [cdp_route]. *)
Definition handled_by_cdp (toolName : JsVal) : bool :=
  name_includes toolName "navigate" || name_includes toolName "goto"
  || name_includes toolName "screenshot" || name_includes toolName "click"
  || name_includes toolName "fill" || name_includes toolName "type"
  || name_includes toolName "evaluate"
  || name_includes toolName "accessibility" || name_includes toolName "snapshot"
  || name_includes toolName "wait".

(** The state after the first line of the wrapper's [callTool]. *)
Definition requested_state (name arguments : JsVal) (s : St (Bridge X)) : St (Bridge X) :=
  mkSt (world s)
       (events s ++ [EvLog LvInfo (LogMsg "Gemini->MCP callTool" [request_of name arguments])]).

(** The record [makeSession] stores. *)
Definition created_session (sid now : string) : Session :=
  mkSession sid "created" None [] None None None None now.


(** The names every object of JavaScript has from [Object.prototype]: the
    store, which is an object, answers for them without having them. *)
Definition object_prototype_members : list string :=
  ["constructor"; "__proto__"; "hasOwnProperty"; "isPrototypeOf"; "propertyIsEnumerable";
   "toLocaleString"; "toString"; "valueOf"; "__defineGetter__"; "__defineSetter__";
   "__lookupGetter__"; "__lookupSetter__"].

Definition inherited (name : string) : bool :=
  existsb (String.eqb name) object_prototype_members.

End ServerVocabulary.

(** The results of the handler that are no answers of a page. *)
Definition not_connected : JsError := Error "Not connected to Chrome. Call connect() first.".

Definition page_not_found : JsVal :=
  JObj [("success", JBool false); ("error", JStr "Page not found")].

(** What a method of the handler answers when it is not connected. *)
Definition refused {W A : Type} (h : PlaywrightCDPHandler.t) (s : St W)
  : Outcome A * (PlaywrightCDPHandler.t * St W) :=
  (Throw not_connected, (h, s)).

(** A value that is no object: a [Map] finds again an equal key. *)
Definition primitive (v : JsVal) : bool :=
  match v with
  | JArr _ _ | JObj _ => false
  | _ => true
  end.

(** A computation that preserves the property [I] of the world. *)
Definition preserves {W A : Type} (I : W -> Prop) (m : M (St W) A) : Prop :=
  forall s, I (world s) -> I (world (snd (m s))).

(** The same of a computation that runs on an object and the state. *)
Definition preserves_snd {T W A : Type} (I : W -> Prop) (m : M (T * St W) A) : Prop :=
  forall ts, I (world (snd ts)) -> I (world (snd (snd (m ts)))).

(** A call to the outside that preserves [I]. *)
Definition io_preserves {W A : Type} (I : W -> Prop) (f : W -> Outcome A * W) : Prop :=
  forall w, I w -> I (snd (f w)).

Definition env_preserves {W : Type} (I : W -> Prop) (E : AgentEnv W) : Prop :=
  (forall this prompt ctx, io_preserves I (gemini_request this prompt ctx))
  /\ preserves I mcpClient_listTools
  /\ forall name args, preserves I (mcpClient_callTool name args).

Definition options_preserve {W : Type} (I : W -> Prop) (options : Options W) : Prop :=
  match onUpdate options with
  | Some callback => forall u, preserves I (callback u)
  | None => True
  end.

Definition playwright_preserves {W : Type} (I : W -> Prop) (P : PlaywrightEnv W) : Prop :=
  (forall e, io_preserves I (pw_connectOverCDP e))
  /\ (forall b, io_preserves I (pw_contexts b))
  /\ (forall b, io_preserves I (pw_newContext b))
  /\ (forall c, io_preserves I (pw_pages c))
  /\ (forall c, io_preserves I (pw_newPage c))
  /\ (forall ev, io_preserves I (pw_page ev))
  /\ (forall p f, io_preserves I (pw_evaluate p f))
  /\ (forall src, io_preserves I (js_eval src))
  /\ (forall src, io_preserves I (js_new_Function src))
  /\ (forall f, io_preserves I (js_call f)).

Section StoreVocabulary.
Context {X : Type} {B : Builtins} {SE : ServerEnv X} {PE : PlaywrightEnv X}.
Import Server.

(** Every record of the store has its key as [id]. *)
Definition store_ok (b : Bridge X) : Prop :=
  forall k sess, sessions b !! k = Some sess -> id sess = k.

(** The property [Q] of the store is kept when a session is made and
    when one is patched. *)
Definition store_closed (Q : gmap string Session -> Prop) : Prop :=
  (forall store sid now, Q store -> Q (<[sid := created_session sid now]> store))
  /\ (forall store sid sess patch now,
         Q store -> store !! sid = Some sess ->
         Q (<[sid := apply_patch sess patch now]> store)).

(** The agent of the server, when there is one, has the one model. *)
Definition agent_model_ok (b : Bridge X) : Prop :=
  forall agent, geminiAgent b = Some agent -> model agent = "gemini-2.5-flash".

(** [connectToMCP], every handler of the server, and the task
    [/gemini/chat] starts, preserve [I]. *)
Definition server_preserves (I : Bridge X -> Prop) : Prop :=
  preserves I connectToMCP
  /\ preserves I post_mcp_connect
  /\ preserves I get_mcp_tools
  /\ (forall toolName args, preserves I (post_mcp_tools toolName args))
  /\ preserves I post_mcp_disconnect
  /\ (forall apiKey, preserves I (post_gemini_initialize apiKey))
  /\ (forall req, preserves I (post_gemini_chat req))
  /\ (forall agent sid message context options,
         preserves I (background_session agent sid message context options))
  /\ (forall sid, preserves I (get_gemini_session sid))
  /\ (forall task context options,
         preserves I (post_gemini_run_session task context options))
  /\ preserves I post_gemini_clear
  /\ (forall apiKey, preserves I (post_gemini_update_api_key apiKey)).

End StoreVocabulary.


(** * Properties *)

(** ** Computations *)

Section MonadFacts.
Context {S : Type}.

Lemma returns_ret {A : Type} (a : A) : returns (ret a : M S A).
Proof. intros s. exists a, s. reflexivity. Qed.

Lemma returns_bind {A B : Type} (m : M S A) (k : A -> M S B) :
  returns m -> (forall a, returns (k a)) -> returns (bind m k).
Proof.
  intros Hm Hk s. destruct (Hm s) as (a & s1 & Ha).
  destruct (Hk a s1) as (b & s2 & Hb).
  exists b, s2. unfold bind. rewrite Ha. exact Hb.
Qed.

Lemma returns_try_catch {A : Type} (m : M S A) (h : JsError -> M S A) :
  (forall e, returns (h e)) -> returns (try_catch m h).
Proof.
  intros Hh s. unfold try_catch.
  destruct (m s) as [[a | e] s1].
  - exists a, s1. reflexivity.
  - apply Hh.
Qed.

Lemma returns_modify (f : S -> S) : returns (modify f).
Proof. intros s. exists tt, (f s). reflexivity. Qed.

Lemma returns_gets {A : Type} (f : S -> A) : returns (gets f).
Proof. intros s. exists (f s), s. reflexivity. Qed.

End MonadFacts.

Section LogFacts.
Context {W : Type}.

Lemma markers_app (l1 l2 : list Event) : markers (l1 ++ l2) = (markers l1 ++ markers l2)%list.
Proof. apply List.filter_app. Qed.

Lemma returns_logger (lv : LogLevel) (entry : LogEntry) : returns (@logger W lv entry).
Proof. apply returns_modify. Qed.

Lemma logger_run (lv : LogLevel) (entry : LogEntry) (s : St W) :
  logger lv entry s = (Ok tt, mkSt (world s) (events s ++ [EvLog lv entry])).
Proof. reflexivity. Qed.

Lemma quiet_ret {A : Type} (a : A) : quiet (ret a : M (St W) A).
Proof. intros s. reflexivity. Qed.

Lemma quiet_throw {A : Type} (e : JsError) : quiet (throw e : M (St W) A).
Proof. intros s. reflexivity. Qed.

Lemma quiet_bind {A B : Type} (m : M (St W) A) (k : A -> M (St W) B) :
  quiet m -> (forall a, quiet (k a)) -> quiet (bind m k).
Proof.
  intros Hm Hk s. unfold bind. specialize (Hm s).
  destruct (m s) as [[a | e] s1]; simpl in *.
  - rewrite Hk. exact Hm.
  - exact Hm.
Qed.

Lemma quiet_try_catch {A : Type} (m : M (St W) A) (h : JsError -> M (St W) A) :
  quiet m -> (forall e, quiet (h e)) -> quiet (try_catch m h).
Proof.
  intros Hm Hh s. unfold try_catch. specialize (Hm s).
  destruct (m s) as [[a | e] s1]; simpl in *.
  - exact Hm.
  - rewrite Hh. exact Hm.
Qed.

Lemma quiet_emit (e : Event) : is_marker e = false -> quiet (@emit W e).
Proof.
  intros He s. simpl. rewrite markers_app. simpl. unfold markers at 2. simpl.
  rewrite He. apply app_nil_r.
Qed.

Lemma quiet_logger (lv : LogLevel) (entry : LogEntry) :
  is_marker (EvLog lv entry) = false -> quiet (@logger W lv entry).
Proof. apply quiet_emit. Qed.

Lemma quiet_perform {A : Type} (ev : Event) (io : W -> Outcome A * W) :
  is_marker ev = false -> quiet (perform ev io).
Proof.
  intros Hev s. unfold perform. destruct (io (world s)) as [r w']. simpl.
  rewrite markers_app. simpl. unfold markers at 2. simpl. rewrite Hev. apply app_nil_r.
Qed.

Lemma quiet_gets {A : Type} (f : St W -> A) : quiet (gets f).
Proof. intros s. reflexivity. Qed.

Lemma quiet_snd_ret {T A : Type} (a : A) : quiet_snd (ret a : M (T * St W) A).
Proof. intros ts. reflexivity. Qed.

Lemma quiet_snd_throw {T A : Type} (e : JsError) : quiet_snd (throw e : M (T * St W) A).
Proof. intros ts. reflexivity. Qed.

Lemma quiet_snd_bind {T A C : Type} (m : M (T * St W) A) (k : A -> M (T * St W) C) :
  quiet_snd m -> (forall a, quiet_snd (k a)) -> quiet_snd (bind m k).
Proof.
  intros Hm Hk ts. unfold bind. specialize (Hm ts).
  destruct (m ts) as [[a | e] ts1]; simpl in *.
  - rewrite Hk. exact Hm.
  - exact Hm.
Qed.

Lemma quiet_snd_try_catch {T A : Type} (m : M (T * St W) A) (h : JsError -> M (T * St W) A) :
  quiet_snd m -> (forall e, quiet_snd (h e)) -> quiet_snd (try_catch m h).
Proof.
  intros Hm Hh ts. unfold try_catch. specialize (Hm ts).
  destruct (m ts) as [[a | e] ts1]; simpl in *.
  - exact Hm.
  - rewrite Hh. exact Hm.
Qed.

Lemma quiet_snd_lift {T A : Type} (m : M (St W) A) :
  quiet m -> quiet_snd (lift_snd m : M (T * St W) A).
Proof.
  intros Hm ts. unfold lift_snd. specialize (Hm (snd ts)).
  destruct (m (snd ts)) as [r s']. exact Hm.
Qed.

Lemma quiet_snd_gets {T A : Type} (f : T * St W -> A) : quiet_snd (gets f).
Proof. intros ts. reflexivity. Qed.

Lemma quiet_snd_modify_fst {T : Type} (f : T -> T) :
  quiet_snd (modify (fun ts : T * St W => (f (fst ts), snd ts))).
Proof. intros ts. reflexivity. Qed.

End LogFacts.

(** ** Values *)

Lemma truthy_prop_is_object (v : JsVal) (k : string) :
  truthy (get_prop v k) = true -> truthy v = true.
Proof. destruct v; simpl; intros H; try discriminate; reflexivity. Qed.

Lemma js_or_truthy (a b : JsVal) : truthy a = true -> js_or a b = a.
Proof. unfold js_or. intros ->. reflexivity. Qed.

Lemma js_or_falsy (a b : JsVal) : truthy a = false -> js_or a b = b.
Proof. unfold js_or. intros ->. reflexivity. Qed.

(** Assigning a property the value it has changes nothing. *)
Lemma assign_prop_same (k : string) (o : JsObject) :
  truthy (lookup_prop k o) = true -> assign_prop k (lookup_prop k o) o = o.
Proof.
  induction o as [| [k' v'] o IH]; simpl.
  - discriminate.
  - destruct (String.eqb k k') eqn:Hk.
    + reflexivity.
    + intros H. rewrite IH by exact H. reflexivity.
Qed.

Lemma set_prop_same (v : JsVal) (k : string) :
  truthy (get_prop v k) = true -> set_prop v k (get_prop v k) = Some v.
Proof.
  destruct v; simpl; try discriminate; intros H;
    rewrite assign_prop_same by exact H; reflexivity.
Qed.

Lemma lookup_assign_same (k : string) (v : JsVal) (o : JsObject) :
  lookup_prop k (assign_prop k v o) = v.
Proof.
  induction o as [| [k' v'] o IH]; simpl.
  - rewrite String.eqb_refl. reflexivity.
  - destruct (String.eqb k k') eqn:Hk; simpl; rewrite Hk.
    + reflexivity.
    + exact IH.
Qed.

(** ** The agent *)

Section AgentFacts.
Context {W : Type} {B : Builtins} {E : AgentEnv W}.
Import GeminiAgent.

Lemma executeTool_returns (this : Agent) (toolName args : JsVal) :
  returns (executeTool this toolName args).
Proof.
  apply returns_try_catch. intros e.
  apply returns_bind; [apply returns_logger | intros _; apply returns_ret].
Qed.

Lemma computeRefIfMissing_returns (this : Agent) (toolName args hint : JsVal) :
  returns (computeRefIfMissing this toolName args hint).
Proof.
  apply returns_try_catch. intros e.
  apply returns_bind; [apply returns_logger | intros _; apply returns_ret].
Qed.

(** With a ref in the arguments, [computeRefIfMissing] gives it back and
    asks nothing of the tools. *)
Lemma computeRefIfMissing_present (this : Agent) (toolName args hint : JsVal) (s : St W) :
  truthy (get_prop args "ref") = true ->
  computeRefIfMissing this toolName args hint s = (Ok (get_prop args "ref"), s).
Proof.
  intros H. unfold computeRefIfMissing, try_catch.
  rewrite (truthy_prop_is_object _ _ H), H. reflexivity.
Qed.

Lemma resolve_ref_returns (this : Agent) (task : JsVal) (parsed : JsObject) :
  returns (resolve_ref this task parsed).
Proof.
  apply returns_bind; [apply computeRefIfMissing_returns |].
  intros ref. cbv beta zeta. destruct (truthy ref); [| apply returns_ret].
  match goal with |- context [set_prop ?a ?k ?x] => destruct (set_prop a k x) end;
    (apply returns_bind; [apply returns_logger | intros _; apply returns_ret]).
Qed.

Lemma notify_returns (options : Options W) (u : Update) : returns (notify options u).
Proof.
  unfold notify. destruct (onUpdate options).
  - apply returns_try_catch. intros _. apply returns_ret.
  - apply returns_ret.
Qed.

Lemma parse_without_json (text : string) :
  no_json text -> parseGeminiResponse text = respond_with text.
Proof.
  unfold no_json, parseGeminiResponse. destruct (match_braces text).
  - intros ->. reflexivity.
  - reflexivity.
Qed.

Lemma plan_action_answer (this : Agent) (task : JsVal) (st : Loop) (s : St W)
  (text : string) (w' : W) :
  planner_answers_with this task st s text w' ->
  plan_action this task st s
  = (Ok (text, parseGeminiResponse text), planned_state this task st s text w').
Proof.
  intros H. unfold planner_answers_with, prompt_of in H.
  unfold plan_action, callGeminiAPI, bind, try_catch, perform.
  rewrite H. simpl. unfold planned_state. rewrite <- app_assoc. reflexivity.
Qed.

End AgentFacts.

Section SessionFacts.
Context {W : Type} {B : Builtins} {E : AgentEnv W}.
Import GeminiAgent.

(** C9. Target resolution never overwrites an explicit target: when the
    arguments of a planned tool call hold a ref, [computeRefIfMissing]
    gives that ref back without asking the evaluate tool anything, and
    the resolution step of the session leaves the action, its ref
    included, as it was; it only writes a line to the log. *)
Theorem explicit_ref_is_kept (this : Agent) (task : JsVal) (parsed : JsObject) (s : St W) :
  truthy (get_prop (lookup_prop "args" parsed) "ref") = true ->
  computeRefIfMissing this (lookup_prop "tool" parsed) (lookup_prop "args" parsed) task s
  = (Ok (get_prop (lookup_prop "args" parsed) "ref"), s)
  /\ resolve_ref this task parsed s
     = (Ok parsed,
        mkSt (world s)
             (events s ++ [EvLog LvInfo
                             (LogSessionAutoRef (lookup_prop "tool" parsed)
                                (get_prop (lookup_prop "args" parsed) "ref"))])).
Proof.
  intros Href.
  pose proof (truthy_prop_is_object _ _ Href) as Hargs.
  split; [apply computeRefIfMissing_present; exact Href |].
  unfold resolve_ref, bind.
  rewrite (js_or_truthy _ (JObj []) Hargs).
  rewrite computeRefIfMissing_present by exact Href.
  rewrite Href.
  rewrite (js_or_truthy _ _ Href).
  rewrite set_prop_same by exact Href.
  rewrite logger_run. unfold ret.
  rewrite assign_prop_same by exact Hargs.
  reflexivity.
Qed.

Lemma session_loop_step (fuel : nat) (this : Agent) (task : JsVal)
  (options : Options W) (st : Loop) (s : St W) :
  (Z.of_nat (iteration st) < maxIterations_of options)%Z ->
  session_loop (S fuel) this task options st s
  = match session_iteration this task options st s with
    | (Ok (inl st'), s') => session_loop fuel this task options st' s'
    | (Ok (inr result), s') => (Ok (Some result), s')
    | (Throw e, s') => (Throw e, s')
    end.
Proof.
  intros Hlt. apply Z.ltb_lt in Hlt. simpl. rewrite Hlt. unfold bind.
  destruct (session_iteration this task options st s) as [[[st' | r] | e] s']; reflexivity.
Qed.

Lemma session_loop_exhausted (fuel : nat) (this : Agent) (task : JsVal)
  (options : Options W) (st : Loop) (s : St W) :
  (maxIterations_of options <= Z.of_nat (iteration st))%Z ->
  session_loop fuel this task options st s
  = (Ok (Some (mkResult false
                 (JStr (max_iterations_message (maxIterations_of options)))
                 (loop_trace st))), s).
Proof.
  intros Hge. apply Z.ltb_ge in Hge. destruct fuel; simpl; rewrite Hge; reflexivity.
Qed.

(** *** A pass of the loop *)

Lemma execute_action_run (this : Agent) (task : JsVal) (options : Options W)
  (st : Loop) (parsed resolved : JsObject) (toolResult : JsVal) (s s1 s2 s3 : St W) :
  resolve_ref this task parsed s = (Ok resolved, s1) ->
  executeTool this (lookup_prop "tool" resolved)
              (js_or (lookup_prop "args" resolved) (JObj []))
              (executing_state st resolved s1) = (Ok toolResult, s2) ->
  notify options (mkUpdate "running" (iteration st + 1) resolved toolResult
                           (loop_trace st ++ [step_of st resolved toolResult])) s2
  = (Ok tt, s3) ->
  execute_action this task options st parsed s
  = (Ok (next_loop st parsed resolved toolResult), s3).
Proof.
  intros Hres Hexe Hnot. unfold execute_action, bind.
  rewrite Hres. rewrite logger_run. fold (executing_state st resolved s1).
  rewrite Hexe. unfold step_of in Hnot. rewrite Hnot. reflexivity.
Qed.

(** A planned tool call that the guard lets through is executed and
    recorded, and the loop goes on: [execute_action] does not throw. *)
Lemma execute_action_returns (this : Agent) (task : JsVal) (options : Options W)
  (st : Loop) (parsed : JsObject) (s : St W) :
  exists resolved toolResult s',
    execute_action this task options st parsed s
    = (Ok (next_loop st parsed resolved toolResult), s').
Proof.
  destruct (resolve_ref_returns this task parsed s) as (resolved & s1 & Hres).
  destruct (executeTool_returns this (lookup_prop "tool" resolved)
              (js_or (lookup_prop "args" resolved) (JObj []))
              (executing_state st resolved s1)) as (toolResult & s2 & Hexe).
  destruct (notify_returns options
              (mkUpdate "running" (iteration st + 1) resolved toolResult
                        (loop_trace st ++ [step_of st resolved toolResult])) s2)
    as ([] & s3 & Hnot).
  exists resolved, toolResult, s3.
  eapply execute_action_run; eassumption.
Qed.

Lemma session_iteration_executes (this : Agent) (task : JsVal) (options : Options W)
  (st : Loop) (s : St W) (text : string) (w' : W) :
  planner_answers_with this task st s text w' ->
  is_call_tool (parseGeminiResponse text) = true ->
  guard_trips st (parseGeminiResponse text) = false ->
  session_iteration this task options st s
  = match execute_action this task options st (parseGeminiResponse text)
            (planned_state this task st s text w') with
    | (Ok st', s') => (Ok (inl st'), s')
    | (Throw e, s') =>
        (Ok (inr (mkResult false (JStr (error_text e)) (loop_trace st))),
         mkSt (world s') (events s' ++ [EvLog LvError (LogSessionError e)]))
    end.
Proof.
  intros Hans Hcall Hguard.
  unfold session_iteration, bind, try_catch.
  rewrite (plan_action_answer _ _ _ _ _ _ Hans). cbn [snd fst].
  unfold is_call_tool in Hcall. rewrite Hcall, Hguard.
  destruct (execute_action _ _ _ _ _ _) as [[st' | e] s']; reflexivity.
Qed.

Lemma session_iteration_stops (this : Agent) (task : JsVal) (options : Options W)
  (st : Loop) (s : St W) (text : string) (w' : W) :
  planner_answers_with this task st s text w' ->
  is_call_tool (parseGeminiResponse text) = true ->
  guard_trips st (parseGeminiResponse text) = true ->
  session_iteration this task options st s
  = (Ok (inr (mkResult true (JStr stopped_message) (loop_trace st))),
     mkSt w' (events (planned_state this task st s text w')
              ++ [EvLog LvWarn (LogRepeatedAction
                                  (action_signature (parseGeminiResponse text)))])).
Proof.
  intros Hans Hcall Hguard.
  unfold session_iteration, bind, try_catch.
  rewrite (plan_action_answer _ _ _ _ _ _ Hans). cbn [snd fst].
  unfold is_call_tool in Hcall. rewrite Hcall, Hguard. reflexivity.
Qed.

(** A pass never throws. *)
Lemma session_iteration_returns (this : Agent) (task : JsVal) (options : Options W)
  (st : Loop) : returns (session_iteration this task options st).
Proof.
  apply returns_try_catch. intros e.
  apply returns_bind; [apply returns_logger | intros _; apply returns_ret].
Qed.

(** The pass that gets a text without JSON. *)
Lemma session_iteration_no_json (this : Agent) (task : JsVal) (options : Options W)
  (st : Loop) (s : St W) (text : string) (w' : W) :
  no_json text ->
  planner_answers_with this task st s text w' ->
  let msg := JStr (if String.eqb text "" then "Done" else text) in
  session_iteration this task options st s
  = (Ok (inr (mkResult true msg (loop_trace st))),
     mkSt w' (events (planned_state this task st s text w')
              ++ [EvLog LvInfo (LogSessionFinished msg)])).
Proof.
  intros Hno Hans msg.
  unfold session_iteration, bind, try_catch.
  rewrite (plan_action_answer _ _ _ _ _ _ Hans).
  cbn [snd fst]. rewrite (parse_without_json _ Hno).
  unfold finish_action, bind. cbn [respond_with lookup_prop String.eqb Ascii.eqb Bool.eqb is_str].
  simpl. unfold js_or. simpl. subst msg.
  destruct (String.eqb text ""); reflexivity.
Qed.

Lemma lookup_assign_other (k k' : string) (v : JsVal) (o : JsObject) :
  String.eqb k k' = false -> lookup_prop k (assign_prop k' v o) = lookup_prop k o.
Proof.
  intros Hk. induction o as [| [k0 v0] o IH]; simpl.
  - rewrite Hk. reflexivity.
  - destruct (String.eqb k' k0) eqn:H0; simpl.
    + apply String.eqb_eq in H0. subst k0. rewrite Hk. reflexivity.
    + destruct (String.eqb k k0); [reflexivity | exact IH].
Qed.

(** Target resolution touches [parsed.args] alone. *)
Lemma resolve_ref_keeps_tool (this : Agent) (task : JsVal) (parsed resolved : JsObject)
  (s s1 : St W) :
  resolve_ref this task parsed s = (Ok resolved, s1) ->
  lookup_prop "tool" resolved = lookup_prop "tool" parsed.
Proof.
  unfold resolve_ref, bind.
  destruct (computeRefIfMissing _ _ _ _ s) as [[ref | e] s0]; [| discriminate].
  destruct (truthy ref).
  - cbv zeta.
    match goal with |- context [set_prop ?a ?k ?x] => destruct (set_prop a k x) end;
      rewrite logger_run; unfold ret; intros H; inversion H; subst;
      apply lookup_assign_other; reflexivity.
  - unfold ret. intros H. inversion H. reflexivity.
Qed.

Lemma guard_first (st : Loop) (parsed : JsObject) :
  same_signature (previousActionSignature st) (action_signature parsed) = false ->
  guard_trips st parsed = false
  /\ guard_signature st parsed = Some (action_signature parsed)
  /\ guard_count st parsed = 0%nat.
Proof.
  intros H. unfold guard_trips, guard_signature, guard_count. rewrite H. auto.
Qed.

Lemma guard_repeat (st : Loop) (parsed : JsObject) :
  previousActionSignature st = Some (action_signature parsed) ->
  guard_signature st parsed = Some (action_signature parsed)
  /\ guard_count st parsed = S (repeatCount st).
Proof.
  intros H. unfold guard_signature, guard_count. rewrite H. simpl.
  rewrite String.eqb_refl. auto.
Qed.

(** A pass on a planned tool call that the guard lets through. *)
Lemma session_iteration_continues (this : Agent) (task : JsVal) (options : Options W)
  (st : Loop) (s : St W) (text : string) (w' : W) :
  planner_answers_with this task st s text w' ->
  is_call_tool (parseGeminiResponse text) = true ->
  guard_trips st (parseGeminiResponse text) = false ->
  exists resolved toolResult s',
    session_iteration this task options st s
    = (Ok (inl (next_loop st (parseGeminiResponse text) resolved toolResult)), s')
    /\ lookup_prop "tool" resolved = lookup_prop "tool" (parseGeminiResponse text).
Proof.
  intros Hans Hcall Hguard.
  rewrite (session_iteration_executes _ _ _ _ _ _ _ Hans Hcall Hguard).
  set (s1 := planned_state this task st s text w').
  destruct (resolve_ref_returns this task (parseGeminiResponse text) s1)
    as (resolved & s2 & Hres).
  destruct (executeTool_returns this (lookup_prop "tool" resolved)
              (js_or (lookup_prop "args" resolved) (JObj []))
              (executing_state st resolved s2)) as (toolResult & s3 & Hexe).
  destruct (notify_returns options
              (mkUpdate "running" (iteration st + 1) resolved toolResult
                        (loop_trace st ++ [step_of st resolved toolResult])) s3)
    as ([] & s4 & Hnot).
  exists resolved, toolResult, s4.
  rewrite (execute_action_run _ _ _ _ _ _ _ _ _ _ _ Hres Hexe Hnot).
  split; [reflexivity |].
  eapply resolve_ref_keeps_tool; exact Hres.
Qed.

(** C1, as amended. When the planning service answers three passes in a
    row with a tool call of one signature, the first two are executed
    and recorded, and the third is not: after its answer comes in,
    nothing is asked of the tools and the session returns, with the
    message that it stopped on a repeated action, the trace ending with
    the two steps, and [success: true]. *)
Theorem repeated_action_stops (this : Agent) (task : JsVal) (options : Options W)
  (st0 : Loop) (s0 : St W) (sig : string) (fuel : nat) :
  same_signature (previousActionSignature st0) sig = false ->
  (Z.of_nat (iteration st0) + 2 < maxIterations_of options)%Z ->
  (forall k st s,
      (k < 3)%nat ->
      after_passes k this task options st0 s0 = Some (st, s) ->
      plans_call this task st s sig) ->
  exists parsed1 parsed2 step1 step2 st1 st2 s2 text3 w3,
    records step1 st0 parsed1 /\ action_signature parsed1 = sig
    /\ records step2 st1 parsed2 /\ action_signature parsed2 = sig
    /\ iteration st1 = (iteration st0 + 1)%nat
    /\ after_passes 2 this task options st0 s0 = Some (st2, s2)
    /\ loop_trace st2 = (loop_trace st0 ++ [step1; step2])%list
    /\ planner_answers_with this task st2 s2 text3 w3
    /\ action_signature (parseGeminiResponse text3) = sig
    /\ session_loop (3 + fuel) this task options st0 s0
       = (Ok (Some (mkResult true (JStr stopped_message)
                             (loop_trace st0 ++ [step1; step2]))),
          mkSt w3 (events (planned_state this task st2 s2 text3 w3)
                   ++ [EvLog LvWarn (LogRepeatedAction sig)])).
Proof.
  intros Hnew Hbudget Hplans.
  (* first pass *)
  destruct (Hplans 0%nat st0 s0 ltac:(lia) eq_refl) as (text1 & w1 & Hans1 & Hcall1 & Hsig1).
  rewrite <- Hsig1 in Hnew.
  destruct (guard_first st0 _ Hnew) as (Hg1 & Hp1 & Hc1).
  destruct (session_iteration_continues this task options st0 s0 text1 w1 Hans1 Hcall1 Hg1)
    as (res1 & tr1 & s1 & Hit1 & Htool1).
  set (st1 := next_loop st0 (parseGeminiResponse text1) res1 tr1) in *.
  assert (Hafter1 : after_passes 1 this task options st0 s0 = Some (st1, s1)).
  { simpl. rewrite Hit1. reflexivity. }
  (* second pass *)
  destruct (Hplans 1%nat st1 s1 ltac:(lia) Hafter1) as (text2 & w2 & Hans2 & Hcall2 & Hsig2).
  assert (Hr1 : repeatCount st1 = 0%nat) by exact Hc1.
  assert (Hprev1 : previousActionSignature st1 = Some (action_signature (parseGeminiResponse text2))).
  { rewrite Hsig2, <- Hsig1. exact Hp1. }
  destruct (guard_repeat st1 _ Hprev1) as (Hp2 & Hc2).
  assert (Hg2 : guard_trips st1 (parseGeminiResponse text2) = false).
  { unfold guard_trips. rewrite Hc2, Hr1. reflexivity. }
  destruct (session_iteration_continues this task options st1 s1 text2 w2 Hans2 Hcall2 Hg2)
    as (res2 & tr2 & s2 & Hit2 & Htool2).
  set (st2 := next_loop st1 (parseGeminiResponse text2) res2 tr2) in *.
  assert (Hafter2 : after_passes 2 this task options st0 s0 = Some (st2, s2)).
  { change (after_passes 2 this task options st0 s0)
      with (match after_passes 1 this task options st0 s0 with
            | Some (st', s') =>
                match session_iteration this task options st' s' with
                | (Ok (inl st''), s'') => Some (st'', s'')
                | _ => None
                end
            | None => None
            end).
    rewrite Hafter1, Hit2. reflexivity. }
  (* third pass *)
  destruct (Hplans 2%nat st2 s2 ltac:(lia) Hafter2) as (text3 & w3 & Hans3 & Hcall3 & Hsig3).
  assert (Hr2 : repeatCount st2 = 1%nat).
  { change (repeatCount st2) with (guard_count st1 (parseGeminiResponse text2)).
    rewrite Hc2, Hr1. reflexivity. }
  assert (Hprev2 : previousActionSignature st2 = Some (action_signature (parseGeminiResponse text3))).
  { rewrite Hsig3, <- Hsig2. exact Hp2. }
  destruct (guard_repeat st2 _ Hprev2) as (Hp3 & Hc3).
  assert (Hg3 : guard_trips st2 (parseGeminiResponse text3) = true).
  { unfold guard_trips. rewrite Hc3, Hr2. reflexivity. }
  pose proof (session_iteration_stops this task options st2 s2 text3 w3 Hans3 Hcall3 Hg3) as Hit3.
  assert (Htrace2 : loop_trace st2
                    = (loop_trace st0 ++ [step_of st0 res1 tr1; step_of st1 res2 tr2])%list).
  { subst st2 st1. simpl. rewrite <- app_assoc. reflexivity. }
  exists (parseGeminiResponse text1), (parseGeminiResponse text2),
         (step_of st0 res1 tr1), (step_of st1 res2 tr2), st1, st2, s2, text3, w3.
  repeat split; try assumption; try reflexivity.
  change (3 + fuel)%nat with (S (S (S fuel))).
  rewrite session_loop_step by lia. rewrite Hit1.
  rewrite session_loop_step by (subst st1; simpl; lia). rewrite Hit2.
  rewrite session_loop_step by (subst st2 st1; simpl; lia). rewrite Hit3.
  rewrite Htrace2, Hsig3. reflexivity.
Qed.

(** *** The markers of a pass *)

Section Quiet.
Hypothesis Henv : quiet_env E.

Lemma executeTool_quiet (this : Agent) (toolName args : JsVal) :
  quiet (executeTool this toolName args).
Proof.
  destruct Henv as [_ Hcall].
  apply quiet_try_catch.
  - destruct (existsb _ _); [destruct (find_evalTool this) |];
      (apply quiet_bind; [apply Hcall | intros ?; apply quiet_ret]).
  - intros e. apply quiet_bind; [apply quiet_logger; reflexivity | intros _; apply quiet_ret].
Qed.

Lemma computeRefIfMissing_quiet (this : Agent) (toolName args hint : JsVal) :
  quiet (computeRefIfMissing this toolName args hint).
Proof.
  destruct Henv as [_ Hcall].
  apply quiet_try_catch.
  - destruct (truthy args && truthy (get_prop args "ref")); [apply quiet_ret |].
    destruct (availableTools this) as [[| t tools] |]; try apply quiet_ret.
    destruct (find_scriptTool (t :: tools)); [| apply quiet_ret].
    apply quiet_bind; [apply Hcall | intros ?; apply quiet_ret].
  - intros e. apply quiet_bind; [apply quiet_logger; reflexivity | intros _; apply quiet_ret].
Qed.

Lemma resolve_ref_quiet (this : Agent) (task : JsVal) (parsed : JsObject) :
  quiet (resolve_ref this task parsed).
Proof.
  apply quiet_bind; [apply computeRefIfMissing_quiet |].
  intros ref. cbv beta zeta. destruct (truthy ref); [| apply quiet_ret].
  match goal with |- context [set_prop ?a ?k ?x] => destruct (set_prop a k x) end;
    (apply quiet_bind; [apply quiet_logger; reflexivity | intros _; apply quiet_ret]).
Qed.

Lemma notify_quiet (options : Options W) (u : Update) :
  quiet_options options -> quiet (notify options u).
Proof.
  unfold quiet_options, notify. destruct (onUpdate options).
  - intros H. apply quiet_try_catch; [apply H | intros _; apply quiet_ret].
  - intros _. apply quiet_ret.
Qed.

(** [execute_action] adds one marker, that of the execution. *)
Lemma execute_action_markers (this : Agent) (task : JsVal) (options : Options W)
  (st : Loop) (parsed : JsObject) (s : St W) :
  quiet_options options ->
  exists resolved toolResult s',
    execute_action this task options st parsed s
    = (Ok (next_loop st parsed resolved toolResult), s')
    /\ markers (events s')
       = (markers (events s)
          ++ [EvLog LvInfo (LogExecutingTool (lookup_prop "tool" resolved) (iteration st + 1))])%list.
Proof.
  intros Hopt.
  destruct (resolve_ref_returns this task parsed s) as (resolved & s1 & Hres).
  destruct (executeTool_returns this (lookup_prop "tool" resolved)
              (js_or (lookup_prop "args" resolved) (JObj []))
              (executing_state st resolved s1)) as (toolResult & s2 & Hexe).
  destruct (notify_returns options
              (mkUpdate "running" (iteration st + 1) resolved toolResult
                        (loop_trace st ++ [step_of st resolved toolResult])) s2)
    as ([] & s3 & Hnot).
  exists resolved, toolResult, s3.
  split; [eapply execute_action_run; eassumption |].
  pose proof (notify_quiet options
                (mkUpdate "running" (iteration st + 1) resolved toolResult
                          (loop_trace st ++ [step_of st resolved toolResult])) Hopt s2) as Q3.
  rewrite Hnot in Q3. cbn [snd] in Q3.
  pose proof (executeTool_quiet this (lookup_prop "tool" resolved)
                (js_or (lookup_prop "args" resolved) (JObj []))
                (executing_state st resolved s1)) as Q2.
  rewrite Hexe in Q2. cbn [snd] in Q2.
  pose proof (resolve_ref_quiet this task parsed s) as Q1. rewrite Hres in Q1. cbn [snd] in Q1.
  rewrite Q3, Q2. unfold executing_state. cbn [events]. rewrite markers_app, Q1. reflexivity.
Qed.

End Quiet.

(** [plan_action] adds one marker, that of the request. *)
Lemma plan_action_markers (this : Agent) (task : JsVal) (st : Loop) (s : St W) :
  markers (events (snd (plan_action this task st s)))
  = (markers (events s)
     ++ [EvGemini (request_url this) (prompt_of task st)
                  (slice_last 5 (conversationHistory this))])%list.
Proof.
  unfold plan_action, callGeminiAPI, bind, try_catch, perform, prompt_of.
  destruct (gemini_request _ _ _ _) as [[text | e] w']; simpl;
    rewrite !markers_app; simpl; rewrite ?app_nil_r; reflexivity.
Qed.

(** What a pass does, whatever the planning service and the tools
    answer: it asks the planning service once; it goes on to a next pass
    only after one execution, which it records as the next step; and
    when it returns, it has executed nothing and the trace is as it
    was. *)
Lemma pass_spec (this : Agent) (task : JsVal) (options : Options W) (st : Loop) (s : St W) :
  quiet_env E -> quiet_options options ->
  exists r s' ms,
    session_iteration this task options st s = (Ok r, s')
    /\ markers (events s') = (markers (events s) ++ ms)%list
    /\ planner_calls ms = 1%nat
    /\ match r with
       | inl st' =>
           iteration st' = (iteration st + 1)%nat
           /\ (exists step, loop_trace st' = (loop_trace st ++ [step])%list
                            /\ step_iteration step = (iteration st + 1)%nat)
           /\ executions ms = 1%nat /\ non_tool_ends ms = 0%nat
       | inr res => trace res = loop_trace st /\ executions ms = 0%nat
       end.
Proof.
  intros Henv Hopt.
  unfold session_iteration, bind, try_catch.
  pose proof (plan_action_markers this task st s) as Hplan.
  destruct (plan_action this task st s) as [[[text parsed] | e] s1]; cbn [snd fst] in *.
  - destruct (is_str (lookup_prop "action" parsed) "call_tool").
    + destruct (guard_trips st parsed).
      * rewrite logger_run. unfold ret. do 3 eexists. split; [reflexivity |].
        cbn [events]. rewrite markers_app, Hplan. simpl. rewrite app_nil_r.
        split; [reflexivity |]. split; [reflexivity |]. split; reflexivity.
      * destruct (execute_action_markers Henv this task options st parsed s1 Hopt)
          as (resolved & toolResult & s2 & Hrun & Hm).
        rewrite Hrun. unfold ret. do 3 eexists. split; [reflexivity |].
        rewrite Hm, Hplan, <- app_assoc. split; [reflexivity |].
        split; [reflexivity |].
        split; [reflexivity |]. split; [| split; reflexivity].
        eexists. split; reflexivity.
    + unfold finish_action, bind.
      destruct (is_str (lookup_prop "action" parsed) "done"
                || is_str (lookup_prop "action" parsed) "respond"
                || negb (truthy (lookup_prop "action" parsed)));
        rewrite logger_run; unfold ret; do 3 eexists; (split; [reflexivity |]);
        cbn [events]; rewrite markers_app, Hplan, <- app_assoc;
        (split; [reflexivity |]); (split; [reflexivity |]); split; reflexivity.
  - rewrite logger_run. unfold ret. do 3 eexists. split; [reflexivity |].
    cbn [events]. rewrite markers_app, Hplan. simpl. rewrite app_nil_r.
    split; [reflexivity |]. split; [reflexivity |]. split; reflexivity.
Qed.

(** *** Counting *)

Lemma count_markers (f : Event -> bool) (l : list Event) :
  (forall e, f e = true -> is_marker e = true) ->
  length (List.filter f (markers l)) = length (List.filter f l).
Proof.
  intros Hf. induction l as [| e l IH]; simpl; [reflexivity |].
  destruct (is_marker e) eqn:He; simpl.
  - destruct (f e); simpl; rewrite IH; reflexivity.
  - destruct (f e) eqn:Hfe; [| exact IH].
    apply Hf in Hfe. congruence.
Qed.

Lemma count_after (f : Event -> bool) (l l' ms : list Event) :
  (forall e, f e = true -> is_marker e = true) ->
  markers l' = (markers l ++ ms)%list ->
  length (List.filter f l') = (length (List.filter f l) + length (List.filter f ms))%nat.
Proof.
  intros Hf H. rewrite <- (count_markers f l' Hf), H, List.filter_app, length_app.
  rewrite (count_markers f l Hf). reflexivity.
Qed.

Lemma planner_call_marker (e : Event) : is_planner_call e = true -> is_marker e = true.
Proof. unfold is_marker. intros ->. reflexivity. Qed.

Lemma execution_marker (e : Event) : is_execution e = true -> is_marker e = true.
Proof. unfold is_marker. intros ->. rewrite orb_true_r. reflexivity. Qed.

Lemma non_tool_end_marker (e : Event) : is_non_tool_end e = true -> is_marker e = true.
Proof. unfold is_marker. intros ->. apply orb_true_r. Qed.

(** The counts of a pass. *)
Lemma pass_counts (this : Agent) (task : JsVal) (options : Options W) (st : Loop) (s : St W) :
  quiet_env E -> quiet_options options ->
  exists r s',
    session_iteration this task options st s = (Ok r, s')
    /\ planner_calls (events s') = (planner_calls (events s) + 1)%nat
    /\ match r with
       | inl st' =>
           iteration st' = (iteration st + 1)%nat
           /\ (exists step, loop_trace st' = (loop_trace st ++ [step])%list
                            /\ step_iteration step = (iteration st + 1)%nat)
           /\ executions (events s') = (executions (events s) + 1)%nat
           /\ non_tool_ends (events s') = non_tool_ends (events s)
       | inr res =>
           trace res = loop_trace st
           /\ executions (events s') = executions (events s)
       end.
Proof.
  intros Henv Hopt.
  destruct (pass_spec this task options st s Henv Hopt) as (r & s' & ms & Hrun & Hm & Hp & Hr).
  exists r, s'. split; [exact Hrun |].
  split.
  { unfold planner_calls in *. rewrite (count_after _ _ _ _ planner_call_marker Hm), Hp.
    reflexivity. }
  destruct r as [st' | res].
  - destruct Hr as (Hi & Hstep & He & Hn). repeat split; try assumption.
    + unfold executions in *. rewrite (count_after _ _ _ _ execution_marker Hm), He.
      reflexivity.
    + unfold non_tool_ends in *. rewrite (count_after _ _ _ _ non_tool_end_marker Hm), Hn.
      lia.
  - destruct Hr as (Ht & He). split; [exact Ht |].
    unfold executions in *. rewrite (count_after _ _ _ _ execution_marker Hm), He. lia.
Qed.

Lemma numbered_snoc (tr : list Step) (step : Step) :
  numbered tr -> step_iteration step = (length tr + 1)%nat -> numbered (tr ++ [step]).
Proof.
  unfold numbered. intros H Hs.
  rewrite map_app, length_app, H. simpl. rewrite Hs.
  replace (length tr + 1)%nat with (S (length tr)) by lia.
  rewrite seq_S. reflexivity.
Qed.

(** The loop, from any of its states with a well-numbered trace: it
    returns, and the counts of what it did add up. *)
Lemma session_loop_counts (this : Agent) (task : JsVal) (options : Options W) :
  quiet_env E -> quiet_options options ->
  forall (fuel : nat) (st : Loop) (s : St W),
    (maxIterations_of options <= Z.of_nat (iteration st + fuel))%Z ->
    numbered (loop_trace st) -> length (loop_trace st) = iteration st ->
    exists r s',
      session_loop fuel this task options st s = (Ok (Some r), s')
      /\ numbered (trace r)
      /\ (executions (events s') + iteration st
          = executions (events s) + length (trace r))%nat
      /\ (planner_calls (events s) + length (trace r)
          <= planner_calls (events s') + iteration st)%nat
      /\ ((non_tool_ends (events s) < non_tool_ends (events s'))%nat ->
          (planner_calls (events s) + length (trace r)
           < planner_calls (events s') + iteration st)%nat).
Proof.
  intros Henv Hopt fuel. induction fuel as [| fuel IH]; intros st s Hfuel Hnum Hlen.
  - rewrite session_loop_exhausted by lia.
    do 2 eexists. split; [reflexivity |]. cbn [trace].
    repeat split; try assumption; lia.
  - destruct (Z.ltb_spec (Z.of_nat (iteration st)) (maxIterations_of options)) as [Hlt | Hge].
    + rewrite session_loop_step by exact Hlt.
      destruct (pass_counts this task options st s Henv Hopt) as (r & s1 & Hrun & Hp & Hr).
      rewrite Hrun. destruct r as [st' | res].
      * destruct Hr as (Hi & (step & Htr & Hstep) & He & Hn).
        destruct (IH st' s1) as (r & s' & Hloop & Hnum' & He' & Hp' & Hn').
        { lia. }
        { rewrite Htr. apply numbered_snoc; [exact Hnum | lia]. }
        { rewrite Htr, length_app. simpl. lia. }
        exists r, s'. split; [exact Hloop |].
        split; [exact Hnum' |]. split; [lia |]. split; [lia |].
        intros Hends. rewrite <- Hn in Hends. specialize (Hn' Hends). lia.
      * destruct Hr as (Ht & He).
        exists res, s1. split; [reflexivity |].
        rewrite Ht. split; [exact Hnum |]. split; [lia |]. split; lia.
    + rewrite session_loop_exhausted by exact Hge.
      do 2 eexists. split; [reflexivity |]. cbn [trace].
      repeat split; try assumption; lia.
Qed.

(** After [n] passes that all went on, [n] steps are recorded, the
    planning service was asked [n] times and [n] tool calls were
    executed. *)
Lemma after_passes_counts (this : Agent) (task : JsVal) (options : Options W) (s0 : St W) :
  quiet_env E -> quiet_options options ->
  forall (n : nat) (st : Loop) (s : St W),
    after_passes n this task options initial_loop s0 = Some (st, s) ->
    length (loop_trace st) = n /\ iteration st = n
    /\ executions (events s) = (executions (events s0) + n)%nat
    /\ planner_calls (events s) = (planner_calls (events s0) + n)%nat.
Proof.
  intros Henv Hopt n. induction n as [| n IH]; intros st s H.
  - simpl in H. inversion H; subst. simpl. repeat split; lia.
  - simpl in H.
    destruct (after_passes n this task options initial_loop s0) as [[st1 s1] |];
      [| discriminate].
    destruct (IH st1 s1 eq_refl) as (Hl & Hi & He & Hp).
    destruct (pass_counts this task options st1 s1 Henv Hopt) as (r & s2 & Hrun & Hp2 & Hr).
    rewrite Hrun in H. destruct r as [st2 | res]; [| discriminate].
    inversion H; subst st2 s2.
    destruct Hr as (Hi2 & (step & Htr & _) & He2 & _).
    rewrite Htr, length_app. simpl. repeat split; lia.
Qed.

(** The pass that gets an action that is no tool call returns, and the
    trace it returns is the one it started with. *)
Lemma session_iteration_no_tool (this : Agent) (task : JsVal) (options : Options W)
  (st : Loop) (s : St W) (text : string) (w' : W) :
  planner_answers_with this task st s text w' ->
  is_call_tool (parseGeminiResponse text) = false ->
  exists res s',
    session_iteration this task options st s = (Ok (inr res), s')
    /\ trace res = loop_trace st.
Proof.
  intros Hans Hcall.
  unfold session_iteration, bind, try_catch.
  rewrite (plan_action_answer _ _ _ _ _ _ Hans). cbn [snd fst].
  unfold is_call_tool in Hcall. rewrite Hcall.
  unfold finish_action, bind.
  destruct (is_str _ "done" || is_str _ "respond" || negb (truthy _));
    rewrite logger_run; unfold ret; do 2 eexists; split; reflexivity.
Qed.

(** *** The calls that reach the MCP client *)

Lemma tool_requests_app (l1 l2 : list Event) :
  tool_requests (l1 ++ l2) = (tool_requests l1 ++ tool_requests l2)%list.
Proof. apply List.filter_app. Qed.

Lemma sends_ret {A : Type} (a : A) : sends [] (ret a : M (St W) A).
Proof. intros s. cbn. rewrite app_nil_r. reflexivity. Qed.

Lemma sends_throw {A : Type} (e : JsError) : sends [] (throw e : M (St W) A).
Proof. intros s. cbn. rewrite app_nil_r. reflexivity. Qed.

Lemma sends_logger (lv : LogLevel) (entry : LogEntry) : sends [] (@logger W lv entry).
Proof. intros s. cbn. rewrite tool_requests_app. reflexivity. Qed.

Lemma sends_bind {A C : Type} (m : M (St W) A) (k : A -> M (St W) C) :
  sends [] m -> (forall a, sends [] (k a)) -> sends [] (bind m k).
Proof.
  intros Hm Hk s. unfold bind. specialize (Hm s).
  destruct (m s) as [[a | e] s1]; cbn [snd] in *.
  - rewrite Hk, Hm, !app_nil_r. reflexivity.
  - exact Hm.
Qed.

Lemma sends_try_catch {A : Type} (m : M (St W) A) (h : JsError -> M (St W) A) :
  sends [] m -> (forall e, sends [] (h e)) -> sends [] (try_catch m h).
Proof.
  intros Hm Hh s. unfold try_catch. specialize (Hm s).
  destruct (m s) as [[a | e] s1]; cbn [snd] in *.
  - exact Hm.
  - rewrite Hh, Hm, !app_nil_r. reflexivity.
Qed.

Lemma callGeminiAPI_sends (this : Agent) (prompt : string) (ctx : list ChatMsg) :
  sends [] (callGeminiAPI this prompt ctx).
Proof.
  unfold callGeminiAPI. apply sends_try_catch.
  - intros s. unfold perform. destruct (gemini_request _ _ _ _) as [r w']. cbn.
    rewrite tool_requests_app. reflexivity.
  - intros e. apply sends_bind; [apply sends_logger | intros _; apply sends_throw].
Qed.

Lemma plan_action_sends (this : Agent) (task : JsVal) (st : Loop) :
  sends [] (plan_action this task st).
Proof.
  unfold plan_action. apply sends_bind; [apply callGeminiAPI_sends | intros text].
  apply sends_bind; [apply sends_logger | intros _; apply sends_ret].
Qed.

Lemma computeRefIfMissing_sends (this : Agent) (toolName args hint : JsVal) :
  no_script_tool this -> sends [] (computeRefIfMissing this toolName args hint).
Proof.
  intros [_ Hno]. unfold computeRefIfMissing.
  apply sends_try_catch;
    [| intros e; apply sends_bind; [apply sends_logger | intros _; apply sends_ret]].
  destruct (truthy args && truthy (get_prop args "ref")); [apply sends_ret |].
  destruct (availableTools this) as [[| t tools] |]; try apply sends_ret.
  change (find_scriptTool (t :: tools) = None) in Hno. rewrite Hno. apply sends_ret.
Qed.

Lemma resolve_ref_sends (this : Agent) (task : JsVal) (parsed : JsObject) :
  no_script_tool this -> sends [] (resolve_ref this task parsed).
Proof.
  intros Hno. unfold resolve_ref.
  apply sends_bind; [apply computeRefIfMissing_sends; exact Hno | intros ref].
  cbv zeta. destruct (truthy ref); [| apply sends_ret].
  match goal with |- context [set_prop ?a ?k ?x] => destruct (set_prop a k x) end;
    (apply sends_bind; [apply sends_logger | intros _; apply sends_ret]).
Qed.

Lemma notify_sends (options : Options W) (u : Update) :
  idle_options options -> sends [] (notify options u).
Proof.
  unfold idle_options, notify. destruct (onUpdate options) as [callback |]; intros H.
  - apply sends_try_catch; [apply H | intros _; apply sends_ret].
  - apply sends_ret.
Qed.

Lemma finish_action_sends (text : string) (st : Loop) (parsed : JsObject) :
  sends [] (finish_action (W:=W) text st parsed).
Proof.
  unfold finish_action.
  destruct (_ || _); cbv zeta;
    (apply sends_bind; [apply sends_logger | intros _; apply sends_ret]).
Qed.

(** [executeTool] is the call it dispatches, with the outcome made a
    result. *)
Lemma executeTool_dispatch (this : Agent) (toolName args : JsVal) (s : St W) :
  executeTool this toolName args s
  = match dispatched_call this toolName args s with
    | (Ok result, s') => (Ok (JObj [("success", JBool true); ("result", result)]), s')
    | (Throw e, s') =>
        (Ok (JObj [("success", JBool false); ("error", JStr (err_message e))]),
         mkSt (world s') (events s' ++ [EvLog LvError (LogExecuteToolError e)]))
    end.
Proof.
  unfold dispatched_call, executeTool, try_catch, bind.
  destruct (existsb (is_str toolName) evaluateOnly); [destruct (find_evalTool this) |];
    match goal with |- context [mcpClient_callTool ?n ?a s] =>
      destruct (mcpClient_callTool n a s) as [[result | e] s'] end; reflexivity.
Qed.

Lemma executeTool_sends (this : Agent) (toolName args : JsVal) :
  forwarding_env E -> no_script_tool this ->
  sends [EvMcpCallTool toolName args] (executeTool this toolName args).
Proof.
  intros Henv [Hno _] s. rewrite executeTool_dispatch. unfold dispatched_call. rewrite Hno.
  assert (Hcall := Henv toolName args s).
  destruct (existsb (is_str toolName) evaluateOnly);
    destruct (mcpClient_callTool toolName args s) as [[result | e] s']; cbn [snd] in *;
    try exact Hcall; cbn [events]; rewrite tool_requests_app, Hcall; cbn; apply app_nil_r.
Qed.

Lemma execute_action_sends (this : Agent) (task : JsVal) (options : Options W)
  (st : Loop) (parsed : JsObject) (s : St W) :
  forwarding_env E -> idle_options options -> no_script_tool this ->
  exists st' step s',
    execute_action this task options st parsed s = (Ok st', s')
    /\ iteration st' = (iteration st + 1)%nat
    /\ loop_trace st' = (loop_trace st ++ [step])%list
    /\ step_iteration step = (iteration st + 1)%nat
    /\ tool_requests (events s') = (tool_requests (events s) ++ [request_of_step step])%list.
Proof.
  intros Henv Hopt Hno.
  destruct (resolve_ref_returns this task parsed s) as (resolved & s1 & Hres).
  destruct (executeTool_returns this (lookup_prop "tool" resolved)
              (js_or (lookup_prop "args" resolved) (JObj []))
              (executing_state st resolved s1)) as (toolResult & s2 & Hexe).
  destruct (notify_returns options
              (mkUpdate "running" (iteration st + 1) resolved toolResult
                        (loop_trace st ++ [step_of st resolved toolResult])) s2)
    as ([] & s3 & Hnot).
  exists (next_loop st parsed resolved toolResult), (step_of st resolved toolResult), s3.
  split; [eapply execute_action_run; eassumption |].
  split; [reflexivity |]. split; [reflexivity |]. split; [reflexivity |].
  pose proof (notify_sends options
                (mkUpdate "running" (iteration st + 1) resolved toolResult
                          (loop_trace st ++ [step_of st resolved toolResult])) Hopt s2) as Q3.
  rewrite Hnot in Q3. cbn [snd] in Q3.
  pose proof (executeTool_sends this (lookup_prop "tool" resolved)
                (js_or (lookup_prop "args" resolved) (JObj [])) Henv Hno
                (executing_state st resolved s1)) as Q2.
  rewrite Hexe in Q2. cbn [snd] in Q2.
  pose proof (resolve_ref_sends this task parsed Hno s) as Q1.
  rewrite Hres in Q1. cbn [snd] in Q1.
  rewrite Q3, Q2, app_nil_r. unfold executing_state. cbn [events].
  rewrite tool_requests_app, Q1, !app_nil_r. reflexivity.
Qed.

(** What a pass sends: the call of the step it records, and nothing when
    it records none. *)
Lemma pass_sends (this : Agent) (task : JsVal) (options : Options W) (st : Loop) (s : St W) :
  forwarding_env E -> idle_options options -> no_script_tool this ->
  exists r s',
    session_iteration this task options st s = (Ok r, s')
    /\ match r with
       | inl st' =>
           iteration st' = (iteration st + 1)%nat
           /\ exists step,
                loop_trace st' = (loop_trace st ++ [step])%list
                /\ tool_requests (events s')
                   = (tool_requests (events s) ++ [request_of_step step])%list
       | inr res =>
           trace res = loop_trace st
           /\ tool_requests (events s') = tool_requests (events s)
       end.
Proof.
  intros Henv Hopt Hno.
  unfold session_iteration, bind, try_catch.
  pose proof (plan_action_sends this task st s) as Hplan. rewrite app_nil_r in Hplan.
  destruct (plan_action this task st s) as [[[text parsed] | e] s1]; cbn [snd fst] in *.
  - destruct (is_str (lookup_prop "action" parsed) "call_tool").
    + destruct (guard_trips st parsed).
      * rewrite logger_run. unfold ret. do 2 eexists. split; [reflexivity |].
        cbn [events trace]. rewrite tool_requests_app, Hplan. cbn. rewrite app_nil_r.
        split; reflexivity.
      * destruct (execute_action_sends this task options st parsed s1 Henv Hopt Hno)
          as (st' & step & s2 & Hrun & Hi & Htr & _ & Hsent).
        rewrite Hrun. unfold ret. do 2 eexists. split; [reflexivity |].
        split; [exact Hi |]. exists step. split; [exact Htr |]. rewrite Hsent, Hplan.
        reflexivity.
    + pose proof (finish_action_sends text st parsed s1) as Hfin. rewrite app_nil_r in Hfin.
      assert (Htrace : trace (match fst (finish_action text st parsed s1) with
                              | Ok res => res | Throw _ => mkResult false JNull (loop_trace st)
                              end) = loop_trace st).
      { unfold finish_action. destruct (_ || _); reflexivity. }
      destruct (finish_action text st parsed s1) as [[res | e] s2] eqn:Hf; cbn [snd fst] in *.
      * unfold ret. do 2 eexists. split; [reflexivity |].
        split; [exact Htrace | rewrite Hfin; exact Hplan].
      * exfalso. revert Hf. unfold finish_action. destruct (_ || _); discriminate.
  - rewrite logger_run. unfold ret. do 2 eexists. split; [reflexivity |].
    cbn [events trace]. rewrite tool_requests_app, Hplan. cbn. rewrite app_nil_r.
    split; reflexivity.
Qed.

Lemma session_loop_sends (this : Agent) (task : JsVal) (options : Options W) :
  forwarding_env E -> idle_options options -> no_script_tool this ->
  forall (fuel : nat) (st : Loop) (s : St W),
    (maxIterations_of options <= Z.of_nat (iteration st + fuel))%Z ->
    exists r s' added,
      session_loop fuel this task options st s = (Ok (Some r), s')
      /\ trace r = (loop_trace st ++ added)%list
      /\ tool_requests (events s')
         = (tool_requests (events s) ++ map request_of_step added)%list.
Proof.
  intros Henv Hopt Hno fuel. induction fuel as [| fuel IH]; intros st s Hfuel.
  - rewrite session_loop_exhausted by lia.
    exists (mkResult false (JStr (max_iterations_message (maxIterations_of options)))
                     (loop_trace st)), s, [].
    split; [reflexivity |]. cbn. rewrite !app_nil_r. split; reflexivity.
  - destruct (Z.ltb_spec (Z.of_nat (iteration st)) (maxIterations_of options)) as [Hlt | Hge].
    + rewrite session_loop_step by exact Hlt.
      destruct (pass_sends this task options st s Henv Hopt Hno) as (r & s1 & Hrun & Hr).
      rewrite Hrun. destruct r as [st' | res].
      * destruct Hr as (Hi & step & Htr & Hsent).
        destruct (IH st' s1) as (r & s' & added & Hloop & Htrace & Hsent'); [lia |].
        exists r, s', (step :: added). split; [exact Hloop |].
        rewrite Htrace, Htr, Hsent', Hsent, <- !app_assoc. split; reflexivity.
      * destruct Hr as (Ht & Hsent).
        exists res, s1, []. split; [reflexivity |]. cbn. rewrite !app_nil_r.
        split; [exact Ht | exact Hsent].
    + rewrite session_loop_exhausted by exact Hge.
      exists (mkResult false (JStr (max_iterations_message (maxIterations_of options)))
                       (loop_trace st)), s, [].
      split; [reflexivity |]. cbn. rewrite !app_nil_r. split; reflexivity.
Qed.

(** C3. The trace of a session has one step for each planned tool call
    that was executed, in the order executed and numbered from 1. After
    any number of passes that went on, and when the session returns, its
    length is the number of executions logged, which is at most the
    number of requests to the planning service, and less than it when
    the session ended on an action that is no tool call; a pass that
    gets such an action adds no step. The step a pass adds holds the
    outcome of the call that [executeTool] made for it: the answer of
    the [mcpClient] as a success, what it threw as a failure. And with a
    catalogue that has no tool to evaluate a script, the calls the MCP
    client received during the session are those of the steps of the
    trace, one for each, in that order. *)
Theorem trace_counts_executions (this : Agent) (task context : JsVal)
  (options : Options W) (s0 : St W) :
  quiet_env E -> quiet_options options ->
  (forall n st s,
      after_passes n this task options initial_loop s0 = Some (st, s) ->
      length (loop_trace st) = n
      /\ executions (events s) = (executions (events s0) + n)%nat
      /\ planner_calls (events s) = (planner_calls (events s0) + n)%nat)
  /\ (forall st s text w',
         planner_answers_with this task st s text w' ->
         is_call_tool (parseGeminiResponse text) = false ->
         exists res s',
           session_iteration this task options st s = (Ok (inr res), s')
           /\ trace res = loop_trace st)
  /\ (exists r s',
       runTaskSession this task context options s0 = (Ok (Some r), s')
       /\ numbered (trace r)
       /\ executions (events s') = (executions (events s0) + length (trace r))%nat
       /\ (planner_calls (events s0) + length (trace r) <= planner_calls (events s'))%nat
       /\ ((non_tool_ends (events s0) < non_tool_ends (events s'))%nat ->
           (planner_calls (events s0) + length (trace r) < planner_calls (events s'))%nat))
  /\ (forall st s text w' resolved s1 r s2,
         planner_answers_with this task st s text w' ->
         is_call_tool (parseGeminiResponse text) = true ->
         guard_trips st (parseGeminiResponse text) = false ->
         resolve_ref this task (parseGeminiResponse text)
                     (planned_state this task st s text w') = (Ok resolved, s1) ->
         dispatched_call this (lookup_prop "tool" resolved)
                         (js_or (lookup_prop "args" resolved) (JObj []))
                         (mkSt (world s1)
                               (events s1 ++
                                [EvLog LvInfo (LogExecutingTool (lookup_prop "tool" resolved)
                                                                (iteration st + 1))]))
         = (r, s2) ->
         exists st' s',
           session_iteration this task options st s = (Ok (inl st'), s')
           /\ loop_trace st'
              = (loop_trace st ++
                 [mkStep (iteration st + 1) (lookup_prop "tool" resolved)
                         (js_or (lookup_prop "args" resolved) (JObj []))
                         match r with
                         | Ok result => JObj [("success", JBool true); ("result", result)]
                         | Throw e =>
                             JObj [("success", JBool false); ("error", JStr (err_message e))]
                         end])%list)
  /\ (forwarding_env E -> idle_options options -> no_script_tool this ->
      exists r s',
        runTaskSession this task context options s0 = (Ok (Some r), s')
        /\ tool_requests (events s')
           = (tool_requests (events s0)
              ++ map (fun step => EvMcpCallTool (step_tool step) (step_args step))
                     (trace r))%list).
Proof.
  intros Henv Hopt. split; [| split; [| split; [| split]]].
  - intros n st s H.
    destruct (after_passes_counts this task options s0 Henv Hopt n st s H) as (Hl & _ & He & Hp).
    auto.
  - intros st s text w'. apply session_iteration_no_tool.
  - unfold runTaskSession.
    destruct (session_loop_counts this task options Henv Hopt
                (Z.to_nat (maxIterations_of options)) initial_loop s0)
      as (r & s' & Hrun & Hnum & He & Hp & Hn).
    { simpl. lia. }
    { reflexivity. }
    { reflexivity. }
    exists r, s'. simpl in He, Hp, Hn.
    split; [exact Hrun |]. split; [exact Hnum |]. split; [lia |]. split; [lia |].
    intros H. specialize (Hn H). lia.
  - intros st s text w' resolved s1 r s2 Hans Hcall Hguard Hres Hdis.
    fold (executing_state st resolved s1) in Hdis.
    pose proof (executeTool_dispatch this (lookup_prop "tool" resolved)
                  (js_or (lookup_prop "args" resolved) (JObj []))
                  (executing_state st resolved s1)) as Hexe.
    rewrite Hdis in Hexe.
    rewrite (session_iteration_executes _ _ _ _ _ _ _ Hans Hcall Hguard).
    destruct r as [result | e];
      match type of Hexe with _ = (Ok ?toolResult, ?s3) =>
        destruct (notify_returns options
                    (mkUpdate "running" (iteration st + 1) resolved toolResult
                              (loop_trace st ++ [step_of st resolved toolResult])) s3)
          as ([] & s4 & Hnot);
        rewrite (execute_action_run _ _ _ _ _ _ _ _ _ _ _ Hres Hexe Hnot)
      end;
      do 2 eexists; split; reflexivity.
  - intros Hfwd Hidle Hno. unfold runTaskSession.
    destruct (session_loop_sends this task options Hfwd Hidle Hno
                (Z.to_nat (maxIterations_of options)) initial_loop s0)
      as (r & s' & added & Hrun & Htrace & Hsent).
    { simpl. lia. }
    exists r, s'. split; [exact Hrun |]. rewrite Hsent, Htrace. reflexivity.
Qed.

(** *** The budget *)

(** The session returns: the loop is never cut short by its fuel, and
    nothing is thrown out of it. *)
Lemma runTaskSession_returns (this : Agent) (task context : JsVal) (options : Options W)
  (s0 : St W) :
  exists r s', runTaskSession this task context options s0 = (Ok (Some r), s').
Proof.
  unfold runTaskSession.
  assert (H : forall fuel st s,
             (maxIterations_of options <= Z.of_nat (iteration st + fuel))%Z ->
             exists r s', session_loop fuel this task options st s = (Ok (Some r), s')).
  { induction fuel as [| fuel IH]; intros st s Hfuel.
    - rewrite session_loop_exhausted by lia. eauto.
    - destruct (Z.ltb_spec (Z.of_nat (iteration st)) (maxIterations_of options)) as [Hlt | Hge].
      + rewrite session_loop_step by exact Hlt.
        destruct (session_iteration_returns this task options st s) as ([st' | res] & s1 & Hrun);
          rewrite Hrun; [| eauto].
        apply IH.
        assert (Hi : iteration st' = (iteration st + 1)%nat).
        { revert Hrun. unfold session_iteration, bind, try_catch.
          destruct (plan_action this task st s) as [[[text parsed] | e] s2]; cbn [snd fst].
          - destruct (is_str (lookup_prop "action" parsed) "call_tool").
            + destruct (guard_trips st parsed).
              * rewrite logger_run. unfold ret. discriminate.
              * destruct (execute_action_returns this task options st parsed s2)
                  as (resolved & toolResult & s3 & Hex).
                rewrite Hex. unfold ret. intros H. inversion H. reflexivity.
            + destruct (finish_action text st parsed s2) as [[res | e] s3];
                unfold ret; try rewrite logger_run; discriminate.
          - rewrite logger_run. unfold ret. discriminate. }
        lia.
      + rewrite session_loop_exhausted by exact Hge. eauto. }
  apply H. simpl. lia.
Qed.

Lemma maxIterations_of_positive (options : Options W) (N : nat) :
  maxIterations options = Some (Z.of_nat N) -> (0 < N)%nat ->
  maxIterations_of options = Z.of_nat N.
Proof.
  intros H HN. unfold maxIterations_of. rewrite H.
  destruct (Z.eqb_spec (Z.of_nat N) 0); [lia | reflexivity].
Qed.

(** C2, as amended. With [maxIterations] a positive [N] and a planning
    service that answers each of the first [N] passes with a tool call
    the loop guard lets through, the session executes exactly [N] steps
    and returns [success: false] with the message that the maximum of
    [N] iterations was reached, and a trace of length [N]. *)
Theorem iteration_cap (this : Agent) (task context : JsVal) (options : Options W)
  (s0 : St W) (N : nat) :
  maxIterations options = Some (Z.of_nat N) ->
  (0 < N)%nat ->
  keeps_calling_tools N this task options s0 ->
  exists st s',
    after_passes N this task options initial_loop s0 = Some (st, s')
    /\ length (loop_trace st) = N
    /\ runTaskSession this task context options s0
       = (Ok (Some (mkResult false (JStr (max_iterations_message (Z.of_nat N)))
                             (loop_trace st))), s').
Proof.
  intros Hmax HN Hkeeps.
  pose proof (maxIterations_of_positive options N Hmax HN) as HmaxN.
  assert (H : forall d k st s,
             (d + k = N)%nat ->
             after_passes k this task options initial_loop s0 = Some (st, s) ->
             iteration st = k -> length (loop_trace st) = k ->
             exists st' s',
               after_passes N this task options initial_loop s0 = Some (st', s')
               /\ length (loop_trace st') = N
               /\ session_loop d this task options st s
                  = (Ok (Some (mkResult false (JStr (max_iterations_message (Z.of_nat N)))
                                        (loop_trace st'))), s')).
  { induction d as [| d IH]; intros k st s Hdk Hafter Hit Hlen.
    - simpl in Hdk. subst k. exists st, s.
      split; [exact Hafter |]. split; [exact Hlen |].
      rewrite session_loop_exhausted by lia. rewrite HmaxN. reflexivity.
    - destruct (Hkeeps k st s ltac:(lia) Hafter) as (text & w' & Hans & Hcall & Hguard).
      destruct (session_iteration_continues this task options st s text w' Hans Hcall Hguard)
        as (resolved & toolResult & s1 & Hrun & _).
      rewrite session_loop_step by lia. rewrite Hrun.
      apply (IH (S k)).
      + lia.
      + simpl. rewrite Hafter, Hrun. reflexivity.
      + simpl. lia.
      + simpl. rewrite length_app. simpl. lia. }
  unfold runTaskSession. rewrite HmaxN, Nat2Z.id.
  destruct (H N 0%nat initial_loop s0 ltac:(lia) eq_refl eq_refl eq_refl)
    as (st & s' & Hafter & Hlen & Hrun).
  exists st, s'. auto.
Qed.

(** *** A tool call that fails *)

(** [executeTool] turns the failure of the call it makes into its
    result. *)
Lemma executeTool_captures (this : Agent) (toolName args : JsVal) (s s1 : St W) (e : JsError) :
  dispatched_call this toolName args s = (Throw e, s1) ->
  executeTool this toolName args s
  = (Ok (tool_failure e),
     mkSt (world s1) (events s1 ++ [EvLog LvError (LogExecuteToolError e)])).
Proof.
  unfold dispatched_call, executeTool, try_catch, bind.
  destruct (existsb (is_str toolName) evaluateOnly); [destruct (find_evalTool this) |];
    intros ->; reflexivity.
Qed.

Lemma result_summary_failure (e : JsError) : result_summary (tool_failure e) = tool_failure e.
Proof. reflexivity. Qed.

(** C7. A failed tool call does not end the session. In a pass whose
    planned tool call the loop guard lets through, when the call
    [executeTool] makes to the tools throws, [executeTool] does not
    throw but returns the failure as its result; the pass records a
    step with that result, which is [{ success: false, error }] with
    the message of what was thrown, and goes on to the next pass, whose
    prompt carries that object as the previous tool result: that is the
    prompt the next pass sends to the planning service; and while the
    budget lasts the session goes on with that pass. *)
Theorem failed_tool_call_continues (this : Agent) (task : JsVal) (options : Options W)
  (st : Loop) (s : St W) (text : string) (w' : W)
  (resolved : JsObject) (s1 s2 : St W) (e : JsError) (fuel : nat) :
  planner_answers_with this task st s text w' ->
  is_call_tool (parseGeminiResponse text) = true ->
  guard_trips st (parseGeminiResponse text) = false ->
  resolve_ref this task (parseGeminiResponse text) (planned_state this task st s text w')
  = (Ok resolved, s1) ->
  dispatched_call this (lookup_prop "tool" resolved)
                  (js_or (lookup_prop "args" resolved) (JObj []))
                  (executing_state st resolved s1) = (Throw e, s2) ->
  let failure := JObj [("success", JBool false); ("error", JStr (err_message e))] in
  let st' := next_loop st (parseGeminiResponse text) resolved failure in
  exists s3 s',
    executeTool this (lookup_prop "tool" resolved)
                (js_or (lookup_prop "args" resolved) (JObj []))
                (executing_state st resolved s1) = (Ok failure, s3)
    /\ session_iteration this task options st s = (Ok (inl st'), s')
    /\ loop_trace st'
       = (loop_trace st ++
          [mkStep (iteration st + 1) (lookup_prop "tool" resolved)
                  (js_or (lookup_prop "args" resolved) (JObj [])) failure])%list
    /\ iteration st' = (iteration st + 1)%nat
    /\ lastToolResult st' = failure
    /\ prompt_of task st'
       = starter_prompt task +:+ nl +:+ nl +:+ "Previous tool result: "
         +:+ JSON_stringify failure
    /\ (forall text2 w2,
           gemini_request this
             (starter_prompt task +:+ nl +:+ nl +:+ "Previous tool result: "
              +:+ JSON_stringify failure)
             (slice_last 5 (conversationHistory this)) (world s') = (Ok text2, w2) ->
           fst (plan_action this task st' s') = Ok (text2, parseGeminiResponse text2))
    /\ ((Z.of_nat (iteration st) < maxIterations_of options)%Z ->
        session_loop (S fuel) this task options st s
        = session_loop fuel this task options st' s').
Proof.
  intros Hans Hcall Hguard Hres Hthrow failure st'.
  pose proof (executeTool_captures _ _ _ _ _ _ Hthrow) as Hexe.
  set (s3 := mkSt (world s2) (events s2 ++ [EvLog LvError (LogExecuteToolError e)])) in *.
  destruct (notify_returns options
              (mkUpdate "running" (iteration st + 1) resolved failure
                        (loop_trace st ++ [step_of st resolved failure])) s3)
    as ([] & s4 & Hnot).
  assert (Hrun : session_iteration this task options st s = (Ok (inl st'), s4)).
  { rewrite (session_iteration_executes _ _ _ _ _ _ _ Hans Hcall Hguard).
    rewrite (execute_action_run _ _ _ _ _ _ _ _ _ _ _ Hres Hexe Hnot). reflexivity. }
  exists s3, s4.
  split; [exact Hexe |]. split; [exact Hrun |].
  split; [reflexivity |]. split; [reflexivity |]. split; [reflexivity |].
  split; [reflexivity |].
  split.
  { intros text2 w2 Hnext. rewrite (plan_action_answer this task st' s4 text2 w2 Hnext).
    reflexivity. }
  intros Hlt. rewrite session_loop_step by exact Hlt. rewrite Hrun. reflexivity.
Qed.

(** C6, as amended. A text of the planning service that holds no JSON is
    parsed to a [respond] action with the text as its message; the pass
    of the loop that gets it returns at once, with [success: true], the
    trace as it was, and as message the text, or [Done] when the text is
    empty; and so does the session, whatever budget is left. *)
Theorem malformed_text_finishes_session (this : Agent) (task : JsVal)
  (options : Options W) (st : Loop) (s : St W) (text : string) (w' : W) (fuel : nat) :
  no_json text ->
  planner_answers_with this task st s text w' ->
  (Z.of_nat (iteration st) < maxIterations_of options)%Z ->
  let msg := JStr (if String.eqb text "" then "Done" else text) in
  let s' := mkSt w' (events (planned_state this task st s text w')
                     ++ [EvLog LvInfo (LogSessionFinished msg)]) in
  parseGeminiResponse text = respond_with text
  /\ session_iteration this task options st s
     = (Ok (inr (mkResult true msg (loop_trace st))), s')
  /\ session_loop (S fuel) this task options st s
     = (Ok (Some (mkResult true msg (loop_trace st))), s').
Proof.
  intros Hno Hans Hlt msg s'.
  split; [apply parse_without_json; exact Hno |].
  pose proof (session_iteration_no_json this task options st s text w' Hno Hans) as Hit.
  split; [exact Hit |].
  rewrite session_loop_step by exact Hlt.
  cbv zeta in Hit. rewrite Hit. reflexivity.
Qed.

End SessionFacts.

(** ** The model of the agent *)

Section ModelFacts.
Context {W : Type} {B : Builtins} {E : AgentEnv W}.
Import GeminiAgent.

Lemma keeps_model_ret {A : Type} (a : A) : keeps_model (ret a : M (Agent * St W) A).
Proof. intros ts. reflexivity. Qed.

Lemma keeps_model_throw {A : Type} (e : JsError) : keeps_model (throw e : M (Agent * St W) A).
Proof. intros ts. reflexivity. Qed.

Lemma keeps_model_bind {A C : Type} (m : M (Agent * St W) A) (k : A -> M (Agent * St W) C) :
  keeps_model m -> (forall a, keeps_model (k a)) -> keeps_model (bind m k).
Proof.
  intros Hm Hk ts. unfold bind. specialize (Hm ts).
  destruct (m ts) as [[a | e] ts1]; simpl in *.
  - rewrite Hk. exact Hm.
  - exact Hm.
Qed.

Lemma keeps_model_try_catch {A : Type} (m : M (Agent * St W) A)
  (h : JsError -> M (Agent * St W) A) :
  keeps_model m -> (forall e, keeps_model (h e)) -> keeps_model (try_catch m h).
Proof.
  intros Hm Hh ts. unfold try_catch. specialize (Hm ts).
  destruct (m ts) as [[a | e] ts1]; simpl in *.
  - exact Hm.
  - rewrite Hh. exact Hm.
Qed.

Lemma keeps_model_lift_snd {A : Type} (m : M (St W) A) : keeps_model (lift_snd m).
Proof. intros ts. unfold lift_snd. destruct (m (snd ts)). reflexivity. Qed.

Lemma keeps_model_with_this {A : Type} (f : Agent -> M (St W) A) : keeps_model (with_this f).
Proof. intros ts. unfold with_this. apply keeps_model_lift_snd. Qed.

Lemma keeps_model_gets {A : Type} (f : Agent * St W -> A) :
  keeps_model (gets f : M (Agent * St W) A).
Proof. intros ts. reflexivity. Qed.

Lemma keeps_model_set_history (h : list ChatMsg) : keeps_model (W:=W) (set_history h).
Proof. intros ts. reflexivity. Qed.

Lemma keeps_model_push_history (m : ChatMsg) : keeps_model (W:=W) (push_history m).
Proof.
  apply keeps_model_bind; [apply keeps_model_gets | intros this; apply keeps_model_set_history].
Qed.

Ltac keeps :=
  repeat first
    [ apply keeps_model_ret | apply keeps_model_throw | apply keeps_model_with_this
    | apply keeps_model_lift_snd | apply keeps_model_push_history
    | apply keeps_model_set_history | apply keeps_model_gets
    | apply keeps_model_try_catch | apply keeps_model_bind | intros ? ].

Lemma keeps_model_processMessage (userMessage context : JsVal) :
  keeps_model (processMessage userMessage context).
Proof.
  unfold processMessage.
  apply keeps_model_try_catch; [| keeps].
  apply keeps_model_bind; [keeps |]. intros _.
  apply keeps_model_bind; [keeps |]. intros geminiResponse.
  apply keeps_model_bind.
  - destruct (is_str _ "call_tool").
    + apply keeps_model_bind; [keeps |]. intros parsed.
      apply keeps_model_bind; [keeps |]. intros toolResult.
      destruct (truthy _); keeps.
    + destruct (is_str _ "chain_tools"); [| keeps].
      destruct (iterate _); keeps.
  - intros finalResponse.
    apply keeps_model_bind; [keeps |]. intros _.
    apply keeps_model_bind; [keeps |]. intros this.
    apply keeps_model_bind; [| keeps].
    destruct (10 <? _)%nat; keeps.
Qed.

(** What [setModel] does. *)
Lemma setModel_run (modelName : JsVal) (this : Agent) (s : St W) :
  setModel modelName (this, s)
  = if is_str modelName "gemini-2.5-flash"
    then (Ok tt,
          (mkAgent (apiKey this) "gemini-2.5-flash" (baseUrl this)
                   (conversationHistory this) (availableTools this),
           mkSt (world s)
                (events s ++ [EvConsole "[Gemini Agent] Model updated to: gemini-2.5-flash"])))
    else (Ok tt,
          (this, mkSt (world s) (events s ++ [EvLog LvWarn (LogSetModelIgnored modelName)]))).
Proof.
  unfold setModel. destruct modelName; try reflexivity. simpl.
  destruct (String.eqb_spec s0 "gemini-2.5-flash") as [-> | Hne]; reflexivity.
Qed.

Lemma after_call_model (c : AgentCall) (ts : Agent * St W) :
  model (fst ts) = "gemini-2.5-flash" ->
  model (fst (after_call c ts)) = "gemini-2.5-flash".
Proof.
  intros H. destruct ts as [this s]. destruct c; simpl; try exact H.
  - unfold initialize, try_catch, bind.
    destruct mcpClient_listTools as [[tools | e] s1]; simpl; exact H.
  - rewrite keeps_model_processMessage. exact H.
  - rewrite setModel_run. destruct (is_str modelName "gemini-2.5-flash"); [reflexivity | exact H].
Qed.

(** C10. The model of an agent is [gemini-2.5-flash] when it is
    constructed and after any sequence of calls of its methods;
    [setModel] with any other name writes a warning and leaves the agent
    as it was. *)
Theorem model_is_fixed (key : string) (cs : list AgentCall) (s : St W) :
  model (constructor key) = "gemini-2.5-flash"
  /\ model (fst (after_calls cs (constructor key, s))) = "gemini-2.5-flash"
  /\ forall (modelName : JsVal) (this : Agent) (s1 : St W),
       setModel modelName (this, s1)
       = if is_str modelName "gemini-2.5-flash"
         then (Ok tt,
               (mkAgent (apiKey this) "gemini-2.5-flash" (baseUrl this)
                        (conversationHistory this) (availableTools this),
                mkSt (world s1)
                     (events s1
                      ++ [EvConsole "[Gemini Agent] Model updated to: gemini-2.5-flash"])))
         else (Ok tt,
               (this, mkSt (world s1)
                           (events s1 ++ [EvLog LvWarn (LogSetModelIgnored modelName)]))).
Proof.
  split; [reflexivity |]. split; [| apply setModel_run].
  assert (H : forall ts, model (fst ts) = "gemini-2.5-flash" ->
                         model (fst (after_calls cs ts)) = "gemini-2.5-flash").
  { induction cs as [| c cs IH]; intros ts Hts; simpl.
    - exact Hts.
    - apply IH. apply after_call_model. exact Hts. }
  apply H. reflexivity.
Qed.

End ModelFacts.

(** ** The server *)

Section ServerFacts.
Context {X : Type} {B : Builtins} {SE : ServerEnv X} {PE : PlaywrightEnv X}.
Import Server.
#[local] Existing Instance playwright_of_bridge.
#[local] Existing Instance agent_env.

Lemma on_ext_steady {A : Type} (f : X -> Outcome A * X) (b : Bridge X) :
  snd (f (ext b)) = ext b -> on_ext f b = (fst (f (ext b)), b).
Proof.
  unfold on_ext. destruct b as [x e c t i g p ss]. simpl.
  destruct (f x) as [r x']. simpl. intros ->. reflexivity.
Qed.

Lemma call_steady {A : Type} (ev : Event) (f : X -> Outcome A * X) (s : St (Bridge X)) :
  snd (f (ext (world s))) = ext (world s) ->
  call ev f s = (fst (f (ext (world s))), mkSt (world s) (events s ++ [ev])).
Proof.
  intros H. unfold call, perform. rewrite (on_ext_steady f (world s) H). reflexivity.
Qed.

Lemma filter_fetch_app (l1 l2 : list Event) :
  List.filter is_fetch (l1 ++ l2) = (List.filter is_fetch l1 ++ List.filter is_fetch l2)%list.
Proof. apply List.filter_app. Qed.

(** The detector never throws. *)
Lemma probe_ports_returns (ports : list Z) : returns (probe_ports ports).
Proof.
  induction ports as [| port rest IH]; [apply returns_ret |].
  simpl. apply returns_bind.
  - apply returns_try_catch. intros e. apply returns_ret.
  - intros [endpoint |]; [apply returns_ret | exact IH].
Qed.

Lemma probe_ports_steady (ports : list Z) (s : St (Bridge X)) :
  steady (ext (world s)) ->
  exists s',
    probe_ports ports s
    = (Ok (endpoint_of <$> List.find (port_answers (ext (world s))) ports), s')
    /\ world s' = world s
    /\ List.filter is_fetch (events s')
       = (List.filter is_fetch (events s)
          ++ map (fun port => EvFetch (version_url port) 500) (probed (ext (world s)) ports))%list.
Proof.
  revert s. induction ports as [| port rest IH]; intros s Hsteady.
  - exists s. simpl. rewrite app_nil_r. auto.
  - destruct (Hsteady (version_url port) 500%Z) as [Hf Hj].
    simpl. unfold bind, try_catch, port_answers, port_ok.
    rewrite (call_steady _ _ s Hf).
    destruct (fst (fetch_ok (version_url port) 500 (ext (world s)))) as [[|] | e] eqn:Hfetch.
    + rewrite call_steady by exact Hj. cbn [world events].
      destruct (fst (response_json (version_url port) (ext (world s)))) as [v | e] eqn:Hjson.
      * rewrite logger_run. unfold ret. simpl. eexists. split; [reflexivity |].
        split; [reflexivity |]. cbn [events].
        rewrite !filter_fetch_app. simpl. rewrite !app_nil_r. reflexivity.
      * unfold ret. simpl.
        match goal with |- context [probe_ports rest ?s1] => destruct (IH s1 Hsteady) as (s' & Hrun & Hw & Hev) end.
        exists s'. rewrite Hrun. split; [reflexivity |]. split; [exact Hw |].
        rewrite Hev. cbn [events world]. rewrite !filter_fetch_app. simpl.
        rewrite app_nil_r, <- app_assoc. reflexivity.
    + unfold ret. simpl.
      match goal with |- context [probe_ports rest ?s1] => destruct (IH s1 Hsteady) as (s' & Hrun & Hw & Hev) end.
      exists s'. rewrite Hrun. split; [reflexivity |]. split; [exact Hw |].
      rewrite Hev. cbn [events world]. rewrite !filter_fetch_app. simpl.
      rewrite <- app_assoc. reflexivity.
    + unfold ret. simpl.
      match goal with |- context [probe_ports rest ?s1] => destruct (IH s1 Hsteady) as (s' & Hrun & Hw & Hev) end.
      exists s'. rewrite Hrun. split; [reflexivity |]. split; [exact Hw |].
      rewrite Hev. cbn [events world]. rewrite !filter_fetch_app. simpl.
      rewrite <- app_assoc. reflexivity.
Qed.

Lemma probed_prefix (x : X) (ports : list Z) :
  exists rest, ports = (probed x ports ++ rest)%list.
Proof.
  induction ports as [| port ports [rest IH]]; simpl.
  - exists []. reflexivity.
  - destruct (port_answers x port).
    + exists ports. reflexivity.
    + exists rest. simpl. rewrite <- IH. reflexivity.
Qed.

Lemma probed_all (x : X) (ports : list Z) :
  List.find (port_answers x) ports = None -> probed x ports = ports.
Proof.
  induction ports as [| port ports IH]; simpl; [reflexivity |].
  destruct (port_answers x port); [discriminate |].
  intros H. rewrite IH by exact H. reflexivity.
Qed.

(** C8, as amended. The detector asks the ports 9222, 9223, 9224 and
    9225, in that order and each at most once, for [/json/version] with
    a timeout of 500 ms, up to the first port whose response is 2xx and
    has a body that parses as JSON; it returns the address of that port,
    and [null] when no port answers so, after asking all four; it never
    throws. *)
Theorem detect_contract (s : St (Bridge X)) :
  steady (ext (world s)) ->
  possiblePorts = [9222; 9223; 9224; 9225]%Z
  /\ returns findChromeCDPEndpoint
  /\ (exists rest, possiblePorts = (probed (ext (world s)) possiblePorts ++ rest)%list)
  /\ (List.find (port_answers (ext (world s))) possiblePorts = None ->
      probed (ext (world s)) possiblePorts = possiblePorts)
  /\ exists s',
       findChromeCDPEndpoint s
       = (Ok (endpoint_of <$> List.find (port_answers (ext (world s))) possiblePorts), s')
       /\ world s' = world s
       /\ List.filter is_fetch (events s')
          = (List.filter is_fetch (events s)
             ++ map (fun port => EvFetch (version_url port) 500)
                    (probed (ext (world s)) possiblePorts))%list.
Proof.
  intros Hsteady.
  split; [reflexivity |].
  split; [apply probe_ports_returns |].
  split; [apply probed_prefix |].
  split; [apply probed_all |].
  apply probe_ports_steady. exact Hsteady.
Qed.

(** *** The dispatcher *)

Lemma connected_handler_run (s : St (Bridge X)) (h : PlaywrightCDPHandler.t) :
  playwrightCDP (world s) = Some h ->
  PlaywrightCDPHandler.isConnectedToBrowser h = true ->
  connected_handler s = (Ok (Some h), s).
Proof.
  intros Hcdp Hconn. unfold connected_handler, bind, global, gets.
  rewrite Hcdp, Hconn. reflexivity.
Qed.



(** The same in the handler of [/mcp/tools/:toolName]. *)
Lemma fallback_on_failure_http (toolName : string) (body_args resp : JsVal)
  (h : PlaywrightCDPHandler.t) (s s1 : St (Bridge X)) (e : JsError) (x' : X) :
  playwrightCDP (world s) = Some h ->
  PlaywrightCDPHandler.isConnectedToBrowser h = true ->
  is_browser_tool (JStr toolName) = true ->
  cdp_route h (JStr toolName) (js_or body_args (JObj []))
            "Tool not handled by CDP, using MCP server"
            (mkSt (world s)
                  (events s ++ [EvLog LvInfo (LogMsg "MCP call requested: "
                                                [JStr toolName; js_or body_args (JObj [])]);
                                EvLog LvInfo (LogMsg "Using CDP handler for: " [JStr toolName])]))
  = (Throw e, s1) ->
  isConnected (world s1) = true ->
  mcpClient (world s1) = true ->
  mcp_callTool (JStr toolName) (js_or body_args (JObj [])) (ext (world s1)) = (Ok resp, x') ->
  fst (post_mcp_tools toolName body_args s) = Ok (mkReply 200 (BodyResult resp)).
Proof.
  intros Hcdp Hconn Htool Hroute Hisc Hclient Hcall.
  unfold post_mcp_tools, try_catch, bind. rewrite logger_run.
  rewrite (connected_handler_run _ h) by assumption.
  rewrite Htool. rewrite logger_run. cbn [world events].
  rewrite <- app_assoc. cbn [app]. rewrite Hroute.
  rewrite logger_run. unfold ret, global, gets. cbn [world events].
  rewrite Hisc. cbn [negb]. cbv beta iota. cbn [world events].
  rewrite Hisc, Hclient. cbn [negb orb].
  unfold call, perform, on_ext. cbv beta. cbn [world events ext]. rewrite Hcall. reflexivity.
Qed.

(** *** Disconnecting *)

Lemma handler_disconnect_run {V : Type} {P : PlaywrightEnv V}
  (h : PlaywrightCDPHandler.t) (s : St V) :
  PlaywrightCDPHandler.disconnect (h, s)
  = (Ok tt,
     (PlaywrightCDPHandler.mk (PlaywrightCDPHandler.cdpEndpoint h) None None [] false,
      mkSt (world s)
           (events s ++ [EvLog LvInfo
                           (LogMsg "Disconnected from Chrome (browser remains open)" [])]))).
Proof. destruct h as [endpoint [b |] c ps conn]; reflexivity. Qed.

(** C5. Disconnecting never terminates the browser. [disconnect()]
    empties the map of pages, forgets the context and the browser, and
    marks the handler disconnected; it asks nothing of the browser, so
    the outside is as it was, and all it adds to the log is one line.
    The handler of [/mcp/disconnect] asks nothing of the browser
    either, and leaves the server without a handler. *)
Theorem disconnect_keeps_browser (h : PlaywrightCDPHandler.t) (s : St (Bridge X)) :
  PlaywrightCDPHandler.disconnect (h, s)
  = (Ok tt,
     (PlaywrightCDPHandler.mk (PlaywrightCDPHandler.cdpEndpoint h) None None [] false,
      mkSt (world s)
           (events s ++ [EvLog LvInfo
                           (LogMsg "Disconnected from Chrome (browser remains open)" [])])))
  /\ exists reply s' added,
       post_mcp_disconnect s = (Ok reply, s')
       /\ events s' = (events s ++ added)%list
       /\ Forall (fun ev => to_browser ev = false) added
       /\ playwrightCDP (world s') = None.
Proof.
  split; [apply handler_disconnect_run |].
  destruct s as [[x en mc mt ic ga cdp ss] evs].
  destruct cdp as [[ep [br |] ct pg [|]] |]; destruct mc;
    cbv -[app to_browser mcp_close];
    try (destruct (mcp_close x) as [[[] | err] x']);
    do 3 eexists; (split; [reflexivity |]);
    (split; [first [ reflexivity
                   | rewrite <- app_assoc; reflexivity
                   | symmetry; apply app_nil_r ]
            | split; [repeat constructor | reflexivity]]).
Qed.

(** *** The session store and the background task *)

Lemma updateSession_run (sid : string) (patch : Patch) (s : St (Bridge X))
  (sess : Session) (now : string) (x' : X) :
  sessions (world s) !! sid = Some sess ->
  date_toISOString (ext (world s)) = (Ok now, x') ->
  updateSession sid patch s
  = (Ok tt,
     mkSt (set_sessions (<[sid := apply_patch sess patch now]> (sessions (world s)))
                        (with_ext x' (world s)))
          (events s ++ [EvDate])).
Proof.
  intros Hsess Hdate.
  unfold updateSession, bind, global, gets. cbv beta. rewrite Hsess.
  unfold call, perform, on_ext. rewrite Hdate. reflexivity.
Qed.

(** When [runTaskSession] returns, the background task of [/gemini/chat]
    marks the session [finished] and stores what it returned, whether
    that has [success] true or false; it marks a session [error] only
    when something is thrown. *)
Lemma background_session_finished (agent : Agent) (sid : string) (message context : JsVal)
  (options : option RequestOptions) (s s1 s2 : St (Bridge X)) (r : SessionResult)
  (sess : Session) (now : string) (x' : X) :
  updateSession sid (running_patch message) s = (Ok tt, s1) ->
  GeminiAgent.runTaskSession agent message (js_or context (JObj []))
                             (background_options sid options) s1 = (Ok (Some r), s2) ->
  sessions (world s2) !! sid = Some sess ->
  date_toISOString (ext (world s2)) = (Ok now, x') ->
  exists s3,
    background_session agent sid message context options s = (Ok tt, s3)
    /\ sessions (world s3) !! sid = Some (apply_patch sess (finished_patch r) now)
    /\ status (apply_patch sess (finished_patch r) now) = "finished"
    /\ result (apply_patch sess (finished_patch r) now) = Some r.
Proof.
  intros Hfirst Hrun Hsess Hdate.
  eexists. split.
  - unfold background_session, try_catch, bind.
    unfold running_patch in Hfirst. rewrite Hfirst.
    unfold background_options in Hrun. rewrite Hrun.
    fold (finished_patch r).
    rewrite (updateSession_run sid (finished_patch r) s2 sess now x' Hsess Hdate).
    reflexivity.
  - cbn [world sessions set_sessions]. rewrite lookup_insert_eq.
    split; [reflexivity |]. split; reflexivity.
Qed.

End ServerFacts.

(** ** The markers and the server *)

Section HandlerQuiet.
Context {W : Type} {P : PlaywrightEnv W}.
Import PlaywrightCDPHandler.

Ltac quiet_handler :=
  repeat first
    [ apply quiet_snd_ret | apply quiet_snd_throw
    | apply quiet_snd_gets | apply quiet_snd_modify_fst
    | apply quiet_snd_lift; first [apply quiet_perform; reflexivity
                                  | apply quiet_logger; reflexivity]
    | apply quiet_snd_try_catch | apply quiet_snd_bind
    | match goal with
      | |- forall _, _ => intro
      | |- quiet_snd (match ?x with _ => _ end) => destruct x
      | |- quiet_snd (if ?x then _ else _) => destruct x
      end ].

Lemma getPage_quiet (pageId : JsVal) : quiet_snd (getPage pageId).
Proof. unfold getPage, this, update, io. quiet_handler. Qed.

Lemma page_call_quiet (ev : Event) : to_browser ev = true -> quiet_snd (page_call ev).
Proof.
  intros H. unfold page_call, io. apply quiet_snd_lift. apply quiet_perform.
  destruct ev; try discriminate; reflexivity.
Qed.

Ltac quiet_method :=
  repeat first
    [ apply getPage_quiet | apply page_call_quiet; reflexivity
    | apply quiet_snd_ret | apply quiet_snd_throw
    | apply quiet_snd_lift; apply quiet_perform; reflexivity
    | apply quiet_snd_try_catch | apply quiet_snd_bind
    | match goal with
      | |- forall _, _ => intro
      | |- quiet_snd (match ?x with _ => _ end) => destruct x
      end ].

Lemma navigate_quiet (url pageId : JsVal) : quiet_snd (navigate url pageId).
Proof. unfold navigate. quiet_method. Qed.

Lemma screenshot_quiet (options pageId : JsVal) : quiet_snd (screenshot options pageId).
Proof. unfold screenshot. quiet_method. Qed.

Lemma click_quiet (selector options pageId : JsVal) : quiet_snd (click selector options pageId).
Proof. unfold click. quiet_method. Qed.

Lemma fill_quiet (selector text options pageId : JsVal) :
  quiet_snd (fill selector text options pageId).
Proof. unfold fill. quiet_method. Qed.

Lemma type_quiet (selector text options pageId : JsVal) :
  quiet_snd (type selector text options pageId).
Proof. unfold type. quiet_method. Qed.

Lemma evaluate_quiet (script pageId : JsVal) : quiet_snd (evaluate script pageId).
Proof. unfold evaluate, page_evaluate, io. quiet_method. Qed.

Lemma waitForSelector_quiet (selector options pageId : JsVal) :
  quiet_snd (waitForSelector selector options pageId).
Proof. unfold waitForSelector. quiet_method. Qed.

Lemma getAccessibilitySnapshot_quiet (pageId : JsVal) :
  quiet_snd (getAccessibilitySnapshot pageId).
Proof. unfold getAccessibilitySnapshot. quiet_method. Qed.

End HandlerQuiet.

Section ServerQuiet.
Context {X : Type} {B : Builtins} {SE : ServerEnv X} {PE : PlaywrightEnv X}.
Import Server.
#[local] Existing Instance playwright_of_bridge.
#[local] Existing Instance agent_env.

Lemma on_handler_quiet {A : Type} (h : PlaywrightCDPHandler.t)
  (m : M (PlaywrightCDPHandler.t * St (Bridge X)) A) :
  quiet_snd m -> quiet (on_handler h m).
Proof.
  intros Hm s. unfold on_handler, Server.S in *. specialize (Hm (h, s)).
  destruct (m (h, s)) as [r [h' s']]. exact Hm.
Qed.

Lemma call_quiet {A : Type} (ev : Event) (f : X -> Outcome A * X) :
  is_marker ev = false -> quiet (call ev f).
Proof. apply quiet_perform. Qed.

Lemma assign_quiet (f : Bridge X -> Bridge X) : quiet (assign f).
Proof. intros s. reflexivity. Qed.

Lemma cdp_route_quiet (h : PlaywrightCDPHandler.t) (toolName args : JsVal) (msg : string) :
  quiet (cdp_route h toolName args msg).
Proof.
  unfold cdp_route.
  repeat match goal with
         | |- quiet (if ?c then _ else _) => destruct c
         end;
    repeat first
      [ apply quiet_throw | apply quiet_ret
      | apply on_handler_quiet;
        first [ apply navigate_quiet | apply screenshot_quiet | apply click_quiet
              | apply fill_quiet | apply type_quiet | apply evaluate_quiet
              | apply getAccessibilitySnapshot_quiet | apply waitForSelector_quiet ]
      | apply quiet_bind
      | match goal with |- forall _, _ => intro end ].
Qed.

Ltac quiet_server :=
  repeat first
    [ apply quiet_ret | apply quiet_throw | apply quiet_gets | apply assign_quiet
    | apply cdp_route_quiet
    | apply quiet_logger; reflexivity
    | apply call_quiet; reflexivity
    | apply quiet_try_catch | apply quiet_bind
    | match goal with
      | |- forall _, _ => intro
      | |- quiet (match ?x with _ => _ end) => destruct x
      | |- quiet (if ?x then _ else _) => destruct x
      end ].

Lemma wrapper_mcp_quiet (name arguments : JsVal) : quiet (wrapper_mcp name arguments).
Proof. unfold wrapper_mcp, global. quiet_server. Qed.

Lemma connected_handler_quiet : quiet (connected_handler (X:=X)).
Proof. unfold connected_handler, global. quiet_server. Qed.

Lemma wrapper_callTool_quiet (name arguments : JsVal) : quiet (wrapper_callTool name arguments).
Proof.
  unfold wrapper_callTool.
  apply quiet_bind; [apply quiet_logger; reflexivity | intros _].
  apply quiet_bind; [apply connected_handler_quiet | intros [h |]].
  - cbv zeta. destruct (negb _); [apply quiet_throw |].
    destruct (is_browser_tool name); [| apply wrapper_mcp_quiet].
    apply quiet_bind.
    + quiet_server.
    + intros [result |]; [apply quiet_ret | apply wrapper_mcp_quiet].
  - apply wrapper_mcp_quiet.
Qed.

Lemma wrapper_listTools_quiet : quiet (wrapper_listTools (X:=X)).
Proof. unfold wrapper_listTools, global. quiet_server. Qed.

Lemma updateSession_quiet (sid : string) (patch : Patch) : quiet (updateSession sid patch).
Proof. unfold updateSession, global. quiet_server. Qed.

(** The wrapper and the callback of the background task write no marker
    of their own: what is proved of sessions with a quiet [mcpClient]
    holds of the sessions the server runs. *)
Lemma server_env_quiet : quiet_env (agent_env (X:=X)).
Proof.
  split; [apply wrapper_listTools_quiet | apply wrapper_callTool_quiet].
Qed.

Lemma background_options_quiet (sid : string) (options : option RequestOptions) :
  quiet_options (background_options sid options).
Proof. intros u. apply updateSession_quiet. Qed.

End ServerQuiet.

(** ** More on the texts *)

Lemma append_cons (x : ascii) (a b : string) : String x a +:+ b = String x (a +:+ b).
Proof. reflexivity. Qed.

Lemma append_empty (b : string) : "" +:+ b = b.
Proof. reflexivity. Qed.

Lemma length_append (a b : string) :
  String.length (a +:+ b) = (String.length a + String.length b)%nat.
Proof.
  induction a as [| x a IH]; [reflexivity |].
  rewrite append_cons. simpl. rewrite IH. reflexivity.
Qed.

Lemma append_assoc (a b c : string) : (a +:+ b) +:+ c = a +:+ (b +:+ c).
Proof.
  induction a as [| x a IH]; [reflexivity |].
  rewrite !append_cons, IH. reflexivity.
Qed.

Lemma index_of_append (c : ascii) (pre rest : string) :
  index_of c pre = None ->
  index_of c (pre +:+ String c rest) = Some (String.length pre).
Proof.
  induction pre as [| a pre IH].
  - intros _. rewrite append_empty. simpl. rewrite Ascii.eqb_refl. reflexivity.
  - rewrite append_cons. simpl. destruct (Ascii.eqb c a); [discriminate |].
    destruct (index_of c pre); [discriminate |].
    intros _. rewrite IH by reflexivity. reflexivity.
Qed.

Lemma last_index_of_none (c : ascii) (s : string) :
  index_of c s = None -> last_index_of c s = None.
Proof.
  induction s as [| a s IH]; simpl; [reflexivity |].
  destruct (Ascii.eqb c a); [discriminate |].
  destruct (index_of c s); [discriminate |].
  intros _. rewrite IH by reflexivity. reflexivity.
Qed.

Lemma last_index_of_append (c : ascii) (a post : string) :
  index_of c post = None ->
  last_index_of c (a +:+ String c post) = Some (String.length a).
Proof.
  intros Hpost. induction a as [| x a IH].
  - rewrite append_empty. simpl.
    rewrite (last_index_of_none _ _ Hpost), Ascii.eqb_refl. reflexivity.
  - rewrite append_cons. simpl. rewrite IH. reflexivity.
Qed.

Lemma substring_prefix (body post : string) :
  String.substring 0 (String.length body) (body +:+ post) = body.
Proof.
  induction body as [| b body IHb].
  - rewrite append_empty. destruct post; reflexivity.
  - rewrite append_cons. simpl. rewrite IHb. reflexivity.
Qed.

Lemma substring_middle (pre body post : string) :
  String.substring (String.length pre) (String.length body) (pre +:+ body +:+ post) = body.
Proof.
  induction pre as [| a pre IH].
  - exact (substring_prefix body post).
  - rewrite append_cons. simpl. exact IH.
Qed.

(** The span of braces of a text that holds an object between a
    beginning without opening brace and an end without closing brace. *)
Lemma match_braces_span (pre mid post : string) :
  index_of "{" pre = None -> index_of "}" post = None ->
  match_braces (pre +:+ "{" +:+ mid +:+ "}" +:+ post) = Some ("{" +:+ mid +:+ "}").
Proof.
  intros Hpre Hpost. unfold match_braces.
  assert (E1 : pre +:+ "{" +:+ mid +:+ "}" +:+ post
               = pre +:+ String "{" (mid +:+ String "}" post)) by reflexivity.
  assert (E2 : pre +:+ "{" +:+ mid +:+ "}" +:+ post
               = (pre +:+ String "{" mid) +:+ String "}" post).
  { rewrite append_assoc. reflexivity. }
  assert (E3 : pre +:+ "{" +:+ mid +:+ "}" +:+ post
               = pre +:+ ("{" +:+ mid +:+ "}") +:+ post).
  { f_equal. rewrite !append_cons, !append_empty, append_assoc. reflexivity. }
  rewrite E1 at 1. rewrite (index_of_append _ _ _ Hpre).
  rewrite E2 at 1. rewrite (last_index_of_append _ _ _ Hpost).
  rewrite length_append. simpl.
  destruct (Nat.ltb_spec (String.length pre) (String.length pre + S (String.length mid))); [| lia].
  f_equal. rewrite E3.
  replace (String.length pre + S (String.length mid) - String.length pre + 1)%nat
    with (String.length ("{" +:+ mid +:+ "}")).
  - apply substring_middle.
  - rewrite append_cons, append_empty. simpl. rewrite length_append. simpl. lia.
Qed.

(** ** More on the agent *)

Section AgentExtras.
Context {W : Type} {B : Builtins} {E : AgentEnv W}.
Import GeminiAgent.

(** X1. A JSON object that stands in a text between a beginning without
    opening brace and an end without closing brace is what the parser
    returns: the prose or the code fence around a planned action is
    ignored. *)
Theorem json_in_prose (pre mid post : string) (parsed : JsObject) :
  index_of "{" pre = None -> index_of "}" post = None ->
  JSON_parse_object ("{" +:+ mid +:+ "}") = Some parsed ->
  parseGeminiResponse (pre +:+ "{" +:+ mid +:+ "}" +:+ post) = parsed.
Proof.
  intros Hpre Hpost Hparse. unfold parseGeminiResponse.
  rewrite (match_braces_span _ _ _ Hpre Hpost), Hparse. reflexivity.
Qed.


(** *** executeTool *)

Lemma find_evalTool_exact (this : Agent) (tools : list Tool) :
  availableTools this = Some tools ->
  In "browser_evaluate" (map t_name tools) ->
  t_name <$> find_evalTool this = Some "browser_evaluate".
Proof.
  intros Htools Hin. unfold find_evalTool. rewrite Htools. simpl.
  destruct (find (fun t => String.eqb (t_name t) "browser_evaluate") tools) as [t |] eqn:Hfind.
  - apply find_some in Hfind. destruct Hfind as [_ Hname].
    apply String.eqb_eq in Hname. simpl. rewrite Hname. reflexivity.
  - apply in_map_iff in Hin. destruct Hin as (t & Hname & Ht).
    pose proof (find_none _ _ Hfind t Ht) as Hno. simpl in Hno.
    rewrite Hname, String.eqb_refl in Hno. discriminate.
Qed.

(** [executeTool] on a tool it runs through the evaluate tool, when the
    catalogue has [browser_evaluate]. *)
Lemma executeTool_through_evaluate (this : Agent) (tools : list Tool)
  (toolName : string) (args : JsVal) (s : St W) :
  availableTools this = Some tools ->
  In "browser_evaluate" (map t_name tools) ->
  In toolName evaluateOnly ->
  executeTool this (JStr toolName) args s
  = match mcpClient_callTool (JStr "browser_evaluate")
            (JObj [("function", JStr (fnBody_for (JStr toolName) args))]) s with
    | (Ok result, s') => (Ok (JObj [("success", JBool true); ("result", result)]), s')
    | (Throw e, s') =>
        (Ok (JObj [("success", JBool false); ("error", JStr (err_message e))]),
         mkSt (world s') (events s' ++ [EvLog LvError (LogExecuteToolError e)]))
    end.
Proof.
  intros Htools Hin Hname.
  pose proof (find_evalTool_exact this tools Htools Hin) as Hfind.
  destruct (find_evalTool this) as [evalTool |] eqn:He; [| discriminate].
  simpl in Hfind. inversion Hfind as [Hn].
  assert (Hmem : existsb (is_str (JStr toolName)) evaluateOnly = true).
  { apply existsb_exists. exists toolName. split; [exact Hname |].
    simpl. apply String.eqb_refl. }
  unfold executeTool, try_catch, bind. rewrite Hmem, He, Hn.
  destruct (mcpClient_callTool _ _ s) as [[result | e] s']; reflexivity.
Qed.

(** X2. When the catalogue has a tool named [browser_evaluate], the tools
    [browser_type], [browser_click], [browser_press_key] and
    [browser_fill_form] are never called by name: [executeTool] calls
    [browser_evaluate] once, with the page function built for the tool
    as its [function] (the texts of lines 759-794, 797-811, 814 and
    817), and returns [{ success: true, result }] with what that call
    returns, or [{ success: false, error }] with the message of what it
    throws. *)
Theorem evaluate_only_tools_go_through_evaluate (this : Agent) (tools : list Tool)
  (args : JsVal) (s : St W) :
  availableTools this = Some tools ->
  In "browser_evaluate" (map t_name tools) ->
  let through (toolName text : string) :=
    executeTool this (JStr toolName) args s
    = match mcpClient_callTool (JStr "browser_evaluate")
              (JObj [("function", JStr text)]) s with
      | (Ok result, s') => (Ok (JObj [("success", JBool true); ("result", result)]), s')
      | (Throw e, s') =>
          (Ok (JObj [("success", JBool false); ("error", JStr (err_message e))]),
           mkSt (world s') (events s' ++ [EvLog LvError (LogExecuteToolError e)]))
      end in
  let arg (k : string) :=
    if truthy args && truthy (get_prop args k) then get_prop args k else JStr "" in
  let flag (k : string) :=
    if truthy args && truthy (get_prop args k) then "true" else "false" in
  through "browser_type"
    ("() => {" +:+ nl +:+
     "              try {" +:+ nl +:+
     "                const hint = " +:+ JSON_stringify (js_or (arg "element") (JStr "")) +:+ ".toLowerCase();" +:+ nl +:+
     "                const visible = el => { const r = el.getBoundingClientRect(); return r.width>0 && r.height>0 && getComputedStyle(el).visibility !== 'hidden'; };" +:+ nl +:+
     "                const candidates = Array.from(document.querySelectorAll('input,textarea,[contenteditable]')).filter(visible);" +:+ nl +:+
     "                let el = null;" +:+ nl +:+
     "                if (hint) {" +:+ nl +:+
     "                  el = candidates.find(e => ((e.placeholder||'').toLowerCase().includes(hint) || (e.getAttribute('aria-label')||'').toLowerCase().includes(hint)));" +:+ nl +:+
     "                  if (!el) {" +:+ nl +:+
     "                    for (const e of candidates) {" +:+ nl +:+
     "                      if (e.id) {" +:+ nl +:+
     "                        const label = document.querySelector('label[for=" +:+ dq +:+ "'+e.id+'" +:+ dq +:+ "]');" +:+ nl +:+
     "                        if (label && label.textContent.toLowerCase().includes(hint)) { el = e; break; }" +:+ nl +:+
     "                      }" +:+ nl +:+
     "                    }" +:+ nl +:+
     "                  }" +:+ nl +:+
     "                }" +:+ nl +:+
     "                if (!el) el = candidates[0] || document.querySelector('input,textarea,[contenteditable]');" +:+ nl +:+
     "                if (!el) return { error: 'element-not-found' };" +:+ nl +:+
     "                el.focus();" +:+ nl +:+
     "                const txt = " +:+ JSON_stringify (arg "text") +:+ ";" +:+ nl +:+
     "                if (" +:+ flag "slowly" +:+ ") {" +:+ nl +:+
     "                  for (let i = 0; i < txt.length; i++) { el.value = el.value + txt[i]; el.dispatchEvent(new Event('input', {bubbles:true})); }" +:+ nl +:+
     "                } else {" +:+ nl +:+
     "                  el.value = txt;" +:+ nl +:+
     "                  el.dispatchEvent(new Event('input', {bubbles:true}));" +:+ nl +:+
     "                  el.dispatchEvent(new Event('change', {bubbles:true}));" +:+ nl +:+
     "                }" +:+ nl +:+
     "                if (" +:+ flag "submit" +:+ ") {" +:+ nl +:+
     "                  // try to submit via form or press Enter" +:+ nl +:+
     "                  if (el.form) { el.form.submit(); }" +:+ nl +:+
     "                  else { el.dispatchEvent(new KeyboardEvent('keydown', {key: 'Enter'})); }" +:+ nl +:+
     "                }" +:+ nl +:+
     "                return { status: 'typed' };" +:+ nl +:+
     "              } catch (e) { return { error: String(e) }; }" +:+ nl +:+
     "            }")
  /\ through "browser_click"
    ("() => {" +:+ nl +:+
     "              try {" +:+ nl +:+
     "                const hint = " +:+ JSON_stringify (js_or (arg "element") (JStr "")) +:+ ".toLowerCase();" +:+ nl +:+
     "                const visible = el => { const r = el.getBoundingClientRect(); return r.width>0 && r.height>0 && getComputedStyle(el).visibility !== 'hidden'; };" +:+ nl +:+
     "                const candidates = Array.from(document.querySelectorAll('button,a,input[type=button],[role=button]')).filter(visible);" +:+ nl +:+
     "                let el = null;" +:+ nl +:+
     "                if (hint) {" +:+ nl +:+
     "                  el = candidates.find(e => ((e.textContent||'').toLowerCase().includes(hint) || (e.getAttribute('aria-label')||'').toLowerCase().includes(hint)));" +:+ nl +:+
     "                }" +:+ nl +:+
     "                if (!el) el = candidates[0] || document.querySelector('button,a,input[type=button],[role=button]');" +:+ nl +:+
     "                if (!el) return { error: 'element-not-found' };" +:+ nl +:+
     "                el.click();" +:+ nl +:+
     "                return { status: 'clicked' };" +:+ nl +:+
     "              } catch (e) { return { error: String(e) }; }" +:+ nl +:+
     "            }")
  /\ through "browser_press_key"
    ("() => { try { document.activeElement && document.activeElement.dispatchEvent(new KeyboardEvent('keydown',{key:" +:+ JSON_stringify (arg "key") +:+ "})); return { status: 'key-pressed' }; } catch(e){return { error: String(e) } } }")
  /\ through "browser_fill_form"
    ("() => { try { for (const f of " +:+ JSON_stringify (js_or (if truthy args then get_prop args "fields" else args) (JArr [] [])) +:+ ") { try { const el = document.querySelector(f.ref) || document.querySelector('[name=" +:+ dq +:+ "'+f.name+'" +:+ dq +:+ "]'); if (!el) continue; el.focus(); el.value = f.value; el.dispatchEvent(new Event('input',{bubbles:true})); el.dispatchEvent(new Event('change',{bubbles:true})); } catch(e){} } return { status: 'filled' }; } catch(e){ return { error: String(e) }; } }").
Proof.
  intros Htools Hin through arg flag.
  split; [| split; [| split]];
    (unfold through;
     rewrite (executeTool_through_evaluate this tools _ args s Htools Hin);
     [reflexivity | cbn; auto]).
Qed.

(** *** computeRefIfMissing *)

Lemma computeRefIfMissing_without_tool (this : Agent) (toolName args hint : JsVal)
  (s : St W) :
  truthy (get_prop args "ref") = false ->
  find_scriptTool (default [] (availableTools this)) = None ->
  computeRefIfMissing this toolName args hint s = (Ok JNull, s).
Proof.
  intros Href Hfind. unfold computeRefIfMissing, try_catch.
  rewrite Href, andb_false_r.
  destruct (availableTools this) as [[| t tools] |]; try reflexivity.
  change (find_scriptTool (t :: tools) = None) in Hfind. rewrite Hfind. reflexivity.
Qed.

Lemma take_ref_chars_cons (c : ascii) (s : string) :
  ref_char c = true -> take_ref_chars (String c s) <> "".
Proof. intros H. simpl. rewrite H. discriminate. Qed.

Lemma match_ref_token_not_empty (s m : string) : match_ref_token s = Some m -> m <> "".
Proof.
  induction s as [| c s IH]; simpl; [discriminate |].
  destruct (ref_char c) eqn:Hc.
  - intros H. inversion H. discriminate.
  - destruct (Ascii.eqb c "#"); [| exact IH].
    destruct s as [| c' s']; [discriminate |].
    destruct (ref_char c'); [| exact IH].
    intros H. inversion H. discriminate.
Qed.

Lemma ref_of_response_shape (v : JsVal) :
  ref_of_response v = JNull \/ exists t, ref_of_response v = JStr t /\ t <> "".
Proof.
  assert (Hstr : forall x, truthy x = true -> typeof_string x = true ->
                           exists t, x = JStr t /\ t <> "").
  { intros [] Ht Hs; try discriminate. eexists. split; [reflexivity |].
    simpl in Ht. intros ->. discriminate. }
  unfold ref_of_response.
  destruct (truthy v) eqn:Hv; [| left; reflexivity]. cbn [negb].
  destruct (typeof_string v) eqn:Hs.
  { right. apply Hstr; assumption. }
  destruct (truthy (get_prop v "result")) eqn:H1;
    [destruct (typeof_string (get_prop v "result")) eqn:H1'; [right; apply Hstr; assumption |] |];
    cbn [andb];
    (destruct (truthy (get_prop v "output")) eqn:H2;
     [destruct (typeof_string (get_prop v "output")) eqn:H2'; [right; apply Hstr; assumption |] |]);
    cbn [andb];
    (destruct (truthy (get_prop v "value")) eqn:H3;
     [destruct (typeof_string (get_prop v "value")) eqn:H3'; [right; apply Hstr; assumption |] |]);
    cbn [andb];
    (destruct (match_ref_token (JSON_stringify v)) as [m |] eqn:Hm;
     [right; exists m; split; [reflexivity | eapply match_ref_token_not_empty; exact Hm]
     | left; reflexivity]).
Qed.

Lemma computeRefIfMissing_shape (this : Agent) (toolName args hint : JsVal) (s : St W) :
  truthy (get_prop args "ref") = false ->
  exists v s',
    computeRefIfMissing this toolName args hint s = (Ok v, s')
    /\ (v = JNull \/ exists t, v = JStr t /\ t <> "").
Proof.
  intros Href. unfold computeRefIfMissing, try_catch. rewrite Href, andb_false_r.
  destruct (availableTools this) as [[| t tools] |];
    try (do 2 eexists; split; [reflexivity | left; reflexivity]).
  destruct (find_scriptTool (t :: tools)) as [evalTool |];
    [| do 2 eexists; split; [reflexivity | left; reflexivity]].
  unfold bind. destruct (mcpClient_callTool _ _ s) as [[resp | e] s1].
  - do 2 eexists. split; [reflexivity |]. apply ref_of_response_shape.
  - rewrite logger_run. do 2 eexists. split; [reflexivity | left; reflexivity].
Qed.


(** X3. Without a ref in the arguments, [computeRefIfMissing] never
    throws, and what it returns is [null] or a text that is not empty;
    when the catalogue is missing, empty or has no tool to evaluate a
    script with, it returns [null] and asks nothing of the tools. *)
Theorem computed_ref_is_null_or_text (this : Agent) (toolName args hint : JsVal) (s : St W) :
  truthy (get_prop args "ref") = false ->
  exists v s',
    computeRefIfMissing this toolName args hint s = (Ok v, s')
    /\ (v = JNull \/ exists t, v = JStr t /\ t <> "")
    /\ (find_scriptTool (default [] (availableTools this)) = None -> v = JNull /\ s' = s).
Proof.
  intros Href.
  destruct (find_scriptTool (default [] (availableTools this))) as [evalTool |] eqn:Hfind.
  - destruct (computeRefIfMissing_shape this toolName args hint s Href)
      as (v & s' & Hrun & Hshape).
    exists v, s'. split; [exact Hrun |]. split; [exact Hshape | discriminate].
  - exists JNull, s. split; [apply computeRefIfMissing_without_tool; assumption |].
    split; [left; reflexivity | intros _; split; reflexivity].
Qed.

(** *** Sessions *)


(** X5. When the request to the planning service fails, the pass does not
    throw: it logs the error twice and returns [success: false] with the
    message of the error and the trace as it was, and so does the
    session. *)
Theorem planner_failure_ends_session (this : Agent) (task : JsVal) (options : Options W)
  (st : Loop) (s : St W) (e : JsError) (w' : W) (fuel : nat) :
  gemini_request this (prompt_of task st) (slice_last 5 (conversationHistory this)) (world s)
  = (Throw e, w') ->
  let failure := mkResult false (JStr (error_text e)) (loop_trace st) in
  let s' := mkSt w' (events s ++
                     [EvGemini (request_url this) (prompt_of task st)
                               (slice_last 5 (conversationHistory this));
                      EvLog LvError (LogGeminiAPIError e);
                      EvLog LvError (LogSessionError e)]) in
  session_iteration this task options st s = (Ok (inr failure), s')
  /\ ((Z.of_nat (iteration st) < maxIterations_of options)%Z ->
      session_loop (S fuel) this task options st s = (Ok (Some failure), s')).
Proof.
  intros Hreq failure s'.
  assert (Hpass : session_iteration this task options st s = (Ok (inr failure), s')).
  { unfold session_iteration, plan_action, callGeminiAPI, bind, try_catch, perform.
    unfold prompt_of in Hreq. rewrite Hreq. cbv beta iota. rewrite logger_run.
    unfold throw. cbv beta iota. rewrite logger_run. cbn [world events].
    unfold ret. subst s'. rewrite <- !app_assoc. reflexivity. }
  split; [exact Hpass |].
  intros Hlt. rewrite session_loop_step by exact Hlt. rewrite Hpass. reflexivity.
Qed.

(** What a pass leaves, whatever the planning service, the tools and the
    callback do. *)
Lemma pass_shape (this : Agent) (task : JsVal) (options : Options W) (st : Loop) (s : St W) :
  exists r s',
    session_iteration this task options st s = (Ok r, s')
    /\ match r with
       | inl st' =>
           iteration st' = (iteration st + 1)%nat
           /\ length (loop_trace st') = (length (loop_trace st) + 1)%nat
       | inr res => trace res = loop_trace st
       end.
Proof.
  unfold session_iteration, bind, try_catch.
  destruct (plan_action this task st s) as [[[text parsed] | e] s1]; cbn [snd fst].
  - destruct (is_str (lookup_prop "action" parsed) "call_tool").
    + destruct (guard_trips st parsed).
      * rewrite logger_run. do 2 eexists. split; reflexivity.
      * destruct (execute_action_returns this task options st parsed s1)
          as (resolved & toolResult & s2 & Hrun).
        rewrite Hrun. do 2 eexists. split; [reflexivity |].
        cbn [next_loop iteration loop_trace]. rewrite length_app. split; reflexivity.
    + unfold finish_action, bind.
      destruct (is_str _ "done" || is_str _ "respond" || negb (truthy _));
        rewrite logger_run; do 2 eexists; split; reflexivity.
  - rewrite logger_run. do 2 eexists. split; reflexivity.
Qed.

Lemma session_loop_within_budget (this : Agent) (task : JsVal) (options : Options W) :
  forall (fuel : nat) (st : Loop) (s : St W),
    (maxIterations_of options <= Z.of_nat (iteration st + fuel))%Z ->
    length (loop_trace st) = iteration st ->
    exists r s',
      session_loop fuel this task options st s = (Ok (Some r), s')
      /\ (Z.of_nat (length (trace r))
          <= Z.max (Z.of_nat (iteration st)) (maxIterations_of options))%Z.
Proof.
  induction fuel as [| fuel IH]; intros st s Hfuel Hlen.
  - rewrite session_loop_exhausted by lia.
    do 2 eexists. split; [reflexivity |]. cbn [trace]. lia.
  - destruct (Z.ltb_spec (Z.of_nat (iteration st)) (maxIterations_of options)) as [Hlt | Hge].
    + rewrite session_loop_step by exact Hlt.
      destruct (pass_shape this task options st s) as (r & s1 & Hrun & Hr).
      rewrite Hrun. destruct r as [st' | res].
      * destruct Hr as [Hi Hl].
        destruct (IH st' s1) as (r & s' & Hloop & Hbound); [lia | lia |].
        exists r, s'. split; [exact Hloop | lia].
      * exists res, s1. split; [reflexivity |]. rewrite Hr. lia.
    + rewrite session_loop_exhausted by exact Hge.
      do 2 eexists. split; [reflexivity |]. cbn [trace]. lia.
Qed.

(** X6. Whenever a session returns a result, the trace of the result has
    at most [maxIterations] steps (none when that is negative; 10 when
    it is 0 or missing), for an integer [maxIterations] and a callback
    that reads the update it is given. *)
Theorem session_trace_within_budget (this : Agent) (task context : JsVal)
  (options : Options W) (s0 s' : St W) (r : SessionResult) :
  runTaskSession this task context options s0 = (Ok (Some r), s') ->
  (Z.of_nat (length (trace r))
   <= Z.max 0 match maxIterations options with
              | Some n => if (n =? 0)%Z then 10 else n
              | None => 10
              end)%Z.
Proof.
  unfold runTaskSession.
  destruct (session_loop_within_budget this task options
              (Z.to_nat (maxIterations_of options)) initial_loop s0)
    as (r0 & s0' & Hrun & Hbound).
  - simpl. lia.
  - reflexivity.
  - rewrite Hrun. intros H. injection H as <- _. exact Hbound.
Qed.

(** X7. With a [maxIterations] that is a negative integer, not below
    -2^53, the session asks nothing of the planning service: it returns
    at once, [success: false], an empty trace and the message that the
    maximum, printed in decimal, was reached. *)
Theorem negative_budget_runs_nothing (this : Agent) (task context : JsVal)
  (options : Options W) (s0 : St W) (n : Z) :
  maxIterations options = Some n -> (- 2 ^ 53 <= n < 0)%Z ->
  runTaskSession this task context options s0
  = (Ok (Some (mkResult false (JStr ("Max iterations (" +:+ pretty n +:+ ") reached")) [])),
     s0).
Proof.
  intros Hn Hneg.
  assert (Hmax : maxIterations_of options = n).
  { unfold maxIterations_of. rewrite Hn. destruct (Z.eqb_spec n 0); [lia | reflexivity]. }
  unfold runTaskSession. rewrite session_loop_exhausted by (simpl; lia).
  rewrite Hmax. unfold max_iterations_message, number_text.
  replace (Z.abs n <=? 2 ^ 53)%Z with true; [reflexivity |].
  symmetry. apply Z.leb_le. lia.
Qed.

(** X8. What a pass returns does not depend on the options: not on the
    [onUpdate] callback, whether there is one, what it does to the
    outside and whether it throws. (A callback is given the update to
    read.) *)
Theorem update_callback_cannot_change_pass (this : Agent) (task : JsVal)
  (options options' : Options W) (st : Loop) (s : St W) :
  fst (session_iteration this task options st s)
  = fst (session_iteration this task options' st s).
Proof.
  unfold session_iteration, bind, try_catch.
  destruct (plan_action this task st s) as [[[text parsed] | e] s1]; cbn [snd fst];
    [| reflexivity].
  destruct (is_str (lookup_prop "action" parsed) "call_tool"); [| reflexivity].
  destruct (guard_trips st parsed); [reflexivity |].
  destruct (resolve_ref_returns this task parsed s1) as (resolved & s2 & Hres).
  destruct (executeTool_returns this (lookup_prop "tool" resolved)
              (js_or (lookup_prop "args" resolved) (JObj []))
              (executing_state st resolved s2)) as (toolResult & s3 & Hexe).
  destruct (notify_returns options
              (mkUpdate "running" (iteration st + 1) resolved toolResult
                        (loop_trace st ++ [step_of st resolved toolResult])) s3)
    as ([] & s4 & Hnot).
  destruct (notify_returns options'
              (mkUpdate "running" (iteration st + 1) resolved toolResult
                        (loop_trace st ++ [step_of st resolved toolResult])) s3)
    as ([] & s4' & Hnot').
  rewrite (execute_action_run _ _ _ _ _ _ _ _ _ _ _ Hres Hexe Hnot).
  rewrite (execute_action_run _ _ _ _ _ _ _ _ _ _ _ Hres Hexe Hnot').
  reflexivity.
Qed.

(** *** processMessage *)

Lemma same_agent_ret {A : Type} (a : A) : same_agent (ret a : M (Agent * St W) A).
Proof. intros ts. reflexivity. Qed.

Lemma same_agent_throw {A : Type} (e : JsError) : same_agent (throw e : M (Agent * St W) A).
Proof. intros ts. reflexivity. Qed.

Lemma same_agent_bind {A C : Type} (m : M (Agent * St W) A) (k : A -> M (Agent * St W) C) :
  same_agent m -> (forall a, same_agent (k a)) -> same_agent (bind m k).
Proof.
  intros Hm Hk ts. unfold bind. specialize (Hm ts).
  destruct (m ts) as [[a | e] ts1]; simpl in *.
  - rewrite Hk. exact Hm.
  - exact Hm.
Qed.

Lemma same_agent_with_this {A : Type} (f : Agent -> M (St W) A) : same_agent (with_this f).
Proof. intros ts. unfold with_this, lift_snd. destruct (f (fst ts) (snd ts)). reflexivity. Qed.

Ltac same_agent_steps :=
  repeat first
    [ apply same_agent_ret | apply same_agent_throw | apply same_agent_with_this
    | apply same_agent_bind
    | match goal with
      | |- forall _, _ => intro
      | |- same_agent (if ?c then _ else _) => destruct c
      | |- same_agent (match ?x with _ => _ end) => destruct x
      end ].

Lemma push_history_run (m : ChatMsg) (this : Agent) (s : St W) :
  push_history m (this, s) = (Ok tt, (with_history (conversationHistory this ++ [m]) this, s)).
Proof. reflexivity. Qed.

Lemma slice_last_short {A : Type} (n : nat) (l : list A) :
  (length l <= n)%nat -> slice_last n l = l.
Proof.
  intros H. unfold slice_last. replace (length l - n)%nat with 0%nat by lia. reflexivity.
Qed.

Lemma slice_last_length {A : Type} (n : nat) (l : list A) :
  length (slice_last n l) = Nat.min n (length l).
Proof. unfold slice_last. rewrite length_skipn. lia. Qed.

(** X9. When [processMessage], given a context that is not [null],
    returns, the history of the agent is the last ten of its former
    history followed by the message of the user and the response
    returned; nothing else of the agent has changed. *)
Theorem processMessage_keeps_last_ten (userMessage context : JsVal) (this this' : Agent)
  (s s' : St W) (response : JsVal) :
  context <> JNull ->
  processMessage userMessage context (this, s) = (Ok response, (this', s')) ->
  this' = with_history
            (slice_last 10 (conversationHistory this
                            ++ [mkChatMsg "user" userMessage;
                                mkChatMsg "assistant" response]))
            this
  /\ (length (conversationHistory this') <= 10)%nat.
Proof.
  intros _ H.
  assert (Hmain : this' = with_history
            (slice_last 10 (conversationHistory this
                            ++ [mkChatMsg "user" userMessage;
                                mkChatMsg "assistant" response])) this).
  2: { split; [exact Hmain |]. rewrite Hmain. cbn [with_history conversationHistory].
       rewrite slice_last_length. lia. }
  unfold processMessage, try_catch in H.
  match type of H with
  | match ?body with _ => _ end = _ => destruct body as [[a | e] ts1] eqn:Hbody
  end.
  2: { unfold bind, lift_snd, throw in H. rewrite logger_run in H. discriminate H. }
  inversion H; subst a ts1; clear H.
  unfold bind at 1 in Hbody. rewrite push_history_run in Hbody.
  set (this1 := with_history (conversationHistory this ++ [mkChatMsg "user" userMessage]) this)
    in *.
  unfold bind at 1 in Hbody.
  unfold with_this at 1, lift_snd at 1 in Hbody. cbn [fst snd] in Hbody.
  destruct (callGeminiAPI this1 _ _ s) as [[geminiResponse | e] s1]; [| discriminate].
  unfold bind at 1 in Hbody.
  match type of Hbody with
  | match ?m ?ts with _ => _ end = _ =>
      assert (Hkeep : same_agent m);
      [| specialize (Hkeep ts); destruct (m ts) as [[finalResponse | e] [this2 s2]] ]
  end.
  { destruct (is_str _ "call_tool").
    - apply same_agent_bind; [same_agent_steps |]. intros parsed.
      apply same_agent_bind; [same_agent_steps |]. intros toolResult.
      destruct (truthy _); same_agent_steps.
    - destruct (is_str _ "chain_tools"); [| same_agent_steps].
      destruct (iterate _); same_agent_steps. }
  2: discriminate.
  cbn [fst snd] in Hkeep. subst this2.
  unfold bind at 1 in Hbody. rewrite push_history_run in Hbody.
  unfold bind at 1 in Hbody. unfold gets at 1 in Hbody. cbn [fst] in Hbody.
  cbn [with_history conversationHistory] in Hbody.
  unfold this1 in Hbody. cbn [with_history conversationHistory] in Hbody.
  rewrite <- app_assoc in Hbody. cbn [app] in Hbody.
  unfold bind at 1 in Hbody.
  destruct (10 <? length _)%nat eqn:Hlen in Hbody.
  - unfold set_history, modify, ret in Hbody. cbn [fst snd] in Hbody.
    inversion Hbody; subst. reflexivity.
  - unfold ret in Hbody. inversion Hbody; subst.
    apply Nat.ltb_ge in Hlen. rewrite slice_last_short by exact Hlen. reflexivity.
Qed.


Lemma callGeminiAPI_throws (this : Agent) (prompt : string) (ctx : list ChatMsg)
  (s : St W) (e : JsError) (w' : W) :
  gemini_request this prompt ctx (world s) = (Throw e, w') ->
  callGeminiAPI this prompt ctx s
  = (Throw e,
     mkSt w' (events s ++ [EvGemini (request_url this) prompt ctx;
                           EvLog LvError (LogGeminiAPIError e)])).
Proof.
  intros H. unfold callGeminiAPI, try_catch, perform, bind. rewrite H.
  rewrite logger_run. cbn [world events]. rewrite <- app_assoc. reflexivity.
Qed.

(** X10. When the first request to the planning service fails,
    [processMessage], given a context that is not [null], throws that
    error, after logging it twice, and the message of the user stays in
    the history. *)
Theorem processMessage_failure_keeps_question (userMessage context : JsVal) (this : Agent)
  (s : St W) (e : JsError) (w' : W) :
  context <> JNull ->
  let this1 := with_history (conversationHistory this ++ [mkChatMsg "user" userMessage]) this in
  gemini_request this1 (chat_prompt userMessage context)
                 (slice_last 5 (conversationHistory this1)) (world s) = (Throw e, w') ->
  processMessage userMessage context (this, s)
  = (Throw e,
     (this1,
      mkSt w' (events s ++
               [EvGemini (request_url this1) (chat_prompt userMessage context)
                         (slice_last 5 (conversationHistory this1));
                EvLog LvError (LogGeminiAPIError e);
                EvLog LvError (LogProcessMessageError e)]))).
Proof.
  intros _ this1 Hreq.
  unfold processMessage, try_catch.
  unfold bind at 1. rewrite push_history_run. fold this1.
  unfold bind at 1. unfold with_this at 1, lift_snd at 1. cbn [fst snd].
  fold (chat_prompt userMessage context).
  rewrite (callGeminiAPI_throws _ _ _ _ _ _ Hreq).
  unfold bind, lift_snd, throw. cbn [fst snd]. rewrite logger_run. cbn [world events].
  rewrite <- !app_assoc. reflexivity.
Qed.


End AgentExtras.

(** ** More on the handler *)

Section HandlerExtras.
Context {W : Type} {P : PlaywrightEnv W}.
Import PlaywrightCDPHandler.

Lemma same_value_zero_refl (v : JsVal) : primitive v = true -> same_value_zero v v = true.
Proof.
  destruct v; simpl; try discriminate; intros _; try reflexivity.
  - destruct b; reflexivity.
  - destruct (PrimFloat.eqb f f); reflexivity.
  - apply String.eqb_refl.
Qed.

Lemma pages_get_set (key : JsVal) (page : PageRef) (ps : list (JsVal * PageRef)) :
  same_value_zero key key = true -> pages_get key (pages_set key page ps) = Some page.
Proof.
  intros Hk. induction ps as [| [k p] ps IH]; simpl.
  - rewrite Hk. reflexivity.
  - destruct (same_value_zero k key) eqn:H; simpl; rewrite H; [reflexivity | exact IH].
Qed.

Lemma pages_get_delete (key : JsVal) (ps : list (JsVal * PageRef)) :
  pages_get key (pages_delete key ps) = None.
Proof.
  unfold pages_delete. induction ps as [| [k p] ps IH]; [reflexivity |].
  rewrite filter_cons. cbn [fst]. destruct (same_value_zero k key) eqn:H; simpl.
  - exact IH.
  - rewrite H. exact IH.
Qed.

Lemma getPage_refuses (pageId : JsVal) (h : t) (s : St W) :
  isConnected h = false \/ context h = None ->
  getPage pageId (h, s) = (Throw not_connected, (h, s)).
Proof.
  intros H. unfold getPage, bind, this, gets. cbn [fst].
  destruct H as [-> | ->]; [reflexivity |]. destruct (isConnected h); reflexivity.
Qed.

Lemma getPage_known (pageId : JsVal) (h : t) (c : ContextRef) (page : PageRef) (s : St W) :
  isConnected h = true -> context h = Some c ->
  pages_get (page_key pageId) (pages h) = Some page ->
  getPage pageId (h, s) = (Ok page, (h, s)).
Proof.
  intros Hconn Hctx Hget. unfold getPage, bind, this, gets. cbn [fst].
  rewrite Hconn, Hctx, Hget. reflexivity.
Qed.

(** X12. On a handler that is not connected, or has no context, every
    operation on a page throws [Not connected to Chrome. Call connect()
    first.], and asks nothing of the browser. *)
Theorem operations_need_connection (h : t) (s : St W)
  (url selector text script options pageId : JsVal) :
  isConnected h = false \/ context h = None ->
  getPage pageId (h, s) = refused h s
  /\ navigate url pageId (h, s) = refused h s
  /\ screenshot options pageId (h, s) = refused h s
  /\ click selector options pageId (h, s) = refused h s
  /\ fill selector text options pageId (h, s) = refused h s
  /\ type selector text options pageId (h, s) = refused h s
  /\ evaluate script pageId (h, s) = refused h s
  /\ getContent pageId (h, s) = refused h s
  /\ waitForSelector selector options pageId (h, s) = refused h s
  /\ getAccessibilitySnapshot pageId (h, s) = refused h s.
Proof.
  intros H. pose proof (getPage_refuses pageId h s H) as Hget.
  unfold navigate, screenshot, click, fill, type, evaluate, getContent, waitForSelector,
    getAccessibilitySnapshot, bind.
  rewrite Hget. repeat split.
Qed.

(** X13. [getPage] returns the page the map has for the id, without asking
    the browser anything; for an id the map does not have it opens one
    page, and from then on returns that page for the id. *)
Theorem getPage_binds_a_page_once (pageId : JsVal) (h : t) (c : ContextRef) (s : St W) :
  isConnected h = true -> context h = Some c ->
  match pages_get (page_key pageId) (pages h) with
  | Some page => getPage pageId (h, s) = (Ok page, (h, s))
  | None =>
      forall page w',
        pw_newPage c (world s) = (Ok page, w') ->
        let h' := set_pages (pages_set (page_key pageId) page (pages h)) h in
        getPage pageId (h, s) = (Ok page, (h', mkSt w' (events s ++ [EvNewPage c])))
        /\ (primitive (page_key pageId) = true ->
            forall s2, getPage pageId (h', s2) = (Ok page, (h', s2)))
  end.
Proof.
  intros Hconn Hctx.
  destruct (pages_get (page_key pageId) (pages h)) as [page |] eqn:Hget.
  - eapply getPage_known; eassumption.
  - intros page w' Hnew h'. split.
    + unfold getPage, bind, this, gets, io, lift_snd, perform, update, modify.
      cbn [fst snd]. rewrite Hconn, Hctx, Hget. cbn [fst snd]. rewrite Hnew. reflexivity.
    + intros Hprim s2. apply (getPage_known pageId h' c); [exact Hconn | exact Hctx |].
      apply pages_get_set, same_value_zero_refl, Hprim.
Qed.

(** X14. [closePage] answers [Page not found], and does nothing, for an id
    the map does not have; it closes the page of an id the map has and
    removes the id, so that closing it again answers [Page not found]. *)
Theorem closePage_forgets_the_page (pageId : JsVal) (h : t) (s : St W) :
  match pages_get pageId (pages h) with
  | None => closePage pageId (h, s) = (Ok page_not_found, (h, s))
  | Some page =>
      forall v w',
        pw_page (EvPageClose page) (world s) = (Ok v, w') ->
        let h' := set_pages (pages_delete pageId (pages h)) h in
        closePage pageId (h, s)
        = (Ok ok_result, (h', mkSt w' (events s ++ [EvPageClose page])))
        /\ forall s2, closePage pageId (h', s2) = (Ok page_not_found, (h', s2))
  end.
Proof.
  destruct (pages_get pageId (pages h)) as [page |] eqn:Hget.
  - intros v w' Hclose h'. split.
    + unfold closePage, bind, this, gets, page_call, io, lift_snd, perform, update, modify.
      cbn [fst snd]. rewrite Hget. cbn [fst snd]. rewrite Hclose. reflexivity.
    + intros s2. unfold closePage, bind, this, gets. cbn [fst].
      subst h'. cbn [set_pages pages]. rewrite pages_get_delete. reflexivity.
  - unfold closePage, bind, this, gets. cbn [fst]. rewrite Hget. reflexivity.
Qed.

(** X16. On a connected handler, for a page it has, [evaluate] with a
    script that is no text (a number, a boolean, [null], an object)
    throws [Invalid script type: expected string or function] and
    evaluates nothing. *)
Theorem evaluate_rejects_what_is_no_text (script pageId : JsVal) (h : t) (c : ContextRef)
  (page : PageRef) (s : St W) :
  isConnected h = true -> context h = Some c ->
  pages_get (page_key pageId) (pages h) = Some page ->
  typeof_string script = false ->
  evaluate script pageId (h, s)
  = (Throw (Error "Invalid script type: expected string or function"), (h, s)).
Proof.
  intros Hconn Hctx Hget Hscript.
  unfold evaluate, bind. rewrite (getPage_known pageId h c page s Hconn Hctx Hget).
  destruct script; try reflexivity. discriminate.
Qed.


Lemma pages_set_preserves (key k : JsVal) (page : PageRef) (ps : list (JsVal * PageRef)) :
  pages_get key ps <> None -> pages_get key (pages_set k page ps) <> None.
Proof.
  induction ps as [| [k0 p0] ps IH]; simpl; [congruence |].
  destruct (same_value_zero k0 k) eqn:Hk; simpl;
    destruct (same_value_zero k0 key); try congruence; exact IH.
Qed.

Lemma index_pages_preserves (key : JsVal) (existing : list PageRef) :
  forall (index : nat) (ps : list (JsVal * PageRef)),
    pages_get key ps <> None -> pages_get key (index_pages index existing ps) <> None.
Proof.
  induction existing as [| page rest IH]; intros index ps H; simpl; [exact H |].
  apply IH, pages_set_preserves, H.
Qed.

Lemma page_0_is_set (page : PageRef) (ps : list (JsVal * PageRef)) :
  pages_get (JStr "page-0") (pages_set (JStr "page-0") page ps) <> None.
Proof. rewrite pages_get_set by reflexivity. discriminate. Qed.

(** X15. When [connect] returns, it returns [true], the handler is
    connected to the browser, has a context, and has a page for the id
    [page-0]; when it throws, the handler is not connected. *)
Theorem connect_outcome (h : t) (s : St W) :
  match connect (h, s) with
  | (Ok connected, (h', s')) =>
      connected = true
      /\ isConnectedToBrowser h' = true
      /\ context h' <> None
      /\ pages_get (JStr "page-0") (pages h') <> None
  | (Throw e, (h', s')) => isConnectedToBrowser h' = false
  end.
Proof.
  unfold connect, try_catch, bind, this, gets, log, io, update, modify, lift_snd, perform,
    logger, emit, modify, throw, ret.
  cbn [fst snd world events].
  destruct (pw_connectOverCDP _ _) as [[b | e] w1]; cbn [fst snd world events];
    [| reflexivity].
  destruct (pw_contexts _ _) as [[[| c contexts] | e] w2]; cbn [fst snd world events];
    [| | reflexivity].
  - destruct (pw_newContext _ _) as [[c | e] w3]; cbn [fst snd world events];
      [| reflexivity].
    destruct (pw_pages _ _) as [[[| page existing] | e] w4]; cbn [fst snd world events];
      [| | reflexivity].
    + destruct (pw_newPage _ _) as [[page | e] w5]; cbn [fst snd world events];
        [| reflexivity].
      repeat split; try discriminate. apply page_0_is_set.
    + repeat split; try discriminate.
      cbn [set_isConnected set_pages set_context set_browser pages index_pages].
      apply index_pages_preserves, page_0_is_set.
  - destruct (pw_pages _ _) as [[[| page existing] | e] w4]; cbn [fst snd world events];
      [| | reflexivity].
    + destruct (pw_newPage _ _) as [[page | e] w5]; cbn [fst snd world events];
        [| reflexivity].
      repeat split; try discriminate. apply page_0_is_set.
    + repeat split; try discriminate.
      cbn [set_isConnected set_pages set_context set_browser pages index_pages].
      apply index_pages_preserves, page_0_is_set.
Qed.

End HandlerExtras.

(** ** More on the server *)

Section ServerExtras.
Context {X : Type} {B : Builtins} {SE : ServerEnv X} {PE : PlaywrightEnv X}.
Import Server.
#[local] Existing Instance playwright_of_bridge.
#[local] Existing Instance agent_env.

Lemma cdp_route_unhandled (h : PlaywrightCDPHandler.t) (toolName args : JsVal)
  (unhandled : string) (s : St (Bridge X)) :
  handled_by_cdp toolName = false ->
  cdp_route h toolName args unhandled s = (Throw (Error unhandled), s).
Proof.
  unfold handled_by_cdp, cdp_route. intros H.
  repeat (apply orb_false_elim in H; destruct H as [H ?]).
  repeat match goal with Hx : _ = false |- _ => rewrite Hx; clear Hx end.
  reflexivity.
Qed.

(** X17. The names of the list [browserTools] are all browser tools, and
    the chain routes each of them to the handler: the four names of a
    navigation to [navigate], those of a screenshot to [screenshot],
    and so on for [click], [fill], [type], [evaluate], the
    accessibility snapshot and [waitForSelector], with the arguments
    the chain reads for each; a name with no branch makes the chain
    throw the error of its last line. *)
Theorem listed_browser_tools_are_routed (h : PlaywrightCDPHandler.t) (args : JsVal)
  (unhandled : string) :
  let target := js_or (get_prop args "selector") (get_prop args "ref") in
  let pageId := get_prop args "pageId" in
  let routed (tools : list string) (operation : M (St (Bridge X)) JsVal) :=
    Forall (fun tool => is_browser_tool (JStr tool) = true
                        /\ cdp_route h (JStr tool) args unhandled = operation) tools in
  browserTools
  = (["browser_navigate"; "browser_goto"; "playwright_navigate"; "playwright_goto"]
     ++ ["browser_screenshot"; "playwright_screenshot"]
     ++ ["browser_click"; "playwright_click"]
     ++ ["browser_fill"; "browser_type"; "playwright_fill"; "playwright_type"]
     ++ ["browser_evaluate"; "playwright_evaluate"]
     ++ ["browser_accessibility_snapshot"; "playwright_accessibility_snapshot"]
     ++ ["browser_wait_for"; "playwright_wait_for"])%list
  /\ routed ["browser_navigate"; "browser_goto"; "playwright_navigate"; "playwright_goto"]
            (on_handler h (PlaywrightCDPHandler.navigate
                             (js_or (get_prop args "url") (get_prop args "href")) pageId))
  /\ routed ["browser_screenshot"; "playwright_screenshot"]
            (screenshot <- on_handler h (PlaywrightCDPHandler.screenshot args pageId) ;;
             ret (JObj [("screenshot", screenshot); ("format", JStr "base64")]))
  /\ routed ["browser_click"; "playwright_click"]
            (on_handler h (PlaywrightCDPHandler.click target args pageId))
  /\ routed ["browser_fill"; "playwright_fill"]
            (on_handler h (PlaywrightCDPHandler.fill target
                             (js_or (get_prop args "text") (get_prop args "value"))
                             args pageId))
  /\ routed ["browser_type"; "playwright_type"]
            (on_handler h (PlaywrightCDPHandler.type target (get_prop args "text")
                                                     args pageId))
  /\ routed ["browser_evaluate"; "playwright_evaluate"]
            (on_handler h (PlaywrightCDPHandler.evaluate
                             (js_or (get_prop args "function") (get_prop args "script"))
                             pageId))
  /\ routed ["browser_accessibility_snapshot"; "playwright_accessibility_snapshot"]
            (on_handler h (PlaywrightCDPHandler.getAccessibilitySnapshot pageId))
  /\ routed ["browser_wait_for"; "playwright_wait_for"]
            (on_handler h (PlaywrightCDPHandler.waitForSelector target args pageId))
  /\ forall (toolName : JsVal) (s : St (Bridge X)),
       handled_by_cdp toolName = false ->
       cdp_route h toolName args unhandled s = (Throw (Error unhandled), s).
Proof.
  cbv zeta.
  split; [reflexivity |].
  repeat (split; [repeat constructor; reflexivity |]).
  intros toolName s. apply cdp_route_unhandled.
Qed.

Lemma connected_handler_same (s : St (Bridge X)) :
  exists cdp, connected_handler s = (Ok cdp, s).
Proof.
  unfold connected_handler, bind, global, gets.
  destruct (playwrightCDP (world s)) as [h |]; [| eauto].
  destruct (PlaywrightCDPHandler.isConnectedToBrowser h); eauto.
Qed.

(** X18. A tool whose name is not that of a browser tool goes to the MCP
    client whether or not a browser is attached, and nothing is asked of
    the browser. *)
Theorem other_tools_bypass_browser (name : string) (arguments : JsVal) (s : St (Bridge X)) :
  is_browser_tool (JStr name) = false ->
  wrapper_callTool (JStr name) arguments s
  = wrapper_mcp (JStr name) arguments (requested_state (JStr name) arguments s)
  /\ exists added,
       events (snd (wrapper_callTool (JStr name) arguments s)) = (events s ++ added)%list
       /\ Forall (fun ev => to_browser ev = false) added.
Proof.
  intros Htool.
  assert (Hrun : wrapper_callTool (JStr name) arguments s
                 = wrapper_mcp (JStr name) arguments (requested_state (JStr name) arguments s)).
  { unfold wrapper_callTool, bind. rewrite logger_run.
    fold (requested_state (JStr name) arguments s).
    destruct (connected_handler_same (requested_state (JStr name) arguments s)) as [cdp ->].
    destruct cdp as [h |]; [| reflexivity].
    cbn [has_includes negb]. rewrite Htool. reflexivity. }
  split; [exact Hrun |]. rewrite Hrun.
  unfold wrapper_mcp, bind, global, gets, call, perform.
  destruct (mcpClient (world (requested_state (JStr name) arguments s))).
  - cbn [negb]. destruct (on_ext _ _) as [[resp | e] b'].
    + rewrite logger_run. cbn [snd events requested_state].
      eexists. rewrite <- !app_assoc. split; [reflexivity |]. repeat constructor.
    + cbn [snd events requested_state].
      eexists. rewrite <- !app_assoc. split; [reflexivity |]. repeat constructor.
  - cbn [negb snd events requested_state throw].
    eexists. split; [reflexivity |]. repeat constructor.
Qed.

(** X19. Without a handler and without an MCP client, [executeTool] on the
    agent of the server returns [{ success: false, error: 'MCP client not
    connected' }] for every tool, and leaves the server as it was. *)
Theorem no_backend_fails_tool_call (this : Agent) (toolName args : JsVal)
  (s : St (Bridge X)) :
  playwrightCDP (world s) = None -> mcpClient (world s) = false ->
  exists s',
    GeminiAgent.executeTool this toolName args s
    = (Ok (JObj [("success", JBool false); ("error", JStr "MCP client not connected")]),
       s')
    /\ world s' = world s.
Proof.
  intros Hcdp Hclient.
  assert (Hcall : forall name arguments,
             wrapper_callTool name arguments s
             = (Throw (Error "MCP client not connected"), requested_state name arguments s)).
  { intros name arguments.
    unfold wrapper_callTool, bind. rewrite logger_run.
    fold (requested_state name arguments s).
    unfold connected_handler, bind, global, gets. cbn [world requested_state].
    rewrite Hcdp. unfold ret, wrapper_mcp, bind, global, gets. cbn [world requested_state].
    rewrite Hclient. reflexivity. }
  unfold GeminiAgent.executeTool, try_catch, bind. cbn [mcpClient_callTool agent_env].
  destruct (existsb _ _); [destruct (GeminiAgent.find_evalTool this) |];
    rewrite Hcall; rewrite logger_run; eexists; split; reflexivity.
Qed.

(** X20. The session [makeSession] has made is what [/gemini/session/:id]
    then answers for its id, with the status [created] and an empty
    trace; for another id, which the store does not have and which
    names no member of [Object.prototype], the answer is 404 and
    [updateSession] does nothing. *)
Theorem session_store_round_trip (s : St (Bridge X)) (sid now other : string)
  (patch : Patch) (x1 x2 : X) :
  randomUUID (ext (world s)) = (Ok sid, x1) ->
  date_toISOString x1 = (Ok now, x2) ->
  inherited other = false ->
  sessions (world s) !! other = None ->
  other <> sid ->
  exists s',
    makeSession s = (Ok sid, s')
    /\ get_gemini_session sid s'
       = (Ok (mkReply 200 (BodySessionRecord (created_session sid now))), s')
    /\ get_gemini_session other s'
       = (Ok (mkReply 404 (BodyError "session not found")), s')
    /\ updateSession other patch s' = (Ok tt, s').
Proof.
  intros Hid Hdate _ Hother Hne. eexists. split; [| split; [| split]].
  - unfold makeSession, bind, call, perform, on_ext, assign, modify.
    cbn [world events ext]. rewrite Hid. cbn [world events ext]. rewrite Hdate. reflexivity.
  - unfold get_gemini_session, bind, global, gets. cbn [world sessions set_sessions].
    rewrite lookup_insert_eq. reflexivity.
  - unfold get_gemini_session, bind, global, gets. cbn [world sessions set_sessions].
    rewrite lookup_insert_ne by congruence. cbn [sessions with_ext]. rewrite Hother. reflexivity.
  - unfold updateSession, bind, global, gets. cbn [world sessions set_sessions].
    rewrite lookup_insert_ne by congruence. cbn [sessions with_ext]. rewrite Hother. reflexivity.
Qed.

(** X23. [/gemini/chat] answers 400 to a request without a message, and
    then to one that comes when there is no agent; [/gemini/run-session]
    does the same for the task; neither changes anything. *)
Theorem chat_rejects_bad_requests (req : ChatRequest) (task context : JsVal)
  (options : option RequestOptions) (s : St (Bridge X)) :
  (truthy (req_message req) = false ->
   post_gemini_chat req s = (Ok (mkReply 400 (BodyError "Message is required"), None), s))
  /\ (truthy (req_message req) = true -> geminiAgent (world s) = None ->
      post_gemini_chat req s
      = (Ok (mkReply 400 (BodyError "Gemini agent not initialized. Please initialize with API key first."),
             None), s))
  /\ (truthy task = false ->
      post_gemini_run_session task context options s
      = (Ok (mkReply 400 (BodyError "task is required")), s))
  /\ (truthy task = true -> geminiAgent (world s) = None ->
      post_gemini_run_session task context options s
      = (Ok (mkReply 400 (BodyError "Gemini agent not initialized")), s)).
Proof.
  unfold post_gemini_chat, post_gemini_run_session, try_catch, bind, global, gets.
  repeat split.
  - intros ->. reflexivity.
  - intros -> ->. reflexivity.
  - intros ->. reflexivity.
  - intros -> ->. reflexivity.
Qed.

(** X24. The response [/gemini/chat] sends back is never empty nor blank,
    and a reply with a response starts no task. *)
Theorem chat_reply_is_never_blank (req : ChatRequest) (s s' : St (Bridge X))
  (response : JsVal) (task : option (M (St (Bridge X)) unit)) :
  post_gemini_chat req s = (Ok (mkReply 200 (BodyResponse response), task), s') ->
  truthy response = true
  /\ (forall text, response = JStr text -> is_blank text = false)
  /\ task = None.
Proof.
  unfold post_gemini_chat, try_catch, bind, global, gets.
  destruct (truthy (req_message req)); cbn [negb]; [| discriminate].
  destruct (geminiAgent (world s)) as [agent |]; [| discriminate].
  destruct (truthy (req_autoSession req) || _).
  { rewrite logger_run. destruct (makeSession _) as [[sid | e] s1].
    - discriminate.
    - rewrite logger_run. discriminate. }
  destruct (on_agent agent _ s) as [[r | e] s1].
  2: { rewrite logger_run. discriminate. }
  destruct (truthy r) eqn:Ht; cbn [negb orb].
  - destruct r as [| | bb | f | t | items named | props];
      try (unfold ret; intros H; inversion H; subst;
           split; [exact Ht |]; split; [discriminate | reflexivity]).
    destruct (is_blank t) eqn:Hb.
    + rewrite logger_run. unfold ret. intros H. inversion H; subst.
      split; [reflexivity |]. split; [| reflexivity].
      intros text Ht'. inversion Ht'. subst. vm_compute. reflexivity.
    + unfold ret. intros H. inversion H; subst.
      split; [exact Ht |]. split; [| reflexivity].
      intros text Ht'. inversion Ht'. subst. exact Hb.
  - rewrite logger_run. unfold ret. intros H. inversion H; subst.
    split; [reflexivity |]. split; [| reflexivity].
    intros text Ht'. inversion Ht'. subst. vm_compute. reflexivity.
Qed.

(** X27. After [/mcp/disconnect] has answered 200, the server has neither
    handler, nor MCP client, nor agent, its sessions are as they were,
    and [/gemini/chat] answers that the agent is not initialized. *)
Theorem disconnect_drops_agent (req : ChatRequest) (b : Body) (s s' : St (Bridge X)) :
  post_mcp_disconnect s = (Ok (mkReply 200 b), s') ->
  geminiAgent (world s') = None
  /\ isConnected (world s') = false
  /\ mcpClient (world s') = false
  /\ mcpTransport (world s') = false
  /\ playwrightCDP (world s') = None
  /\ sessions (world s') = sessions (world s)
  /\ (truthy (req_message req) = true ->
      post_gemini_chat req s'
      = (Ok (mkReply 400 (BodyError "Gemini agent not initialized. Please initialize with API key first."),
             None), s')).
Proof.
  intros H.
  assert (Hs : geminiAgent (world s') = None /\ isConnected (world s') = false
               /\ mcpClient (world s') = false /\ mcpTransport (world s') = false
               /\ playwrightCDP (world s') = None
               /\ sessions (world s') = sessions (world s)).
  { revert H. destruct s as [[x en mc mt ic ga cdp ss] evs].
    destruct cdp as [[ep [br |] ct pg [|]] |]; destruct mc;
      cbv -[app mcp_close];
      try (destruct (mcp_close x) as [[[] | err] x']);
      intros H; inversion H; subst; repeat split. }
  destruct Hs as (Hag & Hic & Hmc & Hmt & Hcdp & Hss).
  repeat (split; [assumption |]).
  intros Hmsg. unfold post_gemini_chat, try_catch, bind, global, gets.
  rewrite Hmsg, Hag. reflexivity.
Qed.

(** X26. With [USE_EXISTING_BROWSER] set to [false], [connectToMCP] probes
    no port and asks nothing of a browser, and leaves the handler of the
    server as it was. *)
Theorem no_probe_when_disabled (s : St (Bridge X)) :
  USE_EXISTING_BROWSER (env (world s)) = Some "false" ->
  exists connected s' added,
    connectToMCP s = (Ok connected, s')
    /\ events s' = (events s ++ added)%list
    /\ Forall (fun ev => is_fetch ev = false /\ to_browser ev = false) added
    /\ playwrightCDP (world s') = playwrightCDP (world s).
Proof.
  destruct s as [[x [cdpenv use key] mc mt ic ga cdp ss] evs]. cbn [world env USE_EXISTING_BROWSER].
  intros ->.
  destruct ic, mc, cdp as [h |], ga as [agent |], key as [[| c key] |];
    cbv -[app mcp_connect mcp_listTools];
    try (destruct (mcp_connect x) as [[[] | err] x1]);
    try (destruct (mcp_listTools x1) as [[tools | err] x2]);
    do 3 eexists;
    (split; [reflexivity |]);
    (split; [first [ symmetry; apply app_nil_r
                   | repeat rewrite <- app_assoc; reflexivity ] |]);
    (split; [repeat constructor | reflexivity]).
Qed.

Lemma ensure_connected_run (s : St (Bridge X)) :
  isConnected (world s) = true -> mcpClient (world s) = true ->
  ensure_connected s = (Ok true, s).
Proof.
  intros Hic Hmc. unfold ensure_connected, bind, global, gets.
  rewrite Hic. cbn [negb]. unfold ret. rewrite Hic, Hmc. reflexivity.
Qed.

Lemma install_agent_fails (apiKey : JsVal) (s : St (Bridge X)) (e : JsError) (x' : X) :
  mcpClient (world s) = true ->
  mcp_listTools (ext (world s)) = (Throw e, x') ->
  let agent := GeminiAgent.constructor (ToString apiKey) in
  install_agent apiKey s
  = (Ok false,
     mkSt (set_geminiAgent (Some agent) (with_ext x' (world s)))
          (events s ++ [EvMcpListTools; EvLog LvError (LogInitializeFailed e)])).
Proof.
  intros Hmc Hlist agent.
  unfold install_agent, bind. cbv zeta. cbn [assign modify].
  unfold GeminiAgent.initialize, try_catch, bind.
  cbn [mcpClient_listTools agent_env].
  unfold wrapper_listTools, bind, global, gets. cbn [world set_geminiAgent mcpClient].
  rewrite Hmc. cbn [negb]. unfold call, perform, on_ext. cbn [world ext set_geminiAgent events].
  rewrite Hlist. rewrite logger_run. unfold ret. cbn [world events fst snd].
  rewrite <- app_assoc. destruct (world s); reflexivity.
Qed.

(** X28. On a connected server whose tools cannot be listed,
    [/gemini/initialize] answers 500 and, when there was no agent,
    [/gemini/update-api-key] answers 200; both leave the server with the
    new agent, which has no tools. *)
Theorem failed_initialization_still_installs_agent (apiKey : JsVal) (s : St (Bridge X))
  (e : JsError) (x' : X) :
  truthy apiKey = true ->
  isConnected (world s) = true -> mcpClient (world s) = true ->
  mcp_listTools (ext (world s)) = (Throw e, x') ->
  let agent := GeminiAgent.constructor (ToString apiKey) in
  let s' := mkSt (set_geminiAgent (Some agent) (with_ext x' (world s)))
                 (events s ++ [EvMcpListTools; EvLog LvError (LogInitializeFailed e)]) in
  post_gemini_initialize apiKey s
  = (Ok (mkReply 500 (BodyError "Failed to initialize Gemini agent")), s')
  /\ geminiAgent (world s') = Some agent
  /\ availableTools agent = None
  /\ (geminiAgent (world s) = None ->
      post_gemini_update_api_key apiKey s
      = (Ok (mkReply 200 (BodyMessage "API key updated")), s')).
Proof.
  intros Hkey Hic Hmc Hlist agent s'.
  split; [| split; [reflexivity | split; [reflexivity |]]].
  - unfold post_gemini_initialize, try_catch. rewrite Hkey. cbn [negb].
    unfold bind at 1. rewrite (ensure_connected_run s Hic Hmc). cbn [negb].
    unfold bind. rewrite (install_agent_fails apiKey s e x' Hmc Hlist). reflexivity.
  - intros Hnone. unfold post_gemini_update_api_key, try_catch. rewrite Hkey. cbn [negb].
    unfold bind at 1. unfold global, gets. rewrite Hnone.
    unfold bind at 1. rewrite (ensure_connected_run s Hic Hmc). cbn [negb].
    unfold bind. rewrite (install_agent_fails apiKey s e x' Hmc Hlist). reflexivity.
Qed.

End ServerExtras.

(** ** What the server preserves *)

Section PreserveFacts.
Context {W : Type} (I : W -> Prop).

Lemma preserves_ret {A : Type} (a : A) : preserves I (ret a : M (St W) A).
Proof. intros s H. exact H. Qed.

Lemma preserves_throw {A : Type} (e : JsError) : preserves I (throw e : M (St W) A).
Proof. intros s H. exact H. Qed.

Lemma preserves_bind {A C : Type} (m : M (St W) A) (k : A -> M (St W) C) :
  preserves I m -> (forall a, preserves I (k a)) -> preserves I (bind m k).
Proof.
  intros Hm Hk s H. unfold bind. specialize (Hm s H).
  destruct (m s) as [[a | e] s1]; simpl in *.
  - apply Hk. exact Hm.
  - exact Hm.
Qed.

Lemma preserves_try_catch {A : Type} (m : M (St W) A) (h : JsError -> M (St W) A) :
  preserves I m -> (forall e, preserves I (h e)) -> preserves I (try_catch m h).
Proof.
  intros Hm Hh s H. unfold try_catch. specialize (Hm s H).
  destruct (m s) as [[a | e] s1]; simpl in *.
  - exact Hm.
  - apply Hh. exact Hm.
Qed.

Lemma preserves_gets {A : Type} (f : St W -> A) : preserves I (gets f).
Proof. intros s H. exact H. Qed.

Lemma preserves_logger (lv : LogLevel) (entry : LogEntry) : preserves I (@logger W lv entry).
Proof. intros s H. exact H. Qed.

Lemma preserves_perform {A : Type} (ev : Event) (f : W -> Outcome A * W) :
  io_preserves I f -> preserves I (perform ev f).
Proof.
  intros Hf s H. unfold perform. specialize (Hf (world s) H).
  destruct (f (world s)) as [r w']. exact Hf.
Qed.

Lemma preserves_snd_ret {T A : Type} (a : A) : preserves_snd I (ret a : M (T * St W) A).
Proof. intros ts H. exact H. Qed.

Lemma preserves_snd_throw {T A : Type} (e : JsError) : preserves_snd I (throw e : M (T * St W) A).
Proof. intros ts H. exact H. Qed.

Lemma preserves_snd_bind {T A C : Type} (m : M (T * St W) A) (k : A -> M (T * St W) C) :
  preserves_snd I m -> (forall a, preserves_snd I (k a)) -> preserves_snd I (bind m k).
Proof.
  intros Hm Hk ts H. unfold bind. specialize (Hm ts H).
  destruct (m ts) as [[a | e] ts1]; simpl in *.
  - apply Hk. exact Hm.
  - exact Hm.
Qed.

Lemma preserves_snd_try_catch {T A : Type} (m : M (T * St W) A) (h : JsError -> M (T * St W) A) :
  preserves_snd I m -> (forall e, preserves_snd I (h e)) -> preserves_snd I (try_catch m h).
Proof.
  intros Hm Hh ts H. unfold try_catch. specialize (Hm ts H).
  destruct (m ts) as [[a | e] ts1]; simpl in *.
  - exact Hm.
  - apply Hh. exact Hm.
Qed.

Lemma preserves_snd_lift {T A : Type} (m : M (St W) A) :
  preserves I m -> preserves_snd I (lift_snd m : M (T * St W) A).
Proof.
  intros Hm ts H. unfold lift_snd. specialize (Hm (snd ts) H).
  destruct (m (snd ts)) as [r s']. exact Hm.
Qed.

Lemma preserves_snd_gets {T A : Type} (f : T * St W -> A) : preserves_snd I (gets f).
Proof. intros ts H. exact H. Qed.

Lemma preserves_snd_modify_fst {T : Type} (f : T * St W -> T) :
  preserves_snd I (modify (fun ts : T * St W => (f ts, snd ts))).
Proof. intros ts H. exact H. Qed.

End PreserveFacts.

Section AgentPreserves.
Context {W : Type} {B : Builtins} {E : AgentEnv W} (I : W -> Prop).
Import GeminiAgent.
Hypothesis Henv : env_preserves I E.

Ltac preserves_agent_code :=
  repeat first
    [ apply preserves_ret | apply preserves_throw | apply preserves_gets | apply preserves_logger
    | apply preserves_perform; apply Henv
    | apply Henv
    | apply preserves_try_catch | apply preserves_bind
    | match goal with
      | |- forall _, _ => intro
      | |- preserves _ (if ?c then _ else _) => destruct c
      | |- preserves _ (match ?x with _ => _ end) => destruct x
      end ].

Lemma callGeminiAPI_preserves (this : Agent) (prompt : string) (ctx : list ChatMsg) :
  preserves I (callGeminiAPI this prompt ctx).
Proof. unfold callGeminiAPI. preserves_agent_code. Qed.

Lemma executeTool_preserves (this : Agent) (toolName args : JsVal) :
  preserves I (executeTool this toolName args).
Proof. unfold executeTool. preserves_agent_code. Qed.

Lemma computeRefIfMissing_preserves (this : Agent) (toolName args hint : JsVal) :
  preserves I (computeRefIfMissing this toolName args hint).
Proof. unfold computeRefIfMissing. preserves_agent_code. Qed.

Lemma resolve_ref_preserves (this : Agent) (task : JsVal) (parsed : JsObject) :
  preserves I (resolve_ref this task parsed).
Proof.
  unfold resolve_ref. apply preserves_bind; [apply computeRefIfMissing_preserves |].
  intros ref. cbv zeta. preserves_agent_code.
Qed.

Lemma resolve_ref_message_preserves (this : Agent) (userMessage : JsVal) (parsed : JsObject) :
  preserves I (resolve_ref_message this userMessage parsed).
Proof.
  unfold resolve_ref_message. apply preserves_bind; [apply computeRefIfMissing_preserves |].
  intros ref. cbv zeta. preserves_agent_code.
Qed.

Lemma initialize_preserves (this : Agent) : preserves I (initialize this).
Proof. unfold initialize. preserves_agent_code. Qed.

Lemma notify_preserves (options : Options W) (u : Update) :
  options_preserve I options -> preserves I (notify options u).
Proof.
  unfold options_preserve, notify. destruct (onUpdate options).
  - intros H. apply preserves_try_catch; [apply H | intros _; apply preserves_ret].
  - intros _. apply preserves_ret.
Qed.

Lemma session_iteration_preserves (this : Agent) (task : JsVal) (options : Options W) (st : Loop) :
  options_preserve I options -> preserves I (session_iteration this task options st).
Proof.
  intros Hopt. unfold session_iteration.
  apply preserves_try_catch; [| preserves_agent_code].
  apply preserves_bind.
  { unfold plan_action. apply preserves_bind; [apply callGeminiAPI_preserves |]. preserves_agent_code. }
  intros planned. cbv zeta.
  destruct (is_str _ "call_tool").
  - destruct (guard_trips st (snd planned)); [preserves_agent_code |].
    apply preserves_bind; [| preserves_agent_code].
    unfold execute_action.
    apply preserves_bind; [apply resolve_ref_preserves |]. intros resolved.
    apply preserves_bind; [apply preserves_logger |]. intros _. cbv zeta.
    apply preserves_bind; [apply executeTool_preserves |]. intros toolResult.
    apply preserves_bind; [apply notify_preserves; exact Hopt |]. preserves_agent_code.
  - apply preserves_bind; [| preserves_agent_code].
    unfold finish_action. preserves_agent_code.
Qed.

Lemma session_loop_preserves (this : Agent) (task : JsVal) (options : Options W) :
  options_preserve I options ->
  forall (fuel : nat) (st : Loop), preserves I (session_loop fuel this task options st).
Proof.
  intros Hopt fuel. induction fuel as [| fuel IH]; intros st; simpl.
  - destruct (_ <? _)%Z; apply preserves_ret.
  - destruct (_ <? _)%Z; [| apply preserves_ret].
    apply preserves_bind; [apply session_iteration_preserves; exact Hopt |].
    intros [st' | res]; [apply IH | apply preserves_ret].
Qed.

Lemma runTaskSession_preserves (this : Agent) (task context : JsVal) (options : Options W) :
  options_preserve I options -> preserves I (runTaskSession this task context options).
Proof. intros Hopt. apply session_loop_preserves. exact Hopt. Qed.

Lemma chain_tools_preserves (this : Agent) (calls : list JsVal) : preserves I (chain_tools this calls).
Proof.
  induction calls as [| toolCall rest IH]; [apply preserves_ret |].
  cbn [chain_tools].
  destruct toolCall; try apply preserves_throw;
    (apply preserves_bind; [apply executeTool_preserves |]; intros toolResult;
     apply preserves_bind; [exact IH |]; intros results; apply preserves_ret).
Qed.

Lemma with_this_preserves {A : Type} (f : Agent -> M (St W) A) :
  (forall this, preserves I (f this)) -> preserves_snd I (with_this f).
Proof. intros Hf ts. unfold with_this. apply preserves_snd_lift, Hf. Qed.

Lemma push_history_preserves (m : ChatMsg) : preserves_snd I (push_history (W:=W) m).
Proof. intros ts H. exact H. Qed.

Lemma processMessage_preserves (userMessage context : JsVal) :
  preserves_snd I (processMessage userMessage context).
Proof.
  unfold processMessage.
  apply preserves_snd_try_catch.
  2: { intros e. apply preserves_snd_bind; [apply preserves_snd_lift, preserves_logger |].
       intros _. apply preserves_snd_throw. }
  apply preserves_snd_bind; [apply push_history_preserves |]. intros _. cbv zeta.
  apply preserves_snd_bind.
  { apply with_this_preserves. intros this. apply callGeminiAPI_preserves. }
  intros geminiResponse.
  apply preserves_snd_bind.
  - destruct (is_str _ "call_tool").
    + apply preserves_snd_bind.
      { apply with_this_preserves. intros this. apply resolve_ref_message_preserves. }
      intros parsed.
      apply preserves_snd_bind.
      { apply with_this_preserves. intros this. apply executeTool_preserves. }
      intros toolResult.
      destruct (truthy _); [| apply preserves_snd_ret].
      cbv zeta. apply preserves_snd_bind; [| intros ?; apply preserves_snd_ret].
      apply with_this_preserves. intros this. apply callGeminiAPI_preserves.
    + destruct (is_str _ "chain_tools").
      * destruct (iterate _); [| apply preserves_snd_throw].
        apply preserves_snd_bind; [| intros ?; apply preserves_snd_ret].
        apply with_this_preserves. intros this. apply chain_tools_preserves.
      * apply preserves_snd_ret.
  - intros finalResponse.
    apply preserves_snd_bind; [apply push_history_preserves |]. intros _.
    apply preserves_snd_bind; [apply preserves_snd_gets |]. intros this.
    apply preserves_snd_bind; [| intros ?; apply preserves_snd_ret].
    destruct (10 <? _)%nat; [| apply preserves_snd_ret].
    intros ts H. exact H.
Qed.

End AgentPreserves.

Section HandlerPreserves.
Context {W : Type} {P : PlaywrightEnv W} (I : W -> Prop).
Import PlaywrightCDPHandler.
Hypothesis Hpw : playwright_preserves I P.

Lemma update_preserves (f : t -> t) : preserves_snd I (update (W:=W) f).
Proof. intros ts H. exact H. Qed.

Lemma log_preserves (lv : LogLevel) (e : LogEntry) : preserves_snd I (log (W:=W) lv e).
Proof. apply preserves_snd_lift, preserves_logger. Qed.

Ltac preserves_handler :=
  repeat first
    [ apply preserves_snd_ret | apply preserves_snd_throw | apply preserves_snd_gets
    | apply update_preserves | apply log_preserves
    | apply preserves_snd_lift; apply preserves_perform; apply Hpw
    | apply preserves_snd_try_catch | apply preserves_snd_bind
    | match goal with
      | |- forall _, _ => intro
      | |- preserves_snd _ (match ?x with _ => _ end) => destruct x
      | |- preserves_snd _ (if ?x then _ else _) => destruct x
      end ].

Lemma connect_preserves : preserves_snd I connect.
Proof. unfold connect, this, io. preserves_handler. Qed.

Lemma getPage_preserves (pageId : JsVal) : preserves_snd I (getPage pageId).
Proof. unfold getPage, this, io. preserves_handler. Qed.

Lemma page_call_preserves (ev : Event) : preserves_snd I (page_call ev).
Proof. unfold page_call, io. preserves_handler. Qed.

Ltac preserves_method :=
  repeat first
    [ apply getPage_preserves | apply page_call_preserves
    | apply preserves_snd_ret | apply preserves_snd_throw | apply preserves_snd_gets
    | apply update_preserves | apply log_preserves
    | apply preserves_snd_lift; apply preserves_perform; apply Hpw
    | apply preserves_snd_try_catch | apply preserves_snd_bind
    | match goal with
      | |- forall _, _ => intro
      | |- preserves_snd _ (match ?x with _ => _ end) => destruct x
      end ].

Lemma navigate_preserves (url pageId : JsVal) : preserves_snd I (navigate url pageId).
Proof. unfold navigate. preserves_method. Qed.

Lemma screenshot_preserves (options pageId : JsVal) : preserves_snd I (screenshot options pageId).
Proof. unfold screenshot. preserves_method. Qed.

Lemma click_preserves (selector options pageId : JsVal) :
  preserves_snd I (click selector options pageId).
Proof. unfold click. preserves_method. Qed.

Lemma fill_preserves (selector text options pageId : JsVal) :
  preserves_snd I (fill selector text options pageId).
Proof. unfold fill. preserves_method. Qed.

Lemma type_preserves (selector text options pageId : JsVal) :
  preserves_snd I (type selector text options pageId).
Proof. unfold type. preserves_method. Qed.

Lemma evaluate_preserves (script pageId : JsVal) : preserves_snd I (evaluate script pageId).
Proof. unfold evaluate, page_evaluate, io. preserves_method. Qed.

Lemma waitForSelector_preserves (selector options pageId : JsVal) :
  preserves_snd I (waitForSelector selector options pageId).
Proof. unfold waitForSelector. preserves_method. Qed.

Lemma getAccessibilitySnapshot_preserves (pageId : JsVal) :
  preserves_snd I (getAccessibilitySnapshot pageId).
Proof. unfold getAccessibilitySnapshot. preserves_method. Qed.

Lemma disconnect_preserves : preserves_snd I (disconnect (W:=W)).
Proof. unfold disconnect, this. preserves_method. Qed.

End HandlerPreserves.

Section ServerPreserves.
Context {X : Type} {B : Builtins} {SE : ServerEnv X} {PE : PlaywrightEnv X}.
Context (I : Bridge X -> Prop).
Import Server.
#[local] Existing Instance playwright_of_bridge.
#[local] Existing Instance agent_env.
(** [I] does not depend on the outside, nor on the handler, nor on the
    agent. *)
Hypothesis Hext : forall x b, I b -> I (with_ext x b).
Hypothesis Hcdp : forall v b, I b -> I (set_playwrightCDP v b).
Hypothesis Hagent : forall v b, I b -> I (set_geminiAgent v b).

Lemma on_ext_preserves {A : Type} (f : X -> Outcome A * X) : io_preserves I (on_ext f).
Proof.
  intros b H. unfold on_ext. destruct (f (ext b)) as [r x'] eqn:Hf. cbn [snd].
  apply (Hext x' b H).
Qed.

Lemma call_preserves {A : Type} (ev : Event) (f : X -> Outcome A * X) : preserves I (call ev f).
Proof. apply preserves_perform, on_ext_preserves. Qed.

Lemma playwright_of_bridge_preserves : playwright_preserves I playwright_of_bridge.
Proof. repeat split; intros; apply on_ext_preserves. Qed.

Lemma on_handler_preserves {A : Type} (h : PlaywrightCDPHandler.t)
  (m : M (PlaywrightCDPHandler.t * St (Bridge X)) A) :
  preserves_snd I m -> preserves I (on_handler h m).
Proof.
  intros Hm s H. unfold on_handler, Server.S in *. specialize (Hm (h, s) H).
  destruct (m (h, s)) as [r [h' s']]. cbn [snd world] in *.
  apply Hcdp. exact Hm.
Qed.

Lemma on_agent_preserves {A : Type} (agent : Agent) (m : M (Agent * St (Bridge X)) A) :
  preserves_snd I m -> preserves I (on_agent agent m).
Proof.
  intros Hm s H. unfold on_agent, Server.S in *. specialize (Hm (agent, s) H).
  destruct (m (agent, s)) as [r [agent' s']]. cbn [snd world] in *.
  apply Hagent. exact Hm.
Qed.

Lemma assign_agent_preserves (v : option Agent) : preserves I (assign (set_geminiAgent v)).
Proof. intros s H. apply Hagent. exact H. Qed.

Lemma assign_handler_preserves (v : option PlaywrightCDPHandler.t) :
  preserves I (assign (set_playwrightCDP v)).
Proof. intros s H. apply Hcdp. exact H. Qed.

Lemma cdp_route_preserves (h : PlaywrightCDPHandler.t) (toolName args : JsVal) (msg : string) :
  preserves I (cdp_route h toolName args msg).
Proof.
  pose proof playwright_of_bridge_preserves as Hpw.
  unfold cdp_route.
  repeat match goal with
         | |- preserves _ (if ?c then _ else _) => destruct c
         end;
    repeat first
      [ apply preserves_throw | apply preserves_ret
      | apply on_handler_preserves;
        first [ apply navigate_preserves | apply screenshot_preserves | apply click_preserves
              | apply fill_preserves | apply type_preserves | apply evaluate_preserves
              | apply getAccessibilitySnapshot_preserves | apply waitForSelector_preserves ];
        exact Hpw
      | apply preserves_bind
      | match goal with |- forall _, _ => intro end ].
Qed.

Ltac preserves_server :=
  repeat first
    [ apply preserves_ret | apply preserves_throw | apply preserves_gets | apply preserves_logger
    | apply call_preserves | apply assign_agent_preserves | apply assign_handler_preserves
    | apply cdp_route_preserves
    | apply preserves_try_catch | apply preserves_bind
    | match goal with
      | |- forall _, _ => intro
      | |- preserves _ (match ?x with _ => _ end) => destruct x
      | |- preserves _ (if ?x then _ else _) => destruct x
      end ].

Lemma wrapper_mcp_preserves (name arguments : JsVal) : preserves I (wrapper_mcp name arguments).
Proof. unfold wrapper_mcp, global. preserves_server. Qed.

Lemma connected_handler_preserves : preserves I (connected_handler (X:=X)).
Proof. unfold connected_handler, global. preserves_server. Qed.

Lemma wrapper_callTool_preserves (name arguments : JsVal) :
  preserves I (wrapper_callTool name arguments).
Proof.
  unfold wrapper_callTool.
  apply preserves_bind; [apply preserves_logger | intros _].
  apply preserves_bind; [apply connected_handler_preserves | intros [h |]].
  - cbv zeta. destruct (negb _); [apply preserves_throw |].
    destruct (is_browser_tool name); [| apply wrapper_mcp_preserves].
    apply preserves_bind.
    + preserves_server.
    + intros [result |]; [apply preserves_ret | apply wrapper_mcp_preserves].
  - apply wrapper_mcp_preserves.
Qed.

Lemma wrapper_listTools_preserves : preserves I (wrapper_listTools (X:=X)).
Proof. unfold wrapper_listTools, global. preserves_server. Qed.

Lemma server_env_preserves : env_preserves I (agent_env (X:=X)).
Proof.
  split; [| split].
  - intros this prompt ctx. apply on_ext_preserves.
  - apply wrapper_listTools_preserves.
  - apply wrapper_callTool_preserves.
Qed.

Lemma probe_ports_preserves (ports : list Z) : preserves I (probe_ports ports).
Proof.
  induction ports as [| port rest IH]; [apply preserves_ret |].
  cbn [probe_ports]. apply preserves_bind.
  - preserves_server.
  - intros [endpoint |]; [apply preserves_ret | exact IH].
Qed.

Lemma attach_existing_browser_preserves : preserves I (attach_existing_browser (X:=X)).
Proof.
  unfold attach_existing_browser.
  apply preserves_bind; [apply preserves_logger | intros _].
  apply preserves_bind; [apply probe_ports_preserves | intros [endpoint |]].
  - apply preserves_try_catch; [| preserves_server].
    apply preserves_bind; [apply assign_handler_preserves | intros _].
    apply preserves_bind; [| preserves_server].
    apply on_handler_preserves, connect_preserves, playwright_of_bridge_preserves.
  - preserves_server.
Qed.

Lemma auto_initialize_preserves : preserves I (auto_initialize (X:=X)).
Proof.
  unfold auto_initialize, global.
  apply preserves_try_catch; [| preserves_server].
  apply preserves_bind; [apply preserves_gets | intros envKey].
  apply preserves_bind; [apply preserves_gets | intros agent].
  destruct envKey as [key |]; [| apply preserves_ret].
  destruct agent; [apply preserves_ret |].
  destruct (String.eqb key ""); [apply preserves_ret |].
  apply preserves_bind; [apply preserves_logger | intros _].
  apply preserves_bind; [apply assign_agent_preserves | intros _].
  apply preserves_bind; [apply initialize_preserves, server_env_preserves | intros r].
  preserves_server.
Qed.

End ServerPreserves.

Section StorePreserves.
Context {X : Type} {B : Builtins} {SE : ServerEnv X} {PE : PlaywrightEnv X}.
Context (Q : gmap string Session -> Prop).
Import Server.
#[local] Existing Instance playwright_of_bridge.
#[local] Existing Instance agent_env.
Hypothesis HQ : store_closed Q.

Let I : Bridge X -> Prop := fun b => Q (sessions b).

Lemma store_ext (x : X) (b : Bridge X) : I b -> I (with_ext x b).
Proof. intros H. exact H. Qed.

Lemma store_cdp (v : option PlaywrightCDPHandler.t) (b : Bridge X) :
  I b -> I (set_playwrightCDP v b).
Proof. intros H. exact H. Qed.

Lemma store_agent (v : option Agent) (b : Bridge X) : I b -> I (set_geminiAgent v b).
Proof. intros H. exact H. Qed.

Ltac store_side := try first [exact store_ext | exact store_cdp | exact store_agent].

Lemma assign_flag_preserves (f : Bridge X -> Bridge X) :
  (forall b, sessions (f b) = sessions b) -> preserves I (assign f).
Proof. intros Hf s H. unfold I. cbn [assign modify snd world]. rewrite Hf. exact H. Qed.

Lemma makeSession_preserves : preserves I (makeSession (X:=X)).
Proof.
  unfold makeSession.
  apply preserves_bind; [apply call_preserves, store_ext | intros sid].
  apply preserves_bind; [apply call_preserves, store_ext | intros now].
  apply preserves_bind; [| intros _; apply preserves_ret].
  intros s H. cbn [assign modify snd world set_sessions sessions]. unfold I.
  cbn [sessions]. apply (proj1 HQ). exact H.
Qed.

Lemma updateSession_preserves (sid : string) (patch : Patch) : preserves I (updateSession sid patch).
Proof.
  intros s H. unfold updateSession, bind, global, gets. cbv beta.
  destruct (sessions (world s) !! sid) as [sess |] eqn:Hsess; [| exact H].
  unfold call, perform, on_ext, assign, modify.
  destruct (date_toISOString (ext (world s))) as [[now | e] x']; cbn [snd world sessions];
    unfold I; cbn [sessions set_sessions].
  - apply (proj2 HQ); assumption.
  - exact H.
Qed.

Ltac preserves_store :=
  repeat first
    [ apply preserves_ret | apply preserves_throw | apply preserves_gets | apply preserves_logger
    | apply call_preserves; exact store_ext
    | apply assign_flag_preserves; intros []; reflexivity
    | apply updateSession_preserves | apply makeSession_preserves
    | apply cdp_route_preserves; store_side
    | apply connected_handler_preserves
    | apply preserves_try_catch | apply preserves_bind
    | match goal with
      | |- forall _, _ => intro
      | |- preserves _ (match ?x with _ => _ end) => destruct x
      | |- preserves _ (if ?x then _ else _) => destruct x
      end ].

Lemma connectToMCP_preserves : preserves I (connectToMCP (X:=X)).
Proof.
  unfold connectToMCP, global.
  apply preserves_bind; [apply preserves_gets | intros connected].
  apply preserves_bind; [apply preserves_gets | intros client].
  destruct (connected && client); [apply preserves_ret |].
  apply preserves_try_catch; [| preserves_store].
  apply preserves_bind; [apply preserves_gets | intros useExisting].
  apply preserves_bind; [apply preserves_gets | intros fromEnv].
  apply preserves_bind.
  { destruct useExisting; [apply attach_existing_browser_preserves; store_side | apply preserves_ret]. }
  intros cdpEndpoint.
  apply preserves_bind; [apply preserves_gets | intros cdp].
  apply preserves_bind; [destruct cdp; preserves_store | intros _].
  do 5 (apply preserves_bind; [preserves_store | intros _]).
  apply preserves_bind; [preserves_store | intros _].
  apply preserves_bind; [apply auto_initialize_preserves; store_side | intros _].
  apply preserves_ret.
Qed.

Lemma ensure_connected_preserves : preserves I (ensure_connected (X:=X)).
Proof.
  unfold ensure_connected, global.
  apply preserves_bind; [apply preserves_gets | intros connected].
  apply preserves_bind.
  { destruct (negb connected); [| apply preserves_ret].
    apply preserves_bind; [apply connectToMCP_preserves | intros _; apply preserves_ret]. }
  intros _. preserves_store.
Qed.

Lemma install_agent_preserves (apiKey : JsVal) : preserves I (install_agent apiKey).
Proof.
  unfold install_agent. cbv zeta.
  apply preserves_bind; [apply assign_agent_preserves, store_agent | intros _].
  apply preserves_bind; [apply initialize_preserves, server_env_preserves; store_side | intros r].
  apply preserves_bind; [apply assign_agent_preserves, store_agent | intros _].
  apply preserves_ret.
Qed.

Lemma background_options_preserve (sid : string) (options : option RequestOptions) :
  options_preserve I (background_options sid options).
Proof. intros u. apply updateSession_preserves. Qed.

Lemma background_session_preserves (agent : Agent) (sid : string) (message context : JsVal)
  (options : option RequestOptions) :
  preserves I (background_session agent sid message context options).
Proof.
  unfold background_session.
  apply preserves_try_catch; [| intros e; apply updateSession_preserves].
  apply preserves_bind; [apply updateSession_preserves | intros _]. cbv zeta.
  apply preserves_bind.
  - apply runTaskSession_preserves.
    + apply server_env_preserves; store_side.
    + apply (background_options_preserve sid options).
  - intros [r |]; [apply updateSession_preserves | apply preserves_ret].
Qed.

Lemma store_is_kept : server_preserves I.
Proof.
  unfold server_preserves.
  split; [apply connectToMCP_preserves |].
  split.
  { unfold post_mcp_connect. apply preserves_try_catch; [| preserves_store].
    apply preserves_bind; [apply connectToMCP_preserves | preserves_store]. }
  split.
  { unfold get_mcp_tools. apply preserves_try_catch; [| preserves_store].
    apply preserves_bind; [apply ensure_connected_preserves | preserves_store]. }
  split.
  { intros toolName args. unfold post_mcp_tools, global.
    apply preserves_try_catch; [| preserves_store]. cbv zeta.
    apply preserves_bind; [apply preserves_logger | intros _].
    apply preserves_bind; [apply connected_handler_preserves | intros cdp].
    apply preserves_bind; [preserves_store |]. intros handled.
    destruct handled; [apply preserves_ret |].
    apply preserves_bind; [apply preserves_gets | intros connected].
    apply preserves_bind.
    { destruct (negb connected); [| apply preserves_ret].
      apply preserves_bind; [apply connectToMCP_preserves | intros _; apply preserves_ret]. }
    intros _. preserves_store. }
  split.
  { unfold post_mcp_disconnect, global. apply preserves_try_catch; [| preserves_store].
    apply preserves_bind; [apply connected_handler_preserves | intros cdp].
    apply preserves_bind.
    { destruct cdp; [| apply preserves_ret].
      apply on_handler_preserves; [exact store_cdp |].
      apply disconnect_preserves. }
    intros _.
    apply preserves_bind; [apply assign_handler_preserves, store_cdp | intros _].
    apply preserves_bind; [apply preserves_gets | intros client].
    apply preserves_bind; [destruct client; preserves_store | intros _].
    preserves_store. }
  split.
  { intros apiKey. unfold post_gemini_initialize. apply preserves_try_catch; [| preserves_store].
    destruct (negb (truthy apiKey)); [apply preserves_ret |].
    apply preserves_bind; [apply ensure_connected_preserves | intros ok].
    destruct (negb ok); [apply preserves_ret |].
    apply preserves_bind; [apply install_agent_preserves | preserves_store]. }
  split.
  { intros req. unfold post_gemini_chat, global. apply preserves_try_catch; [| preserves_store].
    apply preserves_bind; [apply preserves_gets | intros agent].
    destruct (negb _); [apply preserves_ret |].
    destruct agent as [agent |]; [| apply preserves_ret]. cbv zeta.
    destruct (truthy (req_autoSession req) || _).
    - preserves_store.
    - apply preserves_bind; [| preserves_store].
      apply on_agent_preserves; [exact store_agent |].
      apply processMessage_preserves, server_env_preserves; store_side. }
  split; [apply background_session_preserves |].
  split.
  { intros sid. unfold get_gemini_session, global. preserves_store. }
  split.
  { intros task context options. unfold post_gemini_run_session, global.
    apply preserves_try_catch; [| preserves_store].
    apply preserves_bind; [apply preserves_gets | intros agent].
    destruct (negb _); [apply preserves_ret |].
    destruct agent as [agent |]; [| apply preserves_ret].
    apply preserves_bind; [apply preserves_logger | intros _].
    apply preserves_bind; [| preserves_store].
    apply runTaskSession_preserves; [apply server_env_preserves; store_side | exact Logic.I]. }
  split.
  { unfold post_gemini_clear, global. apply preserves_try_catch; [| preserves_store].
    apply preserves_bind; [apply preserves_gets | intros [agent |]]; [| apply preserves_ret].
    apply preserves_bind; [apply assign_agent_preserves, store_agent | preserves_store]. }
  intros apiKey. unfold post_gemini_update_api_key, global.
  apply preserves_try_catch; [| preserves_store].
  destruct (negb (truthy apiKey)); [apply preserves_ret |].
  apply preserves_bind; [apply preserves_gets | intros [agent |]].
  - apply preserves_bind; [apply assign_agent_preserves, store_agent | preserves_store].
  - apply preserves_bind; [apply ensure_connected_preserves | intros ok].
    destruct (negb ok); [apply preserves_ret |].
    apply preserves_bind; [apply install_agent_preserves | preserves_store].
Qed.

End StorePreserves.

Section ServerInvariants.
Context {X : Type} {B : Builtins} {SE : ServerEnv X} {PE : PlaywrightEnv X}.
Import Server.
#[local] Existing Instance playwright_of_bridge.
#[local] Existing Instance agent_env.

(** X21. Every record of the session store has the key it is stored under
    as its [id], whatever requests the server handles. *)
Theorem session_ids_are_keys : server_preserves (store_ok (X:=X)).
Proof.
  apply (store_is_kept (fun store => forall k sess, store !! k = Some sess -> id sess = k)).
  split.
  - intros store sid now H k sess Hk.
    apply lookup_insert_Some in Hk. destruct Hk as [[<- <-] | [_ Hk]]; [reflexivity |].
    apply H, Hk.
  - intros store sid sess patch now H Hsid k sess' Hk.
    apply lookup_insert_Some in Hk. destruct Hk as [[<- <-] | [_ Hk]].
    + cbn [apply_patch id]. apply H, Hsid.
    + apply H, Hk.
Qed.

(** X22. A session that is in the store stays in the store, whatever
    requests the server handles. *)
Theorem sessions_are_never_removed (sid : string) :
  server_preserves (fun b : Bridge X => is_Some (sessions b !! sid)).
Proof.
  apply (store_is_kept (fun store => is_Some (store !! sid))).
  split.
  - intros store sid' now H. apply lookup_insert_is_Some. 
    destruct (decide (sid' = sid)); [left; assumption | right; split; assumption].
  - intros store sid' sess patch now H _. apply lookup_insert_is_Some.
    destruct (decide (sid' = sid)); [left; assumption | right; split; assumption].
Qed.


(** X25. [connectToMCP] never throws, and what it returns tells the state
    it leaves: [true] with the server connected and its MCP client set,
    [false] with the connection, the client and the transport
    reset. *)
Theorem connectToMCP_outcome (s : St (Bridge X)) :
  exists connected s',
    connectToMCP s = (Ok connected, s')
    /\ (connected = true ->
        isConnected (world s') = true /\ mcpClient (world s') = true)
    /\ (connected = false ->
        isConnected (world s') = false /\ mcpClient (world s') = false
        /\ mcpTransport (world s') = false).
Proof.
  unfold connectToMCP. unfold bind at 1 2. unfold global at 1 2, gets. cbv beta iota.
  destruct (isConnected (world s) && mcpClient (world s)) eqn:Hlink.
  { apply andb_true_iff in Hlink. exists true, s. split; [reflexivity |].
    split; [intros _; exact Hlink | discriminate]. }
  unfold try_catch.
  match goal with |- context [match ?body s with _ => _ end] =>
    destruct (body s) as [[connected | e] s1] eqn:Hbody end.
  2: { unfold bind, assign, logger, emit, modify, ret. cbn [world events].
       do 2 eexists. split; [reflexivity |]. split; [discriminate |].
       intros _. repeat split. }
  exists connected, s1. split; [reflexivity |].
  revert Hbody. unfold bind at 1 2. unfold global at 1 2, gets. cbv beta iota.
  unfold bind at 1.
  match goal with |- context [match ?m s with _ => _ end] =>
    destruct (m s) as [[cdpEndpoint | e] s2] end; [| discriminate].
  unfold bind at 1. unfold global at 1, gets. cbv beta iota.
  unfold bind at 1.
  match goal with |- context [match ?m s2 with _ => _ end] =>
    assert (Hlog : exists s3, m s2 = (Ok tt, s3)) by
      (destruct (playwrightCDP (world s2)); [eexists; reflexivity | rewrite logger_run; eauto]);
    destruct Hlog as [s3 ->] end.
  unfold bind at 1 2 3. unfold assign at 1 2, modify. cbv beta iota.
  match goal with |- context [call ?ev ?f ?s4] =>
    destruct (call ev f s4) as [[[] | e] s5] eqn:Hcall end; [| discriminate].
  assert (Hclient : mcpClient (world s5) = true).
  { revert Hcall. unfold call, perform, on_ext. cbn [world ext].
    destruct (mcp_connect _) as [r x']. intros H. inversion H. reflexivity. }
  unfold bind at 1. unfold assign at 1, modify. cbv beta iota.
  unfold bind at 1. rewrite logger_run. cbn [world events].
  unfold bind at 1.
  assert (Htail : forall (s6 s8 : St (Bridge X)) (r : bool),
             isConnected (world s6) = true -> mcpClient (world s6) = true ->
             (auto_initialize ;; ret true) s6 = (Ok r, s8) ->
             r = true /\ isConnected (world s8) = true /\ mcpClient (world s8) = true).
  { intros s6 s8 r Hc Hm. unfold bind.
    assert (Hkeep : preserves (fun b : Bridge X => isConnected b = true /\ mcpClient b = true)
                          auto_initialize)
      by (apply auto_initialize_preserves; intros; assumption).
    specialize (Hkeep s6 (conj Hc Hm)).
    destruct (auto_initialize s6) as [[[] | e] s7]; [| discriminate].
    unfold ret. intros H. inversion H; subst. split; [reflexivity | exact Hkeep]. }
  match goal with |- context [if ?c then _ else ret tt] => destruct c end;
    [unfold bind at 1 2; rewrite !logger_run | unfold ret at 1]; cbv beta iota;
    cbn [world events];
    (intros H; apply Htail in H;
     [ destruct H as (-> & Hi & Hmc); split; [intros _; split; assumption | discriminate]
     | reflexivity
     | cbn [world mcpClient set_isConnected]; destruct (world s5); exact Hclient ]).
Qed.

End ServerInvariants.

Section ModelPreserves.
Context {X : Type} {B : Builtins} {SE : ServerEnv X} {PE : PlaywrightEnv X}.
Import Server.
#[local] Existing Instance playwright_of_bridge.
#[local] Existing Instance agent_env.

Let I : Bridge X -> Prop := agent_model_ok.

Lemma model_ext (x : X) (b : Bridge X) : I b -> I (with_ext x b).
Proof. intros H. exact H. Qed.

Lemma model_cdp (v : option PlaywrightCDPHandler.t) (b : Bridge X) :
  I b -> I (set_playwrightCDP v b).
Proof. intros H. exact H. Qed.

Ltac model_side := try first [exact model_ext | exact model_cdp].

Lemma assign_other_preserves (f : Bridge X -> Bridge X) :
  (forall b, geminiAgent (f b) = geminiAgent b) -> preserves I (assign f).
Proof.
  intros Hf s H agent. cbn [assign modify snd world]. rewrite Hf. apply H.
Qed.

Lemma assign_agent_model (v : option Agent) :
  (forall agent, v = Some agent -> model agent = "gemini-2.5-flash") ->
  preserves I (assign (set_geminiAgent v)).
Proof. intros Hv s _ agent. cbn [assign modify snd world set_geminiAgent geminiAgent]. apply Hv. Qed.

Lemma initialize_model (this : Agent) (s : St (Bridge X)) (r : bool * Agent)
  (s' : St (Bridge X)) :
  GeminiAgent.initialize this s = (Ok r, s') -> model (snd r) = model this.
Proof.
  unfold GeminiAgent.initialize, try_catch, bind.
  destruct (mcpClient_listTools s) as [[tools | e] s1].
  - unfold ret. intros H. inversion H. reflexivity.
  - rewrite logger_run. unfold ret. intros H. inversion H. reflexivity.
Qed.

(** The lines that make an agent and initialize it leave an agent with
    the one model. *)
Lemma fresh_agent_model (key : string) (s : St (Bridge X)) :
  I (world s) ->
  match GeminiAgent.initialize (GeminiAgent.constructor key)
          (mkSt (set_geminiAgent (Some (GeminiAgent.constructor key)) (world s)) (events s)) with
  | (Ok r, s2) => I (set_geminiAgent (Some (snd r)) (world s2))
  | (Throw e, s2) => I (world s2)
  end.
Proof.
  intros H.
  set (agent := GeminiAgent.constructor key).
  set (s1 := mkSt (set_geminiAgent (Some agent) (world s)) (events s)).
  assert (H1 : I (world s1)).
  { intros a Ha. inversion Ha; subst. reflexivity. }
  assert (Hinit : preserves I (GeminiAgent.initialize agent))
    by (apply initialize_preserves, server_env_preserves; model_side).
  specialize (Hinit s1 H1).
  destruct (GeminiAgent.initialize agent s1) as [[r | e] s2] eqn:Hrun; [| exact Hinit].
  intros a Ha. cbn in Ha. inversion Ha; subst.
  rewrite (initialize_model _ _ _ _ Hrun). reflexivity.
Qed.

Lemma install_agent_model (apiKey : JsVal) : preserves I (install_agent apiKey).
Proof.
  intros s H. unfold install_agent, bind. cbv zeta. cbn [assign modify].
  pose proof (fresh_agent_model (ToString apiKey) s H) as Hfresh.
  destruct (GeminiAgent.initialize _ _) as [[r | e] s2]; exact Hfresh.
Qed.

Lemma auto_initialize_model : preserves I (auto_initialize (X:=X)).
Proof.
  unfold auto_initialize, global.
  apply preserves_try_catch; [| intros e; apply preserves_logger].
  apply preserves_bind; [apply preserves_gets | intros envKey].
  apply preserves_bind; [apply preserves_gets | intros agent].
  destruct envKey as [key |]; [| apply preserves_ret].
  destruct agent; [apply preserves_ret |].
  destruct (String.eqb key ""); [apply preserves_ret |].
  apply preserves_bind; [apply preserves_logger | intros _].
  intros s H. unfold bind. cbn [assign modify].
  pose proof (fresh_agent_model key s H) as Hfresh.
  destruct (GeminiAgent.initialize _ _) as [[r | e] s2]; [| exact Hfresh].
  destruct (fst r); rewrite logger_run; exact Hfresh.
Qed.

Lemma chat_model (agent : Agent) (userMessage context : JsVal) (s : St (Bridge X)) :
  model agent = "gemini-2.5-flash" ->
  I (world (snd (on_agent agent (GeminiAgent.processMessage userMessage context) s))).
Proof.
  intros Hm. unfold on_agent, Server.S.
  pose proof (keeps_model_processMessage userMessage context (agent, s)) as Hk.
  destruct (GeminiAgent.processMessage userMessage context (agent, s)) as [r [agent' s']].
  cbn [fst snd] in *. intros a Ha. cbn in Ha. injection Ha as Heq.
  rewrite <- Heq, Hk. exact Hm.
Qed.

Ltac preserves_model :=
  repeat first
    [ apply preserves_ret | apply preserves_throw | apply preserves_gets | apply preserves_logger
    | apply call_preserves; exact model_ext
    | apply assign_other_preserves; intros []; reflexivity
    | apply assign_agent_model; discriminate
    | apply cdp_route_preserves; model_side
    | apply connected_handler_preserves
    | apply preserves_try_catch | apply preserves_bind
    | match goal with
      | |- forall _, _ => intro
      | |- preserves _ (match ?x with _ => _ end) => destruct x
      | |- preserves _ (if ?x then _ else _) => destruct x
      end ].

Lemma makeSession_model : preserves I (makeSession (X:=X)).
Proof. unfold makeSession. preserves_model. Qed.

Lemma updateSession_model (sid : string) (patch : Patch) : preserves I (updateSession sid patch).
Proof. unfold updateSession, global. preserves_model. Qed.

Lemma connectToMCP_model : preserves I (connectToMCP (X:=X)).
Proof.
  unfold connectToMCP, global.
  apply preserves_bind; [apply preserves_gets | intros connected].
  apply preserves_bind; [apply preserves_gets | intros client].
  destruct (connected && client); [apply preserves_ret |].
  apply preserves_try_catch; [| preserves_model].
  apply preserves_bind; [apply preserves_gets | intros useExisting].
  apply preserves_bind; [apply preserves_gets | intros fromEnv].
  apply preserves_bind.
  { destruct useExisting; [| apply preserves_ret].
    unfold attach_existing_browser.
    apply preserves_bind; [apply preserves_logger | intros _].
    apply preserves_bind; [apply probe_ports_preserves; model_side | intros [endpoint |]].
    - apply preserves_try_catch; [| preserves_model].
      apply preserves_bind; [preserves_model | intros _].
      apply preserves_bind; [| preserves_model].
      apply on_handler_preserves; [exact model_cdp |].
      apply connect_preserves, playwright_of_bridge_preserves; model_side.
    - preserves_model. }
  intros cdpEndpoint.
  apply preserves_bind; [apply preserves_gets | intros cdp].
  apply preserves_bind; [destruct cdp; preserves_model | intros _].
  do 5 (apply preserves_bind; [preserves_model | intros _]).
  apply preserves_bind; [preserves_model | intros _].
  apply preserves_bind; [apply auto_initialize_model | intros _].
  apply preserves_ret.
Qed.

Lemma ensure_connected_model : preserves I (ensure_connected (X:=X)).
Proof.
  unfold ensure_connected, global.
  apply preserves_bind; [apply preserves_gets | intros connected].
  apply preserves_bind.
  { destruct (negb connected); [| apply preserves_ret].
    apply preserves_bind; [apply connectToMCP_model | intros _; apply preserves_ret]. }
  intros _. preserves_model.
Qed.

Lemma background_session_model (agent : Agent) (sid : string) (message context : JsVal)
  (options : option RequestOptions) :
  preserves I (background_session agent sid message context options).
Proof.
  unfold background_session.
  apply preserves_try_catch; [| intros e; apply updateSession_model].
  apply preserves_bind; [apply updateSession_model | intros _]. cbv zeta.
  apply preserves_bind.
  - apply runTaskSession_preserves.
    + apply server_env_preserves; model_side.
    + intros u. apply updateSession_model.
  - intros [r |]; [apply updateSession_model | apply preserves_ret].
Qed.

(** X29. The agent the server holds has the model [gemini-2.5-flash],
    whatever requests the server handles. *)
Theorem server_agent_model : server_preserves (agent_model_ok (X:=X)).
Proof.
  unfold server_preserves. fold I.
  split; [apply connectToMCP_model |].
  split.
  { unfold post_mcp_connect. apply preserves_try_catch; [| preserves_model].
    apply preserves_bind; [apply connectToMCP_model | preserves_model]. }
  split.
  { unfold get_mcp_tools. apply preserves_try_catch; [| preserves_model].
    apply preserves_bind; [apply ensure_connected_model | preserves_model]. }
  split.
  { intros toolName args. unfold post_mcp_tools, global.
    apply preserves_try_catch; [| preserves_model]. cbv zeta.
    apply preserves_bind; [apply preserves_logger | intros _].
    apply preserves_bind; [apply connected_handler_preserves | intros cdp].
    apply preserves_bind; [preserves_model |]. intros handled.
    destruct handled; [apply preserves_ret |].
    apply preserves_bind; [apply preserves_gets | intros connected].
    apply preserves_bind.
    { destruct (negb connected); [| apply preserves_ret].
      apply preserves_bind; [apply connectToMCP_model | intros _; apply preserves_ret]. }
    intros _. preserves_model. }
  split.
  { unfold post_mcp_disconnect, global. apply preserves_try_catch; [| preserves_model].
    apply preserves_bind; [apply connected_handler_preserves | intros cdp].
    apply preserves_bind.
    { destruct cdp; [| apply preserves_ret].
      apply on_handler_preserves; [exact model_cdp |].
      apply disconnect_preserves. }
    intros _.
    apply preserves_bind; [preserves_model | intros _].
    apply preserves_bind; [apply preserves_gets | intros client].
    apply preserves_bind; [destruct client; preserves_model | intros _].
    preserves_model. }
  split.
  { intros apiKey. unfold post_gemini_initialize. apply preserves_try_catch; [| preserves_model].
    destruct (negb (truthy apiKey)); [apply preserves_ret |].
    apply preserves_bind; [apply ensure_connected_model | intros ok].
    destruct (negb ok); [apply preserves_ret |].
    apply preserves_bind; [apply install_agent_model | preserves_model]. }
  split.
  { intros req s H. unfold post_gemini_chat, try_catch, bind, global, gets.
    destruct (negb _); [exact H |].
    destruct (geminiAgent (world s)) as [agent |] eqn:Hagent; [| exact H].
    destruct (truthy (req_autoSession req) || _).
    - rewrite logger_run.
      match goal with |- context [makeSession ?s1] =>
        pose proof (makeSession_model s1 H) as Hmake;
        destruct (makeSession s1) as [[sid | e] s2] end; exact Hmake.
    - pose proof (chat_model agent (req_message req) (js_or (req_context req) (JObj [])) s
                    (H agent Hagent)) as Hchat.
      destruct (on_agent agent _ s) as [[r | e] s1]; cbn [snd] in Hchat.
      + destruct (negb (truthy r) || _); [rewrite logger_run |]; exact Hchat.
      + rewrite logger_run. exact Hchat. }
  split; [apply background_session_model |].
  split.
  { intros sid. unfold get_gemini_session, global. preserves_model. }
  split.
  { intros task context options. unfold post_gemini_run_session, global.
    apply preserves_try_catch; [| preserves_model].
    apply preserves_bind; [apply preserves_gets | intros agent].
    destruct (negb _); [apply preserves_ret |].
    destruct agent as [agent |]; [| apply preserves_ret].
    apply preserves_bind; [apply preserves_logger | intros _].
    apply preserves_bind; [| preserves_model].
    apply runTaskSession_preserves; [apply server_env_preserves; model_side | exact Logic.I]. }
  split.
  { intros s H. unfold post_gemini_clear, try_catch, bind, global, gets.
    destruct (geminiAgent (world s)) as [agent |] eqn:Hagent; [| exact H].
    intros a Ha. cbn in Ha. inversion Ha; subst. cbn [GeminiAgent.clearHistory model].
    apply H, Hagent. }
  intros apiKey s H. unfold post_gemini_update_api_key, try_catch.
  destruct (negb (truthy apiKey)); [exact H |].
  unfold bind at 1. unfold global, gets.
  destruct (geminiAgent (world s)) as [agent |] eqn:Hagent.
  - intros a Ha. cbn in Ha. inversion Ha; subst. cbn [GeminiAgent.updateApiKey model].
    apply H, Hagent.
  - assert (Hk : preserves I (ok <- ensure_connected ;;
                          if negb ok then ret (mkReply 500 (BodyError "MCP server not connected"))
                          else install_agent apiKey ;;
                               ret (mkReply 200 (BodyMessage "API key updated")))).
    { apply preserves_bind; [apply ensure_connected_model | intros ok].
      destruct (negb ok); [apply preserves_ret |].
      apply preserves_bind; [apply install_agent_model | preserves_model]. }
    specialize (Hk s H).
    match goal with |- context [match ?m s with _ => _ end] =>
      change (I (world (snd (m s)))) in Hk; destruct (m s) as [[r | e] s1] end; exact Hk.
Qed.

End ModelPreserves.

(** ** The program at work *)

Import Script GeminiAgent Server.

Example match_braces_ex :
  match_braces "ok {a} and {b} end" = Some "{a} and {b}".
Proof. reflexivity. Qed.

Example match_braces_none : match_braces "} no {" = None.
Proof. reflexivity. Qed.

Example match_ref_token_ex : match_ref_token "{ #q, x" = Some "#q".
Proof. reflexivity. Qed.

(** Scenario A of the specification: one navigation, then [done]. *)
Example scenario_A :
  fst (runTaskSession agent task (JObj []) default_options
                      (start [Ok navigate_text; Ok done_text] []))
  = Ok (Some (mkResult true (JStr "Navigated")
                [mkStep 1 (JStr "browser_navigate")
                        (JObj [("url", JStr "https://example.com")])
                        (tool_success JNull)])).
Proof. vm_compute. reflexivity. Qed.

Lemma outside_steady (x : Outside) : steady x.
Proof. intros url t. split; reflexivity. Qed.

(** Three navigations in a row: two steps, then the stop. *)
Lemma repeated_action_stops_witness :
  exists step1 step2 s',
    session_loop 3 agent task default_options initial_loop
                 (start [Ok navigate_text; Ok navigate_text; Ok navigate_text] [])
    = (Ok (Some (mkResult true (JStr stopped_message) [step1; step2])), s').
Proof.
  destruct (repeated_action_stops agent task default_options initial_loop
              (start [Ok navigate_text; Ok navigate_text; Ok navigate_text] [])
              navigate_signature 0)
    as (p1 & p2 & step1 & step2 & st1 & st2 & s2 & text3 & w3
        & _ & _ & _ & _ & _ & _ & _ & _ & _ & Hrun).
  - reflexivity.
  - reflexivity.
  - intros k st s Hk H.
    destruct k as [| [| [| k]]]; [| | | lia];
      vm_compute in H; inversion H; subst; clear H;
      exists navigate_text; eexists; repeat split; reflexivity.
  - exists step1, step2. eexists. exact Hrun.
Defined.

(** The session stopped by the loop guard is no error: what it returns
    has [success: true], and the background task records it with the
    status [finished]. *)
Lemma repeated_action_is_not_an_error :
  (exists r s',
      runTaskSession agent task (JObj []) default_options
                     (start [Ok navigate_text; Ok navigate_text; Ok navigate_text] [])
      = (Ok (Some r), s')
      /\ message r = JStr stopped_message
      /\ length (trace r) = 2%nat
      /\ success r = true)
  /\ status <$> (sessions (world (background_run
                                    [Ok navigate_text; Ok navigate_text; Ok navigate_text]
                                    None)) !! "session-0")
     = Some "finished".
Proof.
  split.
  - do 2 eexists. split; [vm_compute; reflexivity |]. repeat split.
  - vm_compute. reflexivity.
Qed.

(** A budget of two, a navigation and a snapshot. *)
Lemma iteration_cap_witness :
  exists tr s',
    runTaskSession agent task (JObj []) (mkOptions (Some 2%Z) None)
                   (start [Ok navigate_text; Ok snapshot_text] [])
    = (Ok (Some (mkResult false (JStr "Max iterations (2) reached") tr)), s')
    /\ length tr = 2%nat.
Proof.
  destruct (iteration_cap agent task (JObj []) (mkOptions (Some 2%Z) None)
              (start [Ok navigate_text; Ok snapshot_text] []) 2)
    as (st & s' & _ & Hlen & Hrun).
  - reflexivity.
  - lia.
  - intros k st s Hk H.
    destruct k as [| [| k]]; [| | lia];
      vm_compute in H; inversion H; subst; clear H;
      eexists; eexists; repeat split; reflexivity.
  - exists (loop_trace st), s'. split; [exact Hrun | exact Hlen].
Defined.

(** With [maxIterations] 0 the session runs ten steps, not none; and the
    background task records a session that ran out of budget with the
    status [finished], its failure being in [result]. *)
Lemma iteration_cap_fails_at_zero :
  keeps_calling_tools 0 agent task (mkOptions (Some 0%Z) None) (start alternating [])
  /\ (exists r s',
         runTaskSession agent task (JObj []) (mkOptions (Some 0%Z) None) (start alternating [])
         = (Ok (Some r), s')
         /\ length (trace r) = 10%nat
         /\ message r = JStr "Max iterations (10) reached")
  /\ (fun s => (status s, success <$> result s))
       <$> (sessions (world (background_run [Ok navigate_text; Ok snapshot_text]
                                            (Some (mkRequestOptions (Some 2%Z) false))))
            !! "session-0")
     = Some ("finished", Some false).
Proof.
  split; [| split].
  - intros k st s Hk. lia.
  - do 2 eexists. split; [vm_compute; reflexivity |]. split; reflexivity.
  - vm_compute. reflexivity.
Qed.

Lemma script_env_quiet : quiet_env env.
Proof.
  split.
  - intros s. reflexivity.
  - intros name args s. cbn. unfold perform. destruct (next_tool (world s)) as [r w'].
    cbn. rewrite markers_app. cbn. apply app_nil_r.
Qed.

Lemma script_env_forwarding : forwarding_env env.
Proof.
  intros name args s. cbn. unfold perform. destruct (next_tool (world s)) as [r w'].
  cbn. rewrite tool_requests_app. reflexivity.
Qed.

(** A navigation and then [done]: one step, one call of the MCP client,
    two requests to the planning service. *)
Lemma trace_counts_executions_witness :
  exists r s',
    runTaskSession agent task (JObj []) default_options
                   (start [Ok navigate_text; Ok done_text] [])
    = (Ok (Some r), s')
    /\ length (trace r) = 1%nat
    /\ tool_requests (events s')
       = [EvMcpCallTool (JStr "browser_navigate")
                        (JObj [("url", JStr "https://example.com")])]
    /\ executions (events s') = 1%nat
    /\ planner_calls (events s') = 2%nat.
Proof.
  destruct (trace_counts_executions agent task (JObj []) default_options
              (start [Ok navigate_text; Ok done_text] []))
    as (_ & _ & (r & s' & Hrun & _ & He & _ & _) & _ & Hsent).
  - exact script_env_quiet.
  - exact Logic.I.
  - destruct Hsent as (r' & s'' & Hrun' & Hsent).
    + exact script_env_forwarding.
    + exact Logic.I.
    + split; reflexivity.
    + rewrite Hrun in Hrun'. injection Hrun' as <- <-.
      exists r, s'. split; [exact Hrun |].
      assert (Htrace : trace r = [mkStep 1 (JStr "browser_navigate")
                                         (JObj [("url", JStr "https://example.com")])
                                         (JObj [("success", JBool true); ("result", JNull)])]).
      { vm_compute in Hrun. injection Hrun as <- _. reflexivity. }
      split; [rewrite Htrace; reflexivity |].
      split; [rewrite Hsent, Htrace; reflexivity |].
      split; [rewrite He, Htrace; reflexivity |].
      vm_compute in Hrun. injection Hrun as _ <-. reflexivity.
Defined.

(** A text without braces. *)
Lemma malformed_text_finishes_session_witness :
  exists s',
    session_loop 1 agent task default_options initial_loop
                 (start [Ok "I cannot help with that."] [])
    = (Ok (Some (mkResult true (JStr "I cannot help with that.") [])), s').
Proof.
  eexists.
  apply (malformed_text_finishes_session agent task default_options initial_loop
           (start [Ok "I cannot help with that."] []) "I cannot help with that."
           (mkWorld [] []) 0).
  - exact I.
  - reflexivity.
  - reflexivity.
Defined.

(** The empty text holds no JSON, and the message of the session is
    [Done], not that text. *)
Lemma empty_text_gives_done :
  no_json ""
  /\ parseGeminiResponse "" = respond_with ""
  /\ (exists s',
         runTaskSession agent task (JObj []) default_options (start [Ok ""] [])
         = (Ok (Some (mkResult true (JStr "Done") [])), s'))
  /\ JStr "Done" <> JStr "".
Proof.
  split; [exact I |]. split; [reflexivity |].
  split; [eexists; vm_compute; reflexivity | discriminate].
Qed.

(** A navigation that the tools answer with a crash: the pass goes on,
    with the failure as its step and in the next prompt. *)
Lemma failed_tool_call_continues_witness :
  exists st' s',
    session_iteration agent task default_options initial_loop crashing
    = (Ok (inl st'), s')
    /\ loop_trace st'
       = [mkStep 1 (JStr "browser_navigate") (JObj [("url", JStr "https://example.com")])
                 (JObj [("success", JBool false);
                        ("error", JStr "browser has crashed")])]
    /\ lastToolResult st'
       = JObj [("success", JBool false); ("error", JStr "browser has crashed")]
    /\ prompt_of task st'
       = starter_prompt task +:+ nl +:+ nl +:+ "Previous tool result: " +:+
         "{" +:+ quoted "success" +:+ ":false," +:+ quoted "error" +:+ ":" +:+
         quoted "browser has crashed" +:+ "}".
Proof.
  pose (w' := mkWorld [] [Throw (Error "browser has crashed")]).
  pose (resolved := parseGeminiResponse navigate_text).
  pose (s1 := planned_state agent task initial_loop crashing navigate_text w').
  pose (s2 := snd (dispatched_call agent (lookup_prop "tool" resolved)
                     (js_or (lookup_prop "args" resolved) (JObj []))
                     (executing_state initial_loop resolved s1))).
  destruct (failed_tool_call_continues agent task default_options initial_loop
              crashing navigate_text w' resolved s1 s2 (Error "browser has crashed") 0)
    as (s3 & s' & _ & Hrun & Htr & _ & Hlast & Hprompt & _).
  - reflexivity.
  - reflexivity.
  - reflexivity.
  - vm_compute. reflexivity.
  - vm_compute. reflexivity.
  - do 2 eexists. split; [exact Hrun |]. split; [rewrite Htr; reflexivity |].
    split; [exact Hlast |]. rewrite Hprompt. reflexivity.
Defined.

(** A click with a ref. *)
Lemma explicit_ref_is_kept_witness :
  exists s',
    resolve_ref agent task click_action (start [] []) = (Ok click_action, s')
    /\ world s' = world (start [] []).
Proof.
  destruct (explicit_ref_is_kept agent task click_action (start [] [])) as [_ H].
  - reflexivity.
  - eexists. split; [exact H | reflexivity].
Defined.


(** Two ports answer 200, the second with JSON. *)
Lemma detect_contract_witness :
  exists s',
    findChromeCDPEndpoint (server two_ports None) = (Ok (Some "http://localhost:9223"), s')
    /\ List.filter is_fetch (events s')
       = [EvFetch "http://localhost:9222/json/version" 500;
          EvFetch "http://localhost:9223/json/version" 500].
Proof.
  destruct (detect_contract (server two_ports None) (outside_steady two_ports))
    as (_ & _ & _ & _ & s' & Hrun & _ & Hev).
  exists s'. split; [exact Hrun | exact Hev].
Defined.

(** The first port whose response is 2xx is 9222, and the detector
    returns the address of 9223: the body of 9222 is no JSON. *)
Lemma first_2xx_port_is_skipped :
  port_ok two_ports 9222 = true
  /\ List.find (port_ok two_ports) possiblePorts = Some 9222%Z
  /\ fst (findChromeCDPEndpoint (server two_ports None)) = Ok (Some "http://localhost:9223").
Proof. repeat split; vm_compute; reflexivity. Qed.

(** ** More of the program at work *)

(** The action [done] in a fence of code, after a sentence. *)
Lemma json_in_prose_witness :
  parseGeminiResponse fenced_text = [("action", JStr "done"); ("message", JStr "Navigated")].
Proof.
  exact (json_in_prose
           ("Here is the next action:" +:+ nl +:+ "```json" +:+ nl)
           (quoted "action" +:+ ":" +:+ quoted "done" +:+ "," +:+
            quoted "message" +:+ ":" +:+ quoted "Navigated")
           (nl +:+ "```")
           [("action", JStr "done"); ("message", JStr "Navigated")]
           eq_refl eq_refl eq_refl).
Defined.

(** The key Enter, with a catalogue that has [browser_evaluate]: one
    call, to [browser_evaluate], with the page function of line 814. *)
Lemma evaluate_only_tools_go_through_evaluate_witness :
  exists s',
    executeTool tooled (JStr "browser_press_key") (JObj [("key", JStr "Enter")])
                (start [] [Ok (JStr "pressed")])
    = (Ok (JObj [("success", JBool true); ("result", JStr "pressed")]), s')
    /\ events s'
       = [EvMcpCallTool (JStr "browser_evaluate")
            (JObj [("function",
                    JStr ("() => { try { document.activeElement && document.activeElement.dispatchEvent(new KeyboardEvent('keydown',{key:" +:+
                          quoted "Enter" +:+
                          "})); return { status: 'key-pressed' }; } catch(e){return { error: String(e) } } }"))])].
Proof.
  eexists.
  destruct (evaluate_only_tools_go_through_evaluate
              tooled [mkTool "browser_snapshot" []; mkTool "browser_evaluate" ["function"]]
              (JObj [("key", JStr "Enter")]) (start [] [Ok (JStr "pressed")]) eq_refl)
    as (_ & _ & Hkey & _).
  - right. left. reflexivity.
  - rewrite Hkey. split; reflexivity.
Defined.

(** An agent without a catalogue. *)
Lemma computed_ref_is_null_or_text_witness :
  computeRefIfMissing agent (JStr "browser_click") (JObj []) (JStr "the button")
                      (start [] [])
  = (Ok JNull, start [] []).
Proof.
  destruct (computed_ref_is_null_or_text agent (JStr "browser_click") (JObj [])
              (JStr "the button") (start [] []) eq_refl)
    as (v & s' & Hrun & _ & Hnull).
  destruct (Hnull eq_refl) as [-> ->]. exact Hrun.
Defined.


(** A planning service that answers 429. *)
Lemma planner_failure_ends_session_witness :
  exists s',
    session_loop 1 agent task default_options initial_loop
                 (start [Throw (Error "Gemini API error: 429")] [])
    = (Ok (Some (mkResult false (JStr "Gemini API error: 429") [])), s').
Proof.
  eexists.
  apply (planner_failure_ends_session agent task default_options initial_loop
           (start [Throw (Error "Gemini API error: 429")] [])
           (Error "Gemini API error: 429") (mkWorld [] []) 0).
  - reflexivity.
  - vm_compute. reflexivity.
Defined.

(** A budget of two, a navigation and a snapshot: two steps. *)
Lemma session_trace_within_budget_witness :
  exists r s',
    runTaskSession agent task (JObj []) (mkOptions (Some 2%Z) None)
                   (start [Ok navigate_text; Ok snapshot_text; Ok navigate_text] [])
    = (Ok (Some r), s')
    /\ length (trace r) = 2%nat
    /\ (Z.of_nat (length (trace r)) <= 2)%Z.
Proof.
  destruct (runTaskSession agent task (JObj []) (mkOptions (Some 2%Z) None)
              (start [Ok navigate_text; Ok snapshot_text; Ok navigate_text] []))
    as [[[r |] | e] s'] eqn:Hrun; try (vm_compute in Hrun; discriminate).
  exists r, s'. split; [reflexivity |].
  split.
  - vm_compute in Hrun. injection Hrun as <- _. reflexivity.
  - exact (session_trace_within_budget agent task (JObj []) (mkOptions (Some 2%Z) None)
             _ _ _ Hrun).
Defined.

(** A budget of -1. *)
Lemma negative_budget_runs_nothing_witness :
  runTaskSession agent task (JObj []) (mkOptions (Some (-1)%Z) None)
                 (start [Ok navigate_text] [])
  = (Ok (Some (mkResult false (JStr "Max iterations (-1) reached") [])),
     start [Ok navigate_text] []).
Proof.
  apply (negative_budget_runs_nothing agent task (JObj []) (mkOptions (Some (-1)%Z) None)
           (start [Ok navigate_text] []) (-1)%Z eq_refl).
  split; [vm_compute; discriminate | lia].
Defined.

(** One message, one answer. *)
Lemma processMessage_keeps_last_ten_witness :
  conversationHistory
    (fst (snd (processMessage (JStr "hello") JUndefined
                              (agent, start [Ok "Hi there."] []))))
  = [mkChatMsg "user" (JStr "hello"); mkChatMsg "assistant" (JStr "Hi there.")].
Proof.
  destruct (processMessage (JStr "hello") JUndefined (agent, start [Ok "Hi there."] []))
    as [[response | e] [this' s']] eqn:Hrun.
  - assert (Hcontext : JUndefined <> JNull) by discriminate.
    destruct (processMessage_keeps_last_ten _ _ _ _ _ _ _ Hcontext Hrun) as [-> _].
    vm_compute in Hrun. injection Hrun as <- _ _. reflexivity.
  - vm_compute in Hrun. discriminate.
Defined.

(** A planning service that fails. *)
Lemma processMessage_failure_keeps_question_witness :
  exists s',
    processMessage (JStr "hello") JUndefined
                   (agent, start [Throw (Error "Gemini API error: 500")] [])
    = (Throw (Error "Gemini API error: 500"),
       (with_history [mkChatMsg "user" (JStr "hello")] agent, s')).
Proof.
  eexists.
  apply (processMessage_failure_keeps_question (JStr "hello") JUndefined agent
           (start [Throw (Error "Gemini API error: 500")] [])
           (Error "Gemini API error: 500") (mkWorld [] [])).
  - discriminate.
  - reflexivity.
Defined.


(** A handler that was never connected. *)
Lemma operations_need_connection_witness :
  PlaywrightCDPHandler.navigate (JStr "https://example.com") JUndefined
    (PlaywrightCDPHandler.constructor "http://localhost:9222", mkSt (silent_outside []) [])
  = (Throw not_connected,
     (PlaywrightCDPHandler.constructor "http://localhost:9222", mkSt (silent_outside []) [])).
Proof.
  apply (operations_need_connection
           (PlaywrightCDPHandler.constructor "http://localhost:9222")
           (mkSt (silent_outside []) [])
           (JStr "https://example.com") JUndefined JUndefined JUndefined JUndefined JUndefined).
  left. reflexivity.
Defined.

(** A second page of the attached browser. *)
Lemma getPage_binds_a_page_once_witness :
  PlaywrightCDPHandler.getPage (JStr "page-1") (attached, mkSt (silent_outside []) [])
  = (Ok 1%nat, (two_pages, mkSt (silent_outside []) [EvNewPage 0%nat]))
  /\ PlaywrightCDPHandler.getPage (JStr "page-1") (two_pages, mkSt (silent_outside []) [])
     = (Ok 1%nat, (two_pages, mkSt (silent_outside []) [])).
Proof.
  pose proof (getPage_binds_a_page_once (JStr "page-1") attached 0%nat
                (mkSt (silent_outside []) []) eq_refl eq_refl) as H.
  destruct (H 1%nat (silent_outside []) eq_refl) as [Hfirst Hagain].
  split; [exact Hfirst | exact (Hagain eq_refl (mkSt (silent_outside []) []))].
Defined.

(** A script that is a boolean. *)
Lemma evaluate_rejects_what_is_no_text_witness :
  PlaywrightCDPHandler.evaluate (JBool true) (JStr "page-0")
                                (attached, mkSt (silent_outside []) [])
  = (Throw (Error "Invalid script type: expected string or function"),
     (attached, mkSt (silent_outside []) [])).
Proof.
  apply (evaluate_rejects_what_is_no_text (JBool true) (JStr "page-0") attached 0%nat 0%nat
           (mkSt (silent_outside []) [])); reflexivity.
Defined.

(** A tool of another server, with a browser attached. *)
Lemma other_tools_bypass_browser_witness :
  exists added,
    events (snd (wrapper_callTool (JStr "read_file") (JObj [])
                                  (server (silent_outside []) (Some attached))))
    = added
    /\ Forall (fun ev => to_browser ev = false) added.
Proof.
  destruct (other_tools_bypass_browser "read_file" (JObj [])
              (server (silent_outside []) (Some attached)) eq_refl)
    as (_ & added & Hev & Hadded).
  exists added. split; [exact Hev | exact Hadded].
Defined.

(** The server before it connects. *)
Lemma no_backend_fails_tool_call_witness :
  exists s',
    GeminiAgent.executeTool (E := agent_env) agent (JStr "browser_click") (JObj []) cold_server
    = (Ok (JObj [("success", JBool false); ("error", JStr "MCP client not connected")]),
       s')
    /\ world s' = world cold_server.
Proof.
  apply (no_backend_fails_tool_call agent (JStr "browser_click") (JObj []) cold_server);
    reflexivity.
Defined.

(** The first session of a server. *)
Lemma session_store_round_trip_witness :
  exists s',
    makeSession (server (silent_outside []) None) = (Ok "session-0", s')
    /\ get_gemini_session "session-0" s'
       = (Ok (mkReply 200 (BodySessionRecord (created_session "session-0" "t1"))), s')
    /\ get_gemini_session "session-1" s'
       = (Ok (mkReply 404 (BodyError "session not found")), s')
    /\ updateSession "session-1" no_patch s' = (Ok tt, s').
Proof.
  apply (session_store_round_trip (server (silent_outside []) None)
           "session-0" "t1" "session-1" no_patch
           (snd (tick "session-" (silent_outside [])))
           (snd (tick "t" (snd (tick "session-" (silent_outside [])))))).
  - reflexivity.
  - reflexivity.
  - reflexivity.
  - reflexivity.
  - discriminate.
Defined.

(** A message the planning service answers with a sentence. *)
Lemma chat_reply_is_never_blank_witness :
  exists s',
    post_gemini_chat (mkChatRequest (JStr "hello") JUndefined None JUndefined)
                     (server (silent_outside [Ok "Hi there."]) None)
    = (Ok (mkReply 200 (BodyResponse (JStr "Hi there.")), None), s')
    /\ is_blank "Hi there." = false.
Proof.
  destruct (post_gemini_chat (mkChatRequest (JStr "hello") JUndefined None JUndefined)
                             (server (silent_outside [Ok "Hi there."]) None))
    as [r s'] eqn:Hrun.
  assert (Hr : r = Ok (mkReply 200 (BodyResponse (JStr "Hi there.")), None)).
  { pose proof Hrun as Hc. vm_compute in Hc. injection Hc as <- _. reflexivity. }
  subst r. exists s'. split; [reflexivity |].
  destruct (chat_reply_is_never_blank _ _ _ _ _ Hrun) as (_ & Hblank & _).
  exact (Hblank "Hi there." eq_refl).
Defined.

(** The server started with [USE_EXISTING_BROWSER=false]. *)
Lemma no_probe_when_disabled_witness :
  exists connected s' added,
    connectToMCP cold_server = (Ok connected, s')
    /\ events s' = (events cold_server ++ added)%list
    /\ Forall (fun ev => is_fetch ev = false /\ to_browser ev = false) added
    /\ playwrightCDP (world s') = None.
Proof.
  exact (no_probe_when_disabled cold_server eq_refl).
Defined.

(** A server with a browser attached and an agent. *)
Lemma disconnect_drops_agent_witness :
  geminiAgent (world (snd (post_mcp_disconnect (server (silent_outside []) (Some attached)))))
  = None.
Proof.
  destruct (post_mcp_disconnect (server (silent_outside []) (Some attached)))
    as [[[code b] | e] s'] eqn:Hrun; [| vm_compute in Hrun; discriminate].
  assert (Hcode : code = 200%nat).
  { pose proof Hrun as Hc. vm_compute in Hc. injection Hc as <- _ _. reflexivity. }
  subst code.
  exact (proj1 (disconnect_drops_agent (mkChatRequest (JStr "hello") JUndefined None JUndefined)
                  b _ s' Hrun)).
Defined.

(** A subprocess that cannot list its tools. *)
Lemma failed_initialization_still_installs_agent_witness :
  exists s',
    post_gemini_initialize (SE := deaf_env) (JStr "key")
      (mkSt (mkBridge (silent_outside []) no_env true true true None None ∅) [])
    = (Ok (mkReply 500 (BodyError "Failed to initialize Gemini agent")), s')
    /\ geminiAgent (world s') = Some agent
    /\ post_gemini_update_api_key (SE := deaf_env) (JStr "key")
         (mkSt (mkBridge (silent_outside []) no_env true true true None None ∅) [])
       = (Ok (mkReply 200 (BodyMessage "API key updated")), s').
Proof.
  destruct (failed_initialization_still_installs_agent (SE := deaf_env) (JStr "key")
              (mkSt (mkBridge (silent_outside []) no_env true true true None None ∅) [])
              (Error "Connection closed") (silent_outside [])
              eq_refl eq_refl eq_refl eq_refl)
    as (Hinit & Hagent & _ & Hupdate).
  eexists. split; [exact Hinit |]. split; [exact Hagent | exact (Hupdate eq_refl)].
Defined.

(** The store that holds the session of a task, after the task has run
    and written its updates to it. *)
Lemma session_ids_are_keys_witness :
  store_ok (world (background_run [Ok navigate_text; Ok done_text] None))
  /\ (fun s => (id s, status s, length (session_trace s)))
       <$> (sessions (world (background_run [Ok navigate_text; Ok done_text] None))
            !! "session-0")
     = Some ("session-0", "finished", 1%nat).
Proof.
  split; [| vm_compute; reflexivity].
  destruct (session_ids_are_keys (X := Outside)) as (_ & _ & _ & _ & _ & _ & _ & H & _).
  apply H. intros k sess Hk.
  change (sessions (world (session_start [Ok navigate_text; Ok done_text])))
    with (<[ "session-0" := created_session "session-0" "t1" ]>
            (∅ : gmap string Session)) in Hk.
  apply lookup_insert_Some in Hk. destruct Hk as [[<- <-] | [_ Hk]]; [reflexivity |].
  rewrite lookup_empty in Hk. discriminate.
Defined.

(** The session of a task, after the task has run. *)
Lemma sessions_are_never_removed_witness :
  is_Some (sessions (world (background_run [Ok navigate_text; Ok done_text] None))
           !! "session-0").
Proof.
  destruct (sessions_are_never_removed (X := Outside) "session-0")
    as (_ & _ & _ & _ & _ & _ & _ & H & _).
  apply H. eexists. vm_compute. reflexivity.
Defined.

(** The agent of a server, after its key was changed. *)
Lemma server_agent_model_witness :
  agent_model_ok (world (snd (post_gemini_update_api_key (JStr "another key")
                                (server (silent_outside []) None)))).
Proof.
  destruct (server_agent_model (X := Outside)) as (_ & _ & _ & _ & _ & _ & _ & _ & _ & _ & _ & H).
  apply H. intros a Ha. injection Ha as <-. reflexivity.
Defined.

(** The page of the attached browser, closed twice. *)
Lemma closePage_forgets_the_page_witness :
  exists h' s',
    PlaywrightCDPHandler.closePage (JStr "page-0") (attached, mkSt (silent_outside []) [])
    = (Ok PlaywrightCDPHandler.ok_result, (h', s'))
    /\ PlaywrightCDPHandler.closePage (JStr "page-0") (h', s') = (Ok page_not_found, (h', s')).
Proof.
  pose proof (closePage_forgets_the_page (JStr "page-0") attached
                (mkSt (silent_outside []) [])) as H.
  destruct (H JNull (silent_outside []) eq_refl) as [Hfirst Hagain].
  do 2 eexists. split; [exact Hfirst | apply Hagain].
Defined.

(** A click that the chain routes to the handler, and a name that is part
    of the name of a browser tool and has no branch in the chain. *)
Lemma listed_browser_tools_are_routed_witness :
  fst (cdp_route attached (JStr "browser_click") (JObj [("selector", JStr "#submit")])
                 "Tool not handled by CDP" (server (silent_outside []) (Some attached)))
  = Ok (JObj [("success", JBool true)])
  /\ cdp_route attached (JStr "browser") (JObj []) "Tool not handled by CDP"
               (server (silent_outside []) (Some attached))
     = (Throw (Error "Tool not handled by CDP"), server (silent_outside []) (Some attached)).
Proof.
  split.
  - destruct (listed_browser_tools_are_routed (X := Outside) attached
                (JObj [("selector", JStr "#submit")]) "Tool not handled by CDP")
      as (_ & _ & _ & Hclick & _).
    destruct (Forall_inv Hclick) as [_ Hroute]. rewrite Hroute. reflexivity.
  - destruct (listed_browser_tools_are_routed (X := Outside) attached
                (JObj []) "Tool not handled by CDP")
      as (_ & _ & _ & _ & _ & _ & _ & _ & _ & Hunhandled).
    apply Hunhandled. reflexivity.
Defined.

(** A request without a message, and a task for a server without an
    agent. *)
Lemma chat_rejects_bad_requests_witness :
  post_gemini_chat (mkChatRequest (JStr "") JUndefined None JUndefined)
                   (server (silent_outside []) None)
  = (Ok (mkReply 400 (BodyError "Message is required"), None),
     server (silent_outside []) None)
  /\ post_gemini_run_session task JUndefined None cold_server
     = (Ok (mkReply 400 (BodyError "Gemini agent not initialized")), cold_server).
Proof.
  split.
  - apply (chat_rejects_bad_requests (mkChatRequest (JStr "") JUndefined None JUndefined)
             task JUndefined None (server (silent_outside []) None)).
    reflexivity.
  - apply (chat_rejects_bad_requests (mkChatRequest (JStr "") JUndefined None JUndefined)
             task JUndefined None cold_server); reflexivity.
Defined.
